(** * pearson-scraper: the progress-tracked orchestrator and the merge engine

    A shallow embedding of [src/file_processor.js] (identifier parser and
    merge engine), of the [ProgressTracker] class and of the traversal in
    [src/modules/scraper.js], followed by the properties the specification
    states about them.

    Conventions of the embedding.
    - A JavaScript string is a [string]: a sequence of code units, each below
      256.  Character classes ([A-Z], [\d], [\s]) are those of the code units
      of that range.
    - A plain object used as a map is a [gmap string _]; an array is a [list].
    - Integer counters are [Z]; the one floating-point expression of the
      program (the percentage of [getSummary]) is evaluated in IEEE binary64
      with [SpecFloat].
    - Code that throws returns a [res]; code that mutates the tracker, the
      ledger file or the page runs in the state monad [M].
    - The outcome of each write of the ledger file is a parameter of the
      run, a [disk]; where a property is stated for [writable], it is about
      runs on a ledger path that can be written throughout. *)

From Stdlib Require Import ZArith Ascii String SpecFloat Lia Sorted.
From stdpp Require Import gmap strings list.

Open Scope Z_scope.

(** ** JavaScript strings *)

Module JS.

Definition code (a : ascii) : N := N_of_ascii a.

Definition in_range (lo hi : N) (a : ascii) : bool :=
  ((lo <=? code a) && (code a <=? hi))%N.

(** [[A-Z]] *)
Definition is_upper : ascii -> bool := in_range 65 90.

(** [\d] *)
Definition is_digit : ascii -> bool := in_range 48 57.

(** [\s] on code units below 256: TAB, LF, VT, FF, CR, SPACE and NBSP. *)
Definition is_space (a : ascii) : bool :=
  in_range 9 13 a || (code a =? 32)%N || (code a =? 160)%N.

(** A literal character. *)
Definition is_char (c : ascii) (a : ascii) : bool := (code a =? code c)%N.

(** The regular expressions of the program use classes, sequence,
    alternation, the greedy quantifiers [?] and [*] (the latter on classes
    only) and the anchor [$].  The anchor [^] is rendered by matching at
    index 0 only ([test_anchored], [match_anchored]). *)
Inductive regex : Type :=
| Cls (p : ascii -> bool)
| Cat (r1 r2 : regex)
| Alt (r1 r2 : regex)
| Opt (r : regex)
| Star (p : ascii -> bool)
| Eos
| Empty.

(** [c*] followed by the continuation [k]: as many characters as possible
    first, one fewer on failure of [k]. *)
Fixpoint star_k (p : ascii -> bool) (s : string)
    (k : string -> option string) : option string :=
  match s with
  | String a t =>
      if p a then
        match star_k p t k with
        | Some r => Some r
        | None => k s
        end
      else k s
  | EmptyString => k s
  end.

(** The backtracking matcher: [rmatch r s k] matches [r] at the start of [s]
    and hands what is left to [k]; the first success in the engine's order
    of preference is the answer. *)
Fixpoint rmatch (r : regex) (s : string)
    (k : string -> option string) : option string :=
  match r with
  | Cls p =>
      match s with
      | String a t => if p a then k t else None
      | EmptyString => None
      end
  | Cat r1 r2 => rmatch r1 s (fun s' => rmatch r2 s' k)
  | Alt r1 r2 =>
      match rmatch r1 s k with
      | Some x => Some x
      | None => rmatch r2 s k
      end
  | Opt r1 =>
      match rmatch r1 s k with
      | Some x => Some x
      | None => k s
      end
  | Star p => star_k p s k
  | Eos =>
      match s with
      | EmptyString => k s
      | String _ _ => None
      end
  | Empty => k s
  end.

(** What is left of [s] after a match of [r] at index 0. *)
Definition match_here (r : regex) (s : string) : option string :=
  rmatch r s Some.

Fixpoint take (n : nat) (s : string) : string :=
  match n, s with
  | S n', String a t => String a (take n' t)
  | _, _ => EmptyString
  end.

(** [s.match(/^(r)/)]: the matched prefix, or [None] for [null]. *)
Definition match_anchored (r : regex) (s : string) : option string :=
  match match_here r s with
  | Some rest => Some (take (String.length s - String.length rest) s)
  | None => None
  end.

(** [/^r/.test(s)] *)
Definition test_anchored (r : regex) (s : string) : bool :=
  match match_here r s with
  | Some _ => true
  | None => false
  end.

(** [s.replace(/r/g, "")].  The scan tries a match at the current index;
    a non-empty match is dropped and the scan goes on behind it, otherwise
    the current character is kept.  Every step consumes a character, so
    [String.length s] steps of [fuel] are enough ([remove_all]). *)
Fixpoint remove_all_fuel (fuel : nat) (r : regex) (s : string) : string :=
  match fuel with
  | O => s
  | S fuel' =>
      match s with
      | EmptyString => EmptyString
      | String a t =>
          match match_here r s with
          | Some rest =>
              if (String.length rest <? String.length s)%nat
              then remove_all_fuel fuel' r rest
              else String a (remove_all_fuel fuel' r t)
          | None => String a (remove_all_fuel fuel' r t)
          end
      end
  end.

Definition remove_all (r : regex) (s : string) : string :=
  remove_all_fuel (String.length s) r s.

(** [s.replace(/r/, "")]: the leftmost match only. *)
Fixpoint remove_first (r : regex) (s : string) : string :=
  match match_here r s with
  | Some rest => rest
  | None =>
      match s with
      | EmptyString => EmptyString
      | String a t => String a (remove_first r t)
      end
  end.

(** A literal string as a regular expression. *)
Fixpoint lit (w : string) : regex :=
  match w with
  | EmptyString => Empty
  | String c t => Cat (Cls (is_char c)) (lit t)
  end.

Fixpoint starts_with (w s : string) : bool :=
  match w, s with
  | EmptyString, _ => true
  | String c w', String a s' => Ascii.eqb c a && starts_with w' s'
  | String _ _, EmptyString => false
  end.

(** [s.includes(w)] *)
Fixpoint includes (w s : string) : bool :=
  starts_with w s ||
  match s with
  | EmptyString => false
  | String _ t => includes w t
  end.

Fixpoint rev_acc (s acc : string) : string :=
  match s with
  | EmptyString => acc
  | String a t => rev_acc t (String a acc)
  end.

(** [s.endsWith(w)] *)
Definition endsWith (w s : string) : bool :=
  starts_with (rev_acc w EmptyString) (rev_acc s EmptyString).

(** [toLowerCase] on code units below 256: A-Z and the Latin-1 capitals. *)
Definition lower_char (a : ascii) : ascii :=
  if is_upper a || (in_range 192 222 a && negb (code a =? 215)%N)
  then ascii_of_N (code a + 32)
  else a.

Fixpoint toLowerCase (s : string) : string :=
  match s with
  | EmptyString => EmptyString
  | String a t => String (lower_char a) (toLowerCase t)
  end.

End JS.

(** ** Identifier parser ([src/file_processor.js]) *)

(** [/\s*\(\d{4}\)\s*/] *)
Definition year_re : JS.regex :=
  JS.Cat (JS.Star JS.is_space)
 (JS.Cat (JS.Cls (JS.is_char "("))
 (JS.Cat (JS.Cls JS.is_digit)
 (JS.Cat (JS.Cls JS.is_digit)
 (JS.Cat (JS.Cls JS.is_digit)
 (JS.Cat (JS.Cls JS.is_digit)
 (JS.Cat (JS.Cls (JS.is_char ")"))
         (JS.Star JS.is_space))))))).

(** [/_+$/] *)
Definition trailing_underscores_re : JS.regex :=
  JS.Cat (JS.Cls (JS.is_char "_"))
 (JS.Cat (JS.Star (JS.is_char "_")) JS.Eos).

Definition getBaseSubjectName (subject : string) : string :=
  JS.remove_first trailing_underscores_re (JS.remove_all year_re subject).

Definition mathSubjects : list string :=
  ["Mathematics"; "Further_Mathematics"; "Pure_Mathematics"].

Definition isMathSubject (subject : string) : bool :=
  bool_decide (subject ∈ mathSubjects).

(** [/^([A-Z]{2,3}\d{2}(?:-\d{2})?[A-Z]?)/] *)
Definition unit_code_re : JS.regex :=
  JS.Cat (JS.Cls JS.is_upper)
 (JS.Cat (JS.Cls JS.is_upper)
 (JS.Cat (JS.Opt (JS.Cls JS.is_upper))
 (JS.Cat (JS.Cls JS.is_digit)
 (JS.Cat (JS.Cls JS.is_digit)
 (JS.Cat (JS.Opt (JS.Cat (JS.Cls (JS.is_char "-"))
                 (JS.Cat (JS.Cls JS.is_digit) (JS.Cls JS.is_digit))))
         (JS.Opt (JS.Cls JS.is_upper))))))).

Definition parseUnitCode (filename : string) : option string :=
  JS.match_anchored unit_code_re filename.

(** ** Exceptions and state *)

Inductive res (A : Type) : Type :=
| Ok (a : A)
| Throw (message : string).
Arguments Ok {A} a.
Arguments Throw {A} message.

(** A computation over a mutable state [S] that returns or throws. *)
Definition M (S A : Type) : Type := S -> res A * S.

Definition ret {S A : Type} (a : A) : M S A := fun s => (Ok a, s).

Definition throw {S A : Type} (message : string) : M S A :=
  fun s => (Throw message, s).

Definition bind {S A B : Type} (m : M S A) (k : A -> M S B) : M S B :=
  fun s =>
    match m s with
    | (Ok a, s') => k a s'
    | (Throw e, s') => (Throw e, s')
    end.

(** [try { m } catch (error) { h error.message }] *)
Definition try_catch {S A : Type} (m : M S A) (h : string -> M S A) : M S A :=
  fun s =>
    match m s with
    | (Ok a, s') => (Ok a, s')
    | (Throw e, s') => h e s'
    end.

Definition get {S : Type} : M S S := fun s => (Ok s, s).

Definition modify {S : Type} (f : S -> S) : M S unit := fun s => (Ok tt, f s).

Notation "'let*' x ':=' m 'in' k" := (bind m (fun x => k))
  (at level 10, x pattern, m at level 100, k at level 200).

Notation "m ';;' k" := (bind m (fun _ => k))
  (at level 100, k at level 200, right associativity).

(** [for (const x of l) body], with a local variable [acc] updated by the
    body. *)
Fixpoint for_of {S A B : Type} (l : list A) (acc : B)
    (body : B -> A -> M S B) : M S B :=
  match l with
  | [] => ret acc
  | x :: l' => let* acc' := body acc x in for_of l' acc' body
  end.

(** ** Merge engine ([src/file_processor.js]) *)

(** The raw tree as [fs.readdir] and [fs.stat] show it: a directory lists
    its entries in order; an entry is a directory or something else.  The
    entries of a subject folder are the regular files [saveData] wrote. *)
Inductive entry (A : Type) : Type :=
| NotDir
| IsDir (content : A).
Arguments NotDir {A}.
Arguments IsDir {A} content.

Definition subject_dir : Type := list string.
Definition session_dir : Type := list (string * entry subject_dir).
Definition qual_dir : Type := list (string * entry session_dir).
Definition source_dir : Type := list (string * entry qual_dir).

(** A folder of the target tree: file name to the raw subject folder the
    file was copied from ([fs.copyFile] overwrites a file of the same
    name).  The target tree maps (qualification, session, folder name) to
    the folder; the run starts with an empty target. *)
Definition target_dir : Type :=
  gmap (string * string * string) (gmap string string).

(** The mutable variables of one call of [processMathSubjects] or
    [processRegularSubjects], the target folder the call writes and the
    files it copied, as (raw subject, file). *)
Record group_state : Type := mkGroup {
  processedUnitCodes : gset string;
  processedFiles : nat;
  duplicatesFound : nat;
  folder : gmap string string;
  copied : list (string * string)
}.

Fixpoint readdir {A : Type} (name : string) (dir : list (string * entry A))
    : option A :=
  match dir with
  | [] => None
  | (n, e) :: dir' =>
      if String.eqb n name
      then match e with IsDir c => Some c | NotDir => None end
      else readdir name dir'
  end.

(** The body of the loop over the files of one subject variant. *)
Definition process_file (subject file : string) (g : group_state)
    : group_state :=
  if negb (JS.endsWith ".json" file) then g
  else
    match parseUnitCode file with
    | None => g
    | Some unitCode =>
        let n := S (processedFiles g) in
        if bool_decide (unitCode ∈ processedUnitCodes g)
        then mkGroup (processedUnitCodes g) n (S (duplicatesFound g))
               (folder g) (copied g)
        else mkGroup ({[unitCode]} ∪ processedUnitCodes g) n
               (duplicatesFound g)
               (<[file := subject]> (folder g))
               (copied g ++ [(subject, file)])
    end.

(** The body of the loop over the variants: a variant that cannot be read
    as a directory (ENOENT, ENOTDIR) is skipped. *)
Definition process_variant (sessionPath : session_dir) (g : group_state)
    (subject : string) : group_state :=
  match readdir subject sessionPath with
  | Some files => fold_left (fun g file => process_file subject file g) files g
  | None => g
  end.

(** Both functions run the same loop; they differ in the target folder,
    which [organizeData] hands over as it stands after [mkdir]. *)
Definition process_variants (sessionPath : session_dir)
    (variants : list string) (target : gmap string string) : group_state :=
  fold_left (process_variant sessionPath) variants
    (mkGroup ∅ 0 0 target []).

Definition processMathSubjects (sessionPath : session_dir)
    (mathSubjects : list string) (unifiedMath : gmap string string)
    : group_state :=
  process_variants sessionPath mathSubjects unifiedMath.

Definition processRegularSubjects (sessionPath : session_dir)
    (baseSubject : string) (subjectVariants : list string)
    (targetSubject : gmap string string) : group_state :=
  process_variants sessionPath subjectVariants targetSubject.

(** [subjectGroups] is a plain object: a base name that is a property of
    [Object.prototype] reads as that property, and [push] on it throws. *)
Definition object_prototype_keys : list string :=
  ["constructor"; "__defineGetter__"; "__defineSetter__"; "hasOwnProperty";
   "__lookupGetter__"; "__lookupSetter__"; "isPrototypeOf";
   "propertyIsEnumerable"; "toString"; "valueOf"; "__proto__";
   "toLocaleString"].

Fixpoint group_push (baseName subject : string)
    (groups : list (string * list string)) : list (string * list string) :=
  match groups with
  | [] => [(baseName, [subject])]
  | (b, vs) :: groups' =>
      if String.eqb b baseName then (b, vs ++ [subject]) :: groups'
      else (b, vs) :: group_push baseName subject groups'
  end.

Fixpoint group_subjects (subjects : list string)
    (groups : list (string * list string))
    : res (list (string * list string)) :=
  match subjects with
  | [] => Ok groups
  | subject :: subjects' =>
      let baseName := getBaseSubjectName subject in
      if bool_decide (baseName ∈ object_prototype_keys)
      then Throw "TypeError: subjectGroups[baseName].push is not a function"
      else group_subjects subjects' (group_push baseName subject groups)
  end.

(** [Object.entries] lists the keys that are array indices first, in
    ascending order, and the others in the order of their creation. *)
Fixpoint digits_value (s : string) (acc : N) : option N :=
  match s with
  | EmptyString => Some acc
  | String a t =>
      if JS.is_digit a then digits_value t (acc * 10 + (JS.code a - 48))%N
      else None
  end.

Definition array_index (key : string) : option N :=
  match key with
  | EmptyString => None
  | String a t =>
      if JS.is_char "0" a && negb (String.eqb t EmptyString) then None
      else
        match digits_value key 0 with
        | Some n => if (n <? 4294967295)%N then Some n else None
        | None => None
        end
  end.

Fixpoint insert_index {A : Type} (n : N) (x : A) (l : list (N * A))
    : list (N * A) :=
  match l with
  | [] => [(n, x)]
  | (m, y) :: l' =>
      if (n <? m)%N then (n, x) :: l else (m, y) :: insert_index n x l'
  end.

Definition Object_entries {A : Type} (o : list (string * A))
    : list (string * A) :=
  let indexed :=
    fold_left
      (fun acc kv =>
         match array_index (fst kv) with
         | Some n => insert_index n kv acc
         | None => acc
         end) o [] in
  map snd indexed ++
  filter (fun kv => array_index (fst kv) = None) o.

(** One call of a group function, as [organizeData] made it. *)
Record group_call : Type := mkCall {
  call_target : string * string * string;
  call_variants : list string;
  call_state : group_state
}.

Record merge_state : Type := mkMerge {
  totalFiles : nat;
  duplicates : nat;
  target : target_dir;
  group_calls : list group_call
}.

(** [createDirectoryIfNotExists] followed by a group function. *)
Definition run_group (key : string * string * string)
    (run : gmap string string -> group_state) (variants : list string)
    (m : merge_state) : merge_state :=
  let result := run (default ∅ (target m !! key)) in
  mkMerge (totalFiles m + processedFiles result)%nat
          (duplicates m + duplicatesFound result)%nat
          (<[key := folder result]> (target m))
          (group_calls m ++ [mkCall key variants result]).

Definition process_group (qualType session : string)
    (sessionPath : session_dir) (group : string * list string)
    : M merge_state unit :=
  let '(baseSubject, subjectVariants) := group in
  if existsb isMathSubject subjectVariants
  then modify (run_group (qualType, session, "Mathematics")
                 (processMathSubjects sessionPath subjectVariants)
                 subjectVariants)
  else modify (run_group (qualType, session, baseSubject)
                 (processRegularSubjects sessionPath baseSubject
                    subjectVariants)
                 subjectVariants).

Definition process_session (qualType : string)
    (s : string * entry session_dir) : M merge_state unit :=
  match s with
  | (_, NotDir) => ret tt
  | (session, IsDir sessionPath) =>
      match group_subjects (map fst sessionPath) [] with
      | Throw e => throw e
      | Ok subjectGroups =>
          for_of (Object_entries subjectGroups) tt
            (fun _ => process_group qualType session sessionPath)
      end
  end.

Definition process_qualification (q : string * entry qual_dir)
    : M merge_state unit :=
  match q with
  | (_, NotDir) => ret tt
  | (qualType, IsDir sessions) =>
      for_of sessions tt (fun _ => process_session qualType)
  end.

(** [organizeData] on the raw tree [source]: the outcome, the totals it
    reports, the target tree and the calls it made. *)
Definition organizeData (source : source_dir) : res unit * merge_state :=
  for_of source tt (fun _ => process_qualification) (mkMerge 0 0 ∅ []).

(** ** Progress ledger ([ProgressTracker]) *)

(** qualification type, session, subject: the units, in order of arrival *)
Abbreviation unit_ledger :=
  (gmap string (gmap string (gmap string (list string)))).

Module Stats.
Record t : Type := mk {
  totalSessions : Z;
  totalSubjects : Z;
  totalUnits : Z;
  completedUnits : Z;
  failedUnits : Z;
  completedSessions : Z
}.
End Stats.

(** [this.progress] *)
Module Progress.
Record t : Type := mk {
  completed : unit_ledger;
  failed : unit_ledger;
  completedSessions : gmap string (list string);
  lastUpdate : option string;
  stats : Stats.t
}.
End Progress.

(** The ledger file as [JSON.parse] returns it.  Files of the earlier
    tracker have no [completedSessions], neither the map nor the counter. *)
Module Json.
Record t : Type := mk {
  completed : unit_ledger;
  failed : unit_ledger;
  completedSessions : option (gmap string (list string));
  lastUpdate : option string;
  totalSessions : Z;
  totalSubjects : Z;
  totalUnits : Z;
  completedUnits : Z;
  failedUnits : Z;
  stats_completedSessions : option Z
}.
End Json.

(** What [fs.readFile] and [JSON.parse] make of the ledger path: no file,
    a text that is not JSON, or a ledger document (an object whose
    [completed] and [failed] are objects of objects of arrays and whose
    [stats] is an object holding the five counters).  A file that holds
    another JSON value ([null], [{}], ...) is not among them: on such a value
    the methods of the tracker fail or go on according to its shape, which
    [Progress.t] does not describe. *)
Inductive file_state : Type :=
| NoFile
| Invalid (text : string)
| Document (d : Json.t).

(** [JSON.stringify(this.progress)] *)
Definition stringify (p : Progress.t) : Json.t :=
  let st := Progress.stats p in
  Json.mk (Progress.completed p) (Progress.failed p)
    (Some (Progress.completedSessions p)) (Progress.lastUpdate p)
    (Stats.totalSessions st) (Stats.totalSubjects st) (Stats.totalUnits st)
    (Stats.completedUnits st) (Stats.failedUnits st)
    (Some (Stats.completedSessions st)).

(** The value returned by [getSummary]; [progress] is the number in front
    of the percent sign. *)
Module Summary.
Record t : Type := mk {
  totalSessions : Z;
  totalSubjects : Z;
  totalUnits : Z;
  completedUnits : Z;
  failedUnits : Z;
  completedSessions : Z;
  progress : spec_float;
  lastUpdate : option string
}.
End Summary.

(** IEEE binary64, the numbers of JavaScript *)
Definition Number (z : Z) : spec_float := binary_normalize 53 1024 z 0 false.
Definition js_div : spec_float -> spec_float -> spec_float := SFdiv 53 1024.
Definition js_mul : spec_float -> spec_float -> spec_float := SFmul 53 1024.

(** [Math.round]: the nearest integer, a tie going up (a zero result is
    returned as [+0], which prints the same). *)
Definition Math_round (x : spec_float) : spec_float :=
  match x with
  | S754_finite s m e =>
      let n := if s then Z.neg m else Z.pos m in
      if 0 <=? e then x
      else Number ((2 * n + 2 ^ (- e)) / 2 ^ (1 - e))
  | _ => x
  end.

Module ProgressTracker.

Definition constructor : Progress.t :=
  Progress.mk ∅ ∅ ∅ None (Stats.mk 0 0 0 0 0 0).

Definition units_of (l : unit_ledger)
    (qualificationType session subject : string) : option (list string) :=
  match l !! qualificationType with
  | None => None
  | Some sessions =>
      match sessions !! session with
      | None => None
      | Some subjects => subjects !! subject
      end
  end.

Definition isCompleted (p : Progress.t)
    (qualificationType session subject unit : string) : bool :=
  match units_of (Progress.completed p) qualificationType session subject with
  | None => false
  | Some units => bool_decide (unit ∈ units)
  end.

Definition isSessionCompleted (p : Progress.t)
    (qualificationType session : string) : bool :=
  match Progress.completedSessions p !! qualificationType with
  | None => false
  | Some sessions => bool_decide (session ∈ sessions)
  end.

Definition markSessionAsCompleted (p : Progress.t)
    (qualificationType session : string) : Progress.t :=
  let sessions :=
    default [] (Progress.completedSessions p !! qualificationType) in
  let st := Progress.stats p in
  if bool_decide (session ∈ sessions)
  then Progress.mk (Progress.completed p) (Progress.failed p)
         (<[qualificationType := sessions]> (Progress.completedSessions p))
         (Progress.lastUpdate p) st
  else Progress.mk (Progress.completed p) (Progress.failed p)
         (<[qualificationType := sessions ++ [session]]>
            (Progress.completedSessions p))
         (Progress.lastUpdate p)
         (Stats.mk (Stats.totalSessions st) (Stats.totalSubjects st)
            (Stats.totalUnits st) (Stats.completedUnits st)
            (Stats.failedUnits st) (Stats.completedSessions st + 1)).

Definition hasFailed (p : Progress.t)
    (qualificationType session subject unit : string) : bool :=
  match units_of (Progress.failed p) qualificationType session subject with
  | None => false
  | Some units => bool_decide (unit ∈ units)
  end.

(** The three levels are created where they are missing, then [units]
    replaces the array of the subject. *)
Definition set_units (l : unit_ledger)
    (qualificationType session subject : string) (units : list string)
    : unit_ledger :=
  let sessions := default ∅ (l !! qualificationType) in
  let subjects := default ∅ (sessions !! session) in
  <[qualificationType := <[session := <[subject := units]> subjects]> sessions]> l.

Definition markAsCompleted (p : Progress.t)
    (qualificationType session subject unit : string) : Progress.t :=
  let units :=
    default []
      (units_of (Progress.completed p) qualificationType session subject) in
  let st := Progress.stats p in
  if bool_decide (unit ∈ units)
  then Progress.mk
         (set_units (Progress.completed p) qualificationType session subject
            units)
         (Progress.failed p) (Progress.completedSessions p)
         (Progress.lastUpdate p) st
  else Progress.mk
         (set_units (Progress.completed p) qualificationType session subject
            (units ++ [unit]))
         (Progress.failed p) (Progress.completedSessions p)
         (Progress.lastUpdate p)
         (Stats.mk (Stats.totalSessions st) (Stats.totalSubjects st)
            (Stats.totalUnits st) (Stats.completedUnits st + 1)
            (Stats.failedUnits st) (Stats.completedSessions st)).

Definition markAsFailed (p : Progress.t)
    (qualificationType session subject unit error : string) : Progress.t :=
  let units :=
    default []
      (units_of (Progress.failed p) qualificationType session subject) in
  let st := Progress.stats p in
  if bool_decide (unit ∈ units)
  then Progress.mk (Progress.completed p)
         (set_units (Progress.failed p) qualificationType session subject
            units)
         (Progress.completedSessions p) (Progress.lastUpdate p) st
  else Progress.mk (Progress.completed p)
         (set_units (Progress.failed p) qualificationType session subject
            (units ++ [unit]))
         (Progress.completedSessions p) (Progress.lastUpdate p)
         (Stats.mk (Stats.totalSessions st) (Stats.totalSubjects st)
            (Stats.totalUnits st) (Stats.completedUnits st)
            (Stats.failedUnits st + 1) (Stats.completedSessions st)).

Definition updateStats (p : Progress.t)
    (totalSessions totalSubjects totalUnits : Z) : Progress.t :=
  let st := Progress.stats p in
  Progress.mk (Progress.completed p) (Progress.failed p)
    (Progress.completedSessions p) (Progress.lastUpdate p)
    (Stats.mk totalSessions totalSubjects totalUnits
       (Stats.completedUnits st) (Stats.failedUnits st)
       (Stats.completedSessions st)).

Definition getSummary (p : Progress.t) : Summary.t :=
  let stats := Progress.stats p in
  Summary.mk (Stats.totalSessions stats) (Stats.totalSubjects stats)
    (Stats.totalUnits stats) (Stats.completedUnits stats)
    (Stats.failedUnits stats) (Stats.completedSessions stats)
    (if 0 <? Stats.totalUnits stats
     then Math_round
            (js_mul
               (js_div (Number (Stats.completedUnits stats))
                  (Number (Stats.totalUnits stats)))
               (Number 100))
     else Number 0)
    (Progress.lastUpdate p).

(** The assignment [this.progress = JSON.parse(data)] and the two
    compatibility steps of [initialize]. *)
Definition load (d : Json.t) : Progress.t :=
  Progress.mk (Json.completed d) (Json.failed d)
    (match Json.completedSessions d with
     | Some sessions => sessions
     | None => ∅
     end)
    (Json.lastUpdate d)
    (Stats.mk (Json.totalSessions d) (Json.totalSubjects d)
       (Json.totalUnits d) (Json.completedUnits d) (Json.failedUnits d)
       (match Json.stats_completedSessions d with
        | Some n => if n =? 0 then 0 else n
        | None => 0
        end)).

End ProgressTracker.

(** ** Orchestrator ([src/modules/scraper.js]) *)

Record row : Type := mkRow { RAW : Z; UMS : Z; GRADE : string }.

(** The value of [extractAllScoresData]: [{ error }] or [{ rows }]. *)
Inductive rawData : Type :=
| RawError (error : string)
| RawRows (rows : list row).

(** [data.sort((a, b) => b.UMS - a.UMS)]: descending and stable. *)
Fixpoint insert_row (x : row) (l : list row) : list row :=
  match l with
  | [] => [x]
  | y :: l' => if UMS y <? UMS x then x :: l else y :: insert_row x l'
  end.

Definition sort_rows (l : list row) : list row :=
  fold_left (fun sorted x => insert_row x sorted) l [].

Definition processData (raw : rawData) : list row :=
  match raw with
  | RawRows rows => sort_rows rows
  | RawError _ => []
  end.

(** The page-driving adapter, as far as the traversal observes it: what the
    site lists at each level and what selecting a label does.  A [Throw]
    is the error of the navigation function or of [page.evaluate]. *)
Record page : Type := mkPage {
  sessionsList : res (list string);
  (** [navigateToSession] and the subjects listed behind it *)
  subjectsOf : string -> res (list string);
  (** [selectSubject] and the units listed behind it *)
  unitsOf : string -> string -> res (list string);
  (** [selectUnit] and [hasTabsSection] *)
  tabsOf : string -> string -> string -> res bool;
  (** [selectAllScoresTab] and [extractAllScoresData] *)
  scoresOf : string -> string -> string -> res rawData
}.

(** The file [saveData] writes. *)
Record artifact : Type := mkArtifact {
  a_qualificationType : string;
  a_session : string;
  a_subject : string;
  a_unit : string;
  a_recordCount : nat;
  a_timestamp : string;
  a_data : list row
}.

(** What the run does to the page and to the data directory. *)
Inductive call : Type :=
| NavigateToSession (session : string)
| SelectSubject (session subject : string)
| SelectUnit (session subject unit : string)
| SelectAllScoresTab (session subject unit : string)
| ExtractAllScoresData (session subject unit : string)
| SaveData (file : artifact).


(** The state of a run: the tracker object, the ledger file, the clock
    ([date n] is the [n]-th value of [new Date().toISOString()]) and the
    calls made so far. *)
Record world : Type := mkWorld {
  tracker : Progress.t;
  ledger_file : file_state;
  date : nat -> string;
  ticks : nat;
  calls : list call
}.

Definition set_tracker (f : Progress.t -> Progress.t) (w : world) : world :=
  mkWorld (f (tracker w)) (ledger_file w) (date w) (ticks w) (calls w).

Definition add_call (c : call) (w : world) : world :=
  mkWorld (tracker w) (ledger_file w) (date w) (ticks w) (calls w ++ [c]).

Definition with_tracker (f : Progress.t -> Progress.t) : M world unit :=
  modify (set_tracker f).

Definition ask {A : Type} (f : Progress.t -> A) : M world A :=
  fun w => (Ok (f (tracker w)), w).

Definition log (c : call) : M world unit :=
  modify (add_call c).

(** [new Date().toISOString()] *)
Definition now : M world string :=
  fun w =>
    (Ok (date w (ticks w)),
     mkWorld (tracker w) (ledger_file w) (date w) (S (ticks w)) (calls w)).

Definition lift {A : Type} (r : res A) : M world A :=
  fun w => (r, w).

(** [this.progress.lastUpdate = new Date().toISOString()] *)
Definition stamp (p : Progress.t) (lastUpdate : string) : Progress.t :=
  Progress.mk (Progress.completed p) (Progress.failed p)
    (Progress.completedSessions p) (Some lastUpdate) (Progress.stats p).

(** [fs.writeFile] on the ledger path, as the run meets it: the outcome of
    the write that [save] makes behind the [n]-th reading of the clock,
    done or rejected with an error (the directory is missing, the file is
    read-only, the disk is full).  A rejected write leaves the file as it
    was. *)
Definition disk : Type := nat -> res unit.

(** The ledger path can be written throughout. *)
Definition writable : disk := fun _ => Ok tt.

(** [tracker.save()]: [lastUpdate] is assigned, then the file is written;
    the error of the write is thrown on. *)
Definition save (fs : disk) : M world unit :=
  let* w := get in
  let* lastUpdate := now in
  with_tracker (fun p => stamp p lastUpdate) ;;
  match fs (ticks w) with
  | Ok _ =>
      modify (fun w =>
        mkWorld (tracker w) (Document (stringify (tracker w))) (date w)
          (ticks w) (calls w))
  | Throw e => throw e
  end.

(** The state [tracker.save()] leaves when the write is done. *)
Definition saved (w : world) : world :=
  let p := stamp (tracker w) (date w (ticks w)) in
  mkWorld p (Document (stringify p)) (date w) (S (ticks w)) (calls w).

(** [tracker.initialize()]: a file that cannot be read or parsed leads to
    the [catch] branch, which saves the state the tracker has; nothing
    catches the error of that [save]. *)
Definition initialize (fs : disk) : M world unit :=
  let* w := get in
  match ledger_file w with
  | Document d => with_tracker (fun _ => ProgressTracker.load d)
  | NoFile | Invalid _ => save fs
  end.

Definition QUALIFICATION_TYPE : string := "International A Level".

Definition FILTER_SUBJECTS : list string :=
  ["Physics"; "Chemistry"; "Biology"; "Mathematics"; "Further Mathematics";
   "Pure Mathematics"; "Accounting"; "Economics"; "Business"].

Definition shouldProcessSubject (subject : string) : bool :=
  if (length FILTER_SUBJECTS =? 0)%nat then true
  else
    existsb
      (fun filterTerm =>
         JS.includes (JS.toLowerCase filterTerm) (JS.toLowerCase subject))
      FILTER_SUBJECTS.

(** [/^(January|June|October)\s+\d{4}$/] *)
Definition session_re : JS.regex :=
  JS.Cat (JS.Alt (JS.lit "January") (JS.Alt (JS.lit "June") (JS.lit "October")))
 (JS.Cat (JS.Cls JS.is_space)
 (JS.Cat (JS.Star JS.is_space)
 (JS.Cat (JS.Cls JS.is_digit)
 (JS.Cat (JS.Cls JS.is_digit)
 (JS.Cat (JS.Cls JS.is_digit)
 (JS.Cat (JS.Cls JS.is_digit) JS.Eos)))))).

Definition saveData (processedData : list row)
    (qualType session subject unit : string) : M world () :=
  let* timestamp := now in
  log (SaveData (mkArtifact qualType session subject unit
                   (length processedData) timestamp processedData)).

(** [true] after the unit was saved and marked completed, [false] after it
    was marked failed; an error of the page is thrown on. *)
Definition processUnit (fs : disk) (site : page)
    (qualType session subject unit : string)
    : M world bool :=
  log (SelectUnit session subject unit) ;;
  let* hasTabsSection := lift (tabsOf site session subject unit) in
  if negb hasTabsSection
  then
    with_tracker (fun p =>
      ProgressTracker.markAsFailed p qualType session subject unit
        "No tabs section found") ;;
    save fs ;;
    ret false
  else
    log (SelectAllScoresTab session subject unit) ;;
    log (ExtractAllScoresData session subject unit) ;;
    let* rawData := lift (scoresOf site session subject unit) in
    let processedData := processData rawData in
    if (length processedData =? 0)%nat
    then
      with_tracker (fun p =>
        ProgressTracker.markAsFailed p qualType session subject unit
          "No data extracted") ;;
      save fs ;;
      ret false
    else
      saveData processedData qualType session subject unit ;;
      with_tracker (fun p =>
        ProgressTracker.markAsCompleted p qualType session subject unit) ;;
      save fs ;;
      ret true.

(** The body of the loop over the units of a subject; [processedUnits] is
    the local counter. *)
Definition process_unit_step (fs : disk) (site : page)
    (qualType session subject : string) (processedUnits : Z) (unit : string)
    : M world Z :=
  try_catch
    (let* done :=
       ask (fun p => ProgressTracker.isCompleted p qualType session subject unit) in
     if done then ret (processedUnits + 1)
     else
       let* failed :=
         ask (fun p => ProgressTracker.hasFailed p qualType session subject unit) in
       if failed then ret (processedUnits + 1)
       else
         let* success := processUnit fs site qualType session subject unit in
         if success then ret (processedUnits + 1) else ret processedUnits)
    (fun message =>
       with_tracker (fun p =>
         ProgressTracker.markAsFailed p qualType session subject unit message) ;;
       save fs ;;
       ret (processedUnits + 1)).

(** The result is [(totalUnits, processedUnits)]. *)
Definition processSubject (fs : disk) (site : page)
    (qualType session subject : string)
    : M world (Z * Z) :=
  log (SelectSubject session subject) ;;
  let* units := lift (unitsOf site session subject) in
  let* currentStats := ask ProgressTracker.getSummary in
  with_tracker (fun p =>
    ProgressTracker.updateStats p (Summary.totalSessions currentStats)
      (Summary.totalSubjects currentStats)
      (Summary.totalUnits currentStats + Z.of_nat (length units))) ;;
  save fs ;;
  if (length units =? 0)%nat then ret (0, 0)
  else
    let* processedUnits :=
      for_of units 0 (process_unit_step fs site qualType session subject) in
    ret (Z.of_nat (length units), processedUnits).

(** The body of the loop over the subjects of a session; the accumulator is
    [(sessionTotalUnits, sessionProcessedUnits)]. *)
Definition process_subject_step (fs : disk) (site : page) (session : string)
    (counts : Z * Z) (subject : string) : M world (Z * Z) :=
  try_catch
    (let* subjectResult :=
       processSubject fs site QUALIFICATION_TYPE session subject in
     ret (fst counts + fst subjectResult, snd counts + snd subjectResult))
    (fun _ => ret counts).

(** The body of the loop over the sessions; the accumulator is the local
    [totalSubjects] (the local [totalUnits] stays 0 throughout). *)
Definition process_session_step (fs : disk) (site : page)
    (validSessions : list string)
    (totalSubjects : Z) (session : string) : M world Z :=
  let* done :=
    ask (fun p =>
      ProgressTracker.isSessionCompleted p QUALIFICATION_TYPE session) in
  if done then ret totalSubjects
  else
    try_catch
      (log (NavigateToSession session) ;;
       let* subjects := lift (subjectsOf site session) in
       let filteredSubjects := List.filter shouldProcessSubject subjects in
       let totalSubjects :=
         totalSubjects + Z.of_nat (length filteredSubjects) in
       with_tracker (fun p =>
         ProgressTracker.updateStats p (Z.of_nat (length validSessions))
           totalSubjects 0) ;;
       save fs ;;
       let* counts :=
         for_of filteredSubjects (0, 0)
           (process_subject_step fs site session) in
       let '(sessionTotalUnits, sessionProcessedUnits) := counts in
       (if (0 <? sessionTotalUnits) &&
           (sessionProcessedUnits =? sessionTotalUnits)
        then
          with_tracker (fun p =>
            ProgressTracker.markSessionAsCompleted p QUALIFICATION_TYPE
              session) ;;
          save fs
        else ret tt) ;;
       ret totalSubjects)
      (fun _ => ret totalSubjects).

(** [scrapeSeries] behind [new ProgressTracker(...)] and
    [tracker.initialize()]: the listing of the sessions, the traversal and
    the summary. *)
Definition scrape_sessions (fs : disk) (site : page) : M world Summary.t :=
  let* sessionsList := lift (sessionsList site) in
  let validSessions :=
    List.filter (JS.test_anchored session_re) sessionsList in
  if (length validSessions =? 0)%nat
  then throw "No valid exam sessions found"
  else
    with_tracker (fun p =>
      ProgressTracker.updateStats p (Z.of_nat (length validSessions)) 0 0) ;;
    save fs ;;
    for_of validSessions 0 (process_session_step fs site validSessions) ;;
    save fs ;;
    ask ProgressTracker.getSummary.

(** [scrapeSeries]: the summary it prints, or the error it throws. *)
Definition scrapeSeries (fs : disk) (site : page) : M world Summary.t :=
  with_tracker (fun _ => ProgressTracker.constructor) ;;
  initialize fs ;;
  scrape_sessions fs site.

(** A run on the ledger file [file], with the clock [date] read from
    [ticks] on. *)
Definition start (file : file_state) (date : nat -> string) (ticks : nat)
    : world :=
  mkWorld ProgressTracker.constructor file date ticks [].

(** ** Specification-level notions *)

(** The language of a regular expression: [matches r w rest] says that [r]
    matches the word [w] when [rest] follows it ([rest] matters to [$]
    only).  This is the pattern as a set of words, with no order of
    preference among the matches. *)
Inductive matches : JS.regex -> string -> string -> Prop :=
| matches_cls p a rest :
    p a = true -> matches (JS.Cls p) (String a EmptyString) rest
| matches_cat r1 r2 w1 w2 rest :
    matches r1 w1 (w2 +:+ rest) -> matches r2 w2 rest ->
    matches (JS.Cat r1 r2) (w1 +:+ w2) rest
| matches_alt_l r1 r2 w rest :
    matches r1 w rest -> matches (JS.Alt r1 r2) w rest
| matches_alt_r r1 r2 w rest :
    matches r2 w rest -> matches (JS.Alt r1 r2) w rest
| matches_opt_some r w rest :
    matches r w rest -> matches (JS.Opt r) w rest
| matches_opt_none r rest : matches (JS.Opt r) EmptyString rest
| matches_star_nil p rest : matches (JS.Star p) EmptyString rest
| matches_star_cons p a w rest :
    p a = true -> matches (JS.Star p) w rest ->
    matches (JS.Star p) (String a w) rest
| matches_eos : matches JS.Eos EmptyString EmptyString
| matches_empty rest : matches JS.Empty EmptyString rest.

(** [\(\d{4}\)]: a parenthesized 4-digit year, the blanks around it apart *)
Definition year_token_re : JS.regex :=
  JS.Cat (JS.Cls (JS.is_char "("))
 (JS.Cat (JS.Cls JS.is_digit)
 (JS.Cat (JS.Cls JS.is_digit)
 (JS.Cat (JS.Cls JS.is_digit)
 (JS.Cat (JS.Cls JS.is_digit) (JS.Cls (JS.is_char ")")))))).

(** The name contains a year token somewhere. *)
Fixpoint has_year_token (s : string) : bool :=
  JS.test_anchored year_token_re s ||
  match s with
  | EmptyString => false
  | String _ t => has_year_token t
  end.

(** The name consists of underscores only. *)
Fixpoint all_underscores (s : string) : bool :=
  match s with
  | EmptyString => true
  | String a t => JS.is_char "_" a && all_underscores t
  end.

(** The name without its trailing run of underscores, by recursion on the
    name: what [replace(/_+$/, "")] is specified to return. *)
Fixpoint strip_underscores (s : string) : string :=
  match s with
  | EmptyString => EmptyString
  | String a t =>
      if JS.is_char "_" a && all_underscores t then EmptyString
      else String a (strip_underscores t)
  end.


(** The percentage as the words [round(100 * completedUnits / totalUnits)]
    read: the product first, in binary64 with [Math.round]; and over the
    rationals, a tie going up. *)
Definition percent_product_first (completedUnits totalUnits : Z) : spec_float :=
  Math_round
    (js_div (js_mul (Number 100) (Number completedUnits)) (Number totalUnits)).

Definition percent_exact (completedUnits totalUnits : Z) : Z :=
  (200 * completedUnits + totalUnits) / (2 * totalUnits).

(** ** Example inputs *)

Definition example_rows : list row :=
  [mkRow 10 20 "E"; mkRow 40 80 "A"; mkRow 30 60 "C"].

Definition example_date (n : nat) : string := "2024-01-01T00:00:00.000Z".

(** One session, one subject, two units; every unit has a score table. *)
Definition site_june : page :=
  mkPage (Ok ["June 2019"])
    (fun _ => Ok ["Physics"])
    (fun _ _ => Ok ["WPH01"; "WPH02"])
    (fun _ _ _ => Ok true)
    (fun _ _ _ => Ok (RawRows example_rows)).

(** The same site after a further session with one unit was published. *)
Definition site_june_january : page :=
  mkPage (Ok ["June 2019"; "January 2020"])
    (fun _ => Ok ["Physics"])
    (fun session _ =>
       if String.eqb session "June 2019" then Ok ["WPH01"; "WPH02"]
       else Ok ["WPH01"])
    (fun _ _ _ => Ok true)
    (fun _ _ _ => Ok (RawRows example_rows)).

(** One session, one subject, one unit, whose page shows no tabs. *)
Definition site_no_tabs : page :=
  mkPage (Ok ["June 2019"])
    (fun _ => Ok ["Physics"])
    (fun _ _ => Ok ["WPH01"])
    (fun _ _ _ => Ok false)
    (fun _ _ _ => Ok (RawRows example_rows)).

(** The session folder of the math consolidation scenario. *)
Definition math_session (file1 file2 file3 : string) : session_dir :=
  [("Mathematics_(2018)", IsDir [file1]);
   ("Further_Mathematics", IsDir [file2]);
   ("Pure_Mathematics_(2015)", IsDir [file3])].

Definition math_source (sessionPath : session_dir) : source_dir :=
  [("International_A_Level", IsDir [("June_2019", IsDir sessionPath)])].

Definition math_folder (name : string) : string * string * string :=
  ("International_A_Level", "June_2019", name).

(** The unit identifiers of the files a call copied, in order. *)
Definition codes_of (g : group_state) : list string :=
  omap (fun c => parseUnitCode (snd c)) (copied g).

(** The invariant of the loops of a group function. *)
Record group_inv (g : group_state) : Prop := mkGroupInv {
  inv_parsed : Forall (fun c => is_Some (parseUnitCode (snd c))) (copied g);
  inv_nodup : NoDup (codes_of g);
  inv_codes : processedUnitCodes g = list_to_set (codes_of g);
  inv_count : processedFiles g = (duplicatesFound g + length (copied g))%nat;
  inv_folder :
    forall subject file,
      (subject, file) ∈ copied g -> folder g !! file = Some subject
}.


(** A target folder holds at most one file per unit identifier. *)
Definition one_file_per_code (files : gmap string string) : Prop :=
  forall file1 file2 unitCode,
    is_Some (files !! file1) -> is_Some (files !! file2) ->
    parseUnitCode file1 = Some unitCode ->
    parseUnitCode file2 = Some unitCode ->
    file1 = file2.

(** Two math variants whose files of one unit carry different titles. *)
Definition math_pair : session_dir :=
  [("Mathematics_(2018)", IsDir ["WMA01-01_Core_C12.json"]);
   ("Further_Mathematics", IsDir ["WMA01-01_C12.json"])].

(** The ledger has decided the unit: it is in the completed or in the
    failed set. *)
Definition decided (p : Progress.t) (session subject unit : string) : bool :=
  ProgressTracker.isCompleted p QUALIFICATION_TYPE session subject unit ||
  ProgressTracker.hasFailed p QUALIFICATION_TYPE session subject unit.

Definition session_flagged (p : Progress.t) (session : string) : bool :=
  ProgressTracker.isSessionCompleted p QUALIFICATION_TYPE session.

(** Every unit the site lists under the session, through the subjects the
    filter retains, is decided. *)
Definition session_accounted (site : page) (p : Progress.t)
    (session : string) : Prop :=
  forall subjects subject units unit,
    subjectsOf site session = Ok subjects ->
    subject ∈ List.filter shouldProcessSubject subjects ->
    unitsOf site session subject = Ok units ->
    unit ∈ units ->
    decided p session subject unit = true.

(** The ledger [p'] holds what [p] holds: a unit or a session marked in
    [p] is marked in [p']. *)
Definition grows (p p' : Progress.t) : Prop :=
  (forall q s subject u,
     ProgressTracker.isCompleted p q s subject u = true ->
     ProgressTracker.isCompleted p' q s subject u = true) /\
  (forall q s subject u,
     ProgressTracker.hasFailed p q s subject u = true ->
     ProgressTracker.hasFailed p' q s subject u = true) /\
  (forall q s,
     ProgressTracker.isSessionCompleted p q s = true ->
     ProgressTracker.isSessionCompleted p' q s = true).


(** The step keeps the counter [totalSessions] at [n]. *)
Definition keeps_total (n : Z) (w w' : world) : Prop :=
  Stats.totalSessions (Progress.stats (tracker w)) = n ->
  Stats.totalSessions (Progress.stats (tracker w')) = n.

(** A relation between the state before and the state after holds of a
    computation, whatever it returns. *)
Definition preserves {A : Type} (R : world -> world -> Prop)
    (m : M world A) : Prop :=
  forall w, R w (snd (m w)).

Definition never_throws {A : Type} (m : M world A) : Prop :=
  forall w, exists a, fst (m w) = Ok a.

Definition world_grows (w w' : world) : Prop :=
  grows (tracker w) (tracker w').

(** A first run on [site_june] with no ledger file, and a second run on
    the ledger file the first one left. *)
Definition june_run : res Summary.t * world :=
  scrapeSeries writable site_june (start NoFile example_date 0).


(** The same for the site whose only unit shows no tabs. *)
Definition no_tabs_run : res Summary.t * world :=
  scrapeSeries writable site_no_tabs (start NoFile example_date 0).

Definition no_tabs_rerun : res Summary.t * world :=
  scrapeSeries writable site_no_tabs
    (start (ledger_file (snd no_tabs_run)) example_date 0).


(** The step flagged no session. *)
Definition same_flags (w w' : world) : Prop :=
  Progress.completedSessions (tracker w')
  = Progress.completedSessions (tracker w).

(** ** File names ([saveData]) and the command line ([index.js]) *)

(** [s.replace(/r/g, replacement)]: at each index the pattern is tried; a
    match is replaced and the scan goes on behind it, an empty match
    is replaced in front of the character that is kept, and where there is
    no match the character is kept.  The scan ends with the attempt at the
    end of the string, so [S (String.length s)] steps are enough. *)
Fixpoint replace_all_fuel (fuel : nat) (r : JS.regex) (replacement s : string)
    : string :=
  match fuel with
  | O => s
  | S fuel' =>
      let keep :=
        match s with
        | EmptyString => EmptyString
        | String a t => String a (replace_all_fuel fuel' r replacement t)
        end in
      match JS.match_here r s with
      | Some rest =>
          if (String.length rest <? String.length s)%nat
          then replacement +:+ replace_all_fuel fuel' r replacement rest
          else replacement +:+ keep
      | None => keep
      end
  end.

(** [s.replace(/r/g, replacement)] *)
Definition replace_all (r : JS.regex) (replacement s : string) : string :=
  replace_all_fuel (S (String.length s)) r replacement s.

(** The class of the characters [/ \ : * ? < > |] and of the double
    quote, by code unit. *)
Definition is_forbidden (a : ascii) : bool :=
  existsb (N.eqb (JS.code a)) [47; 92; 58; 42; 63; 34; 60; 62; 124]%N.

(** [/\s+/] *)
Definition blanks_re : JS.regex :=
  JS.Cat (JS.Cls JS.is_space) (JS.Star JS.is_space).

(** [cleanName] of [saveData] *)
Definition cleanName (str : string) : string :=
  replace_all blanks_re "_" (replace_all (JS.Cls is_forbidden) "-" str).

(** Every character of the string satisfies [p]. *)
Fixpoint string_forall (p : ascii -> bool) (s : string) : bool :=
  match s with
  | EmptyString => true
  | String a t => p a && string_forall p t
  end.

(** A character [cleanName] leaves as it is. *)
Definition clean_char (a : ascii) : bool :=
  negb (is_forbidden a) && negb (JS.is_space a).

(** The string behind its leading characters that satisfy [p]. *)
Fixpoint drop_while (p : ascii -> bool) (s : string) : string :=
  match s with
  | EmptyString => EmptyString
  | String a t => if p a then drop_while p t else s
  end.

(** [l.findIndex(p)]: the index of the first element that satisfies [p];
    [None] stands for -1. *)
Fixpoint findIndex {A : Type} (p : A -> bool) (l : list A) : option nat :=
  match l with
  | [] => None
  | x :: l' => if p x then Some 0%nat else S <$> findIndex p l'
  end.

(** [s.split(sep)] for a separator of one character *)
Fixpoint split_on (sep : ascii) (s : string) : list string :=
  match s with
  | EmptyString => [EmptyString]
  | String a t =>
      if Ascii.eqb a sep then EmptyString :: split_on sep t
      else
        match split_on sep t with
        | first :: rest => String a first :: rest
        | [] => [String a EmptyString]
        end
  end.

(** [s.trim()]: the white space of code units below 256 is that of [\s]. *)
Definition trimStart (s : string) : string := drop_while JS.is_space s.

(** White space is dropped at the start, and at the start of the reversed
    string. *)
Definition trim (s : string) : string :=
  JS.rev_acc (trimStart (JS.rev_acc (trimStart s) EmptyString)) EmptyString.

(** [null], or the subject keywords behind the first [--subjects]. *)
Definition parseSubjectFilter (argv : list string) : option (list string) :=
  match findIndex (String.eqb "--subjects") argv with
  | Some subjectsIndex =>
      if (subjectsIndex <? length argv - 1)%nat
      then
        match argv !! (subjectsIndex + 1)%nat with
        | Some subjectsArg =>
            let subjects :=
              List.filter (fun s => (0 <? String.length s)%nat)
                (map trim (split_on "," subjectsArg)) in
            if (0 <? length subjects)%nat then Some subjects else None
        | None => None
        end
      else None
  | None => None
  end.

(** [{ isTest: false }], or the session, the subject and the unit behind
    the first [--test]. *)
Definition checkForTestMode (argv : list string)
    : option (string * string * string) :=
  match findIndex (String.eqb "--test") argv with
  | Some testIndex =>
      if (testIndex <? length argv - 3)%nat
      then
        match argv !! (testIndex + 1)%nat, argv !! (testIndex + 2)%nat,
              argv !! (testIndex + 3)%nat with
        | Some session, Some subject, Some unit =>
            Some (session, subject, unit)
        | _, _, _ => None
        end
      else None
  | None => None
  end.

(** [i] is the index of the first argument equal to [flag]. *)
Definition first_flag (flag : string) (argv : list string) (i : nat) : Prop :=
  argv !! i = Some flag /\
  forall j, (j < i)%nat -> argv !! j <> Some flag.

(** ** Further notions of the specification *)

(** The rows stand by descending UMS. *)
Definition descending (l : list row) : Prop :=
  StronglySorted (fun a b => UMS b <= UMS a) l.

(** The objects of the ledger are read as maps.  They behave so on the
    keys that are not names of properties a plain object inherits from
    [Object.prototype] (under such a key a lookup finds the inherited
    property). *)
Definition own_keys (keys : list string) : bool :=
  forallb (fun k => negb (bool_decide (k ∈ object_prototype_keys))) keys.

(** The sum of [f] over the values of a map. *)
Definition sum_map {A : Type} (f : A -> Z) (m : gmap string A) : Z :=
  map_fold (fun _ a acc => f a + acc) 0 m.

(** The number of units a ledger of units holds. *)
Definition ledger_size (l : unit_ledger) : Z :=
  sum_map
    (sum_map (sum_map (fun units : list string => Z.of_nat (length units))))
    l.

(** No array of the ledger holds a unit twice. *)
Definition ledger_nodup (l : unit_ledger) : Prop :=
  forall q s subject units,
    ProgressTracker.units_of l q s subject = Some units -> NoDup units.

(** The counters of [stats] are the sizes of the three sets. *)
Record counters_agree (p : Progress.t) : Prop := mkCountersAgree {
  agree_completed :
    Stats.completedUnits (Progress.stats p)
    = ledger_size (Progress.completed p);
  agree_failed :
    Stats.failedUnits (Progress.stats p) = ledger_size (Progress.failed p);
  agree_sessions :
    Stats.completedSessions (Progress.stats p)
    = sum_map (fun sessions : list string => Z.of_nat (length sessions))
        (Progress.completedSessions p);
  agree_completed_nodup : ledger_nodup (Progress.completed p);
  agree_failed_nodup : ledger_nodup (Progress.failed p);
  agree_sessions_nodup :
    forall q sessions,
      Progress.completedSessions p !! q = Some sessions -> NoDup sessions
}.

(** The step keeps the counters in agreement with the sets. *)
Definition keeps_agreement (w w' : world) : Prop :=
  counters_agree (tracker w) -> counters_agree (tracker w').

(** The run wrote the score table of the unit: a file with the metadata of
    the unit, at least one row, the rows by descending UMS and their number
    as [recordCount]. *)
Definition saved_artifact (w : world) (q s subject u : string) : Prop :=
  exists a,
    SaveData a ∈ calls w /\
    (a_qualificationType a, a_session a, a_subject a, a_unit a)
      = (q, s, subject, u) /\
    a_data a <> [] /\
    a_recordCount a = length (a_data a) /\
    descending (a_data a).

(** The step keeps the calls made so far, and completes no unit without
    having saved its table. *)
Definition completes_what_it_saved (w w' : world) : Prop :=
  (forall c, c ∈ calls w -> c ∈ calls w') /\
  forall q s subject u,
    ProgressTracker.isCompleted (tracker w') q s subject u = true ->
    ProgressTracker.isCompleted (tracker w) q s subject u = true \/
    saved_artifact w' q s subject u.

(** The units the site lists under the subjects, a subject whose listing
    throws counting for none. *)
Definition units_listed (site : page) (session : string)
    (subjects : list string) : Z :=
  foldr
    (fun subject n =>
       match unitsOf site session subject with
       | Ok units => Z.of_nat (length units)
       | Throw _ => 0
       end + n) 0 subjects.

(** The step leaves the three totals of [stats] as they were. *)
Definition same_totals (w w' : world) : Prop :=
  Stats.totalSessions (Progress.stats (tracker w'))
    = Stats.totalSessions (Progress.stats (tracker w)) /\
  Stats.totalSubjects (Progress.stats (tracker w'))
    = Stats.totalSubjects (Progress.stats (tracker w)) /\
  Stats.totalUnits (Progress.stats (tracker w'))
    = Stats.totalUnits (Progress.stats (tracker w)).

(** No unit is held both as completed and as failed. *)
Definition sets_disjoint (p : Progress.t) : Prop :=
  forall q s subject u,
    ProgressTracker.isCompleted p q s subject u = true ->
    ProgressTracker.hasFailed p q s subject u = false.

(** The step keeps the two sets disjoint. *)
Definition keeps_disjoint (w w' : world) : Prop :=
  sets_disjoint (tracker w) -> sets_disjoint (tracker w').

(** The units whose tables the calls saved. *)
Definition saved_units (l : list call)
    : list (string * string * string * string) :=
  omap
    (fun c =>
       match c with
       | SaveData a =>
           Some (a_qualificationType a, a_session a, a_subject a, a_unit a)
       | _ => None
       end) l.

(** The step keeps the ledger; the tables it saved are those of different
    units, which the ledger did not hold before the step and holds as
    completed after it. *)
Definition saves_once (w w' : world) : Prop :=
  grows (tracker w) (tracker w') /\
  exists new,
    calls w' = calls w ++ new /\
    NoDup (saved_units new) /\
    forall q s subject u,
      (q, s, subject, u) ∈ saved_units new ->
      ProgressTracker.isCompleted (tracker w) q s subject u = false /\
      ProgressTracker.hasFailed (tracker w) q s subject u = false /\
      ProgressTracker.isCompleted (tracker w') q s subject u = true.

(** The unit code under which the loops of a group function count a file:
    the file name ends in [.json] and a code is parsed from it. *)
Definition counted_code (file : string) : option string :=
  if JS.endsWith ".json" file then parseUnitCode file else None.


(** [x] is the first file of [l] that counts under the unit code [c]. *)
Inductive first_of_code (c : string) (x : string * string)
    : list (string * string) -> Prop :=
| first_here l : counted_code (snd x) = Some c -> first_of_code c x (x :: l)
| first_later y l :
    counted_code (snd y) <> Some c -> first_of_code c x l ->
    first_of_code c x (y :: l).


(** The subject folders of the session that share the base name of
    [subject], in the order of the listing: the group of [subject]. *)
Definition same_group (subject : string) (sessionPath : session_dir)
    : list string :=
  List.filter
    (fun v => String.eqb (getBaseSubjectName v) (getBaseSubjectName subject))
    (map fst sessionPath).

(** The folder a raw subject folder is merged into: [Mathematics] when a
    folder of its group has an exact math name, the base name otherwise. *)
Definition target_folder (subject : string) (sessionPath : session_dir)
    : string :=
  if existsb isMathSubject (same_group subject sessionPath)
  then "Mathematics"
  else getBaseSubjectName subject.


(** No subject folder of the tree has a base name that [subjectGroups]
    inherits from [Object.prototype]. *)
Definition subject_names_ok (source : source_dir) : Prop :=
  forall qualType sessions session sessionPath subject,
    (qualType, IsDir sessions) ∈ source ->
    (session, IsDir sessionPath) ∈ sessions ->
    subject ∈ map fst sessionPath ->
    getBaseSubjectName subject ∉ object_prototype_keys.

(** [subjectGroups[baseName]] *)
Fixpoint group_lookup (baseName : string)
    (groups : list (string * list string)) : option (list string) :=
  match groups with
  | [] => None
  | (b, vs) :: groups' =>
      if String.eqb b baseName then Some vs else group_lookup baseName groups'
  end.



(** The file [file] of the target folder [key], copied from the raw
    subject folder [subject], is a file of that folder in the raw tree,
    under the qualification and the session of [key]; it counts under a
    unit code, and [key] is the folder [subject] is merged into. *)
Definition comes_from (source : source_dir)
    (key : string * string * string) (file subject : string) : Prop :=
  exists sessions sessionPath files,
    (key.1.1, IsDir sessions) ∈ source /\
    (key.1.2, IsDir sessionPath) ∈ sessions /\
    subject ∈ map fst sessionPath /\
    readdir subject sessionPath = Some files /\
    file ∈ files /\
    is_Some (counted_code file) /\
    key.2 = target_folder subject sessionPath.

(** Every file of the target tree comes from the raw tree. *)
Definition target_from (source : source_dir) (m : merge_state) : Prop :=
  forall key files file subject,
    target m !! key = Some files -> files !! file = Some subject ->
    comes_from source key file subject.






(** The pattern holds no [$]. *)
Fixpoint no_eos (r : JS.regex) : bool :=
  match r with
  | JS.Cat r1 r2 | JS.Alt r1 r2 => no_eos r1 && no_eos r2
  | JS.Opt r1 => no_eos r1
  | JS.Eos => false
  | JS.Cls _ | JS.Star _ | JS.Empty => true
  end.

(** A character of a bare subject name: none that [cleanName] replaces,
    and no opening parenthesis. *)
Definition bare_char (a : ascii) : bool :=
  clean_char a && negb (JS.is_char "(" a).




(** * Properties *)

(** ** Strings *)

Lemma string_app_nil_l (s : string) : EmptyString +:+ s = s.
Proof. reflexivity. Qed.

Lemma string_app_cons (a : ascii) (s t : string) :
  String a s +:+ t = String a (s +:+ t).
Proof. reflexivity. Qed.

Lemma string_app_nil_r (s : string) : s +:+ EmptyString = s.
Proof. induction s as [|a s IH]; [reflexivity|]. now rewrite string_app_cons, IH. Qed.

Lemma string_app_assoc (s t u : string) : (s +:+ t) +:+ u = s +:+ (t +:+ u).
Proof.
  induction s as [|a s IH]; [reflexivity|]. now rewrite !string_app_cons, IH.
Qed.

Lemma string_length_app (s t : string) :
  String.length (s +:+ t) = (String.length s + String.length t)%nat.
Proof.
  induction s as [|a s IH]; [reflexivity|].
  rewrite string_app_cons. simpl. now rewrite IH.
Qed.

Lemma string_take_app (w rest : string) :
  JS.take (String.length w) (w +:+ rest) = w.
Proof.
  induction w as [|a w IH]; [now destruct rest|].
  rewrite string_app_cons. simpl. now rewrite IH.
Qed.

(** ** The matcher against the language of the pattern *)

Ltac split3 := split; [try reflexivity | split].

(** A result of the matcher comes from a word of the language at the start
    of the subject, behind which the continuation gave that result. *)
Lemma star_k_sound p s k x :
  JS.star_k p s k = Some x ->
  exists w rest, s = w +:+ rest /\ matches (JS.Star p) w rest /\ k rest = Some x.
Proof.
  induction s as [|a t IH]; simpl; intros H.
  - exists EmptyString, EmptyString. split3; [constructor | exact H].
  - destruct (p a) eqn:Hp.
    + destruct (JS.star_k p t k) as [r|] eqn:Ht.
      * injection H as <-.
        destruct (IH eq_refl) as (w & rest & -> & Hw & Hk).
        exists (String a w), rest. split3; [now constructor | exact Hk].
      * exists EmptyString, (String a t). split3; [constructor | exact H].
    + exists EmptyString, (String a t). split3; [constructor | exact H].
Qed.

Lemma rmatch_sound r : forall s k x,
  JS.rmatch r s k = Some x ->
  exists w rest, s = w +:+ rest /\ matches r w rest /\ k rest = Some x.
Proof.
  induction r as [p|r1 IH1 r2 IH2|r1 IH1 r2 IH2|r1 IH1|p| |]; simpl; intros s k x H.
  - destruct s as [|a t]; [discriminate|].
    destruct (p a) eqn:Hp; [|discriminate].
    exists (String a EmptyString), t. split3; [now constructor | exact H].
  - apply IH1 in H as (w1 & rest1 & -> & H1 & H).
    apply IH2 in H as (w2 & rest & -> & H2 & H).
    exists (w1 +:+ w2), rest. rewrite string_app_assoc.
    split3; [now constructor | exact H].
  - destruct (JS.rmatch r1 s k) as [y|] eqn:Hl.
    + injection H as <-. apply IH1 in Hl as (w & rest & -> & Hw & Hk).
      exists w, rest. split3; [now apply matches_alt_l | exact Hk].
    + apply IH2 in H as (w & rest & -> & Hw & Hk).
      exists w, rest. split3; [now apply matches_alt_r | exact Hk].
  - destruct (JS.rmatch r1 s k) as [y|] eqn:Hl.
    + injection H as <-. apply IH1 in Hl as (w & rest & -> & Hw & Hk).
      exists w, rest. split3; [now apply matches_opt_some | exact Hk].
    + exists EmptyString, s. split3; [apply matches_opt_none | exact H].
  - now apply star_k_sound.
  - destruct s; [|discriminate].
    exists EmptyString, EmptyString. split3; [constructor | exact H].
  - exists EmptyString, s. split3; [constructor | exact H].
Qed.

(** Where a word of the language stands at the start of the subject and
    the continuation accepts what follows it, the matcher succeeds. *)
Lemma rmatch_complete r w rest :
  matches r w rest ->
  forall k, is_Some (k rest) -> is_Some (JS.rmatch r (w +:+ rest) k).
Proof.
  induction 1 as [p a rest Hp|r1 r2 w1 w2 rest _ IH1 _ IH2|r1 r2 w rest _ IH
                 |r1 r2 w rest _ IH|r w rest _ IH|r rest|p rest
                 |p a w rest Hp _ IH| |rest]; intros k Hk;
    rewrite ?string_app_nil_l, ?string_app_cons; simpl.
  - now rewrite Hp.
  - rewrite string_app_assoc. apply IH1. now apply IH2.
  - destruct (JS.rmatch r1 (w +:+ rest) k) eqn:E; [eauto|].
    specialize (IH k Hk). rewrite E in IH. now destruct IH.
  - destruct (JS.rmatch r1 (w +:+ rest) k) eqn:E; [eauto|]. now apply IH.
  - destruct (JS.rmatch r (w +:+ rest) k) eqn:E; [eauto|].
    specialize (IH k Hk). rewrite E in IH. now destruct IH.
  - destruct (JS.rmatch r rest k) eqn:E; [eauto|]. exact Hk.
  - destruct rest as [|a t]; simpl; [exact Hk|].
    destruct (p a); [|exact Hk].
    destruct (JS.star_k p t k); [eauto | exact Hk].
  - rewrite Hp.
    specialize (IH k Hk). simpl in IH.
    destruct (JS.star_k p (w +:+ rest) k); [eauto | now destruct IH].
  - exact Hk.
  - exact Hk.
Qed.

Lemma match_here_sound r s rest :
  JS.match_here r s = Some rest ->
  exists w, s = w +:+ rest /\ matches r w rest.
Proof.
  intros H. apply rmatch_sound in H as (w & rest' & -> & Hw & [= ->]). eauto.
Qed.

Lemma match_here_complete r w rest :
  matches r w rest -> is_Some (JS.match_here r (w +:+ rest)).
Proof. intros H. apply (rmatch_complete _ _ _ H). eauto. Qed.

(** ** The unit code of a file name *)

Lemma digit_not_upper a : JS.is_digit a = true -> JS.is_upper a = false.
Proof.
  unfold JS.is_digit, JS.is_upper, JS.in_range.
  rewrite andb_true_iff, andb_false_iff, !N.leb_le, !N.leb_gt. lia.
Qed.

Lemma upper_not_digit a : JS.is_upper a = true -> JS.is_digit a = false.
Proof.
  unfold JS.is_digit, JS.is_upper, JS.in_range.
  rewrite andb_true_iff, andb_false_iff, !N.leb_le, !N.leb_gt. lia.
Qed.

Lemma dash_not_upper a : JS.is_char "-" a = true -> JS.is_upper a = false.
Proof.
  unfold JS.is_char, JS.is_upper, JS.in_range.
  rewrite andb_false_iff, N.eqb_eq, !N.leb_gt. intros ->. vm_compute. auto.
Qed.

Lemma upper_not_dash a : JS.is_upper a = true -> JS.is_char "-" a = false.
Proof.
  intros H. destruct (JS.is_char "-" a) eqn:E; [|reflexivity].
  apply dash_not_upper in E. congruence.
Qed.

(** Inversion of the language of a pattern, one constructor at a time. *)
Ltac invert_matches :=
  repeat match goal with
  | H : matches (JS.Cat _ _) _ _ |- _ => inversion H; subst; clear H
  | H : matches (JS.Cls _) _ _ |- _ => inversion H; subst; clear H
  | H : matches (JS.Opt _) _ _ |- _ => inversion H; subst; clear H
  | H : matches (JS.Alt _ _) _ _ |- _ => inversion H; subst; clear H
  | H : matches JS.Eos _ _ |- _ => inversion H; subst; clear H
  | H : matches JS.Empty _ _ |- _ => inversion H; subst; clear H
  end.

Ltac class_facts :=
  repeat match goal with
  | H : JS.is_digit ?a = true |- _ =>
      lazymatch goal with
      | _ : JS.is_upper a = false |- _ => fail
      | _ => pose proof (digit_not_upper a H)
      end
  | H : JS.is_upper ?a = true |- _ =>
      lazymatch goal with
      | _ : JS.is_digit a = false |- _ => fail
      | _ => pose proof (upper_not_digit a H); pose proof (upper_not_dash a H)
      end
  end.

(** Symbolic execution of the matcher on a subject whose first characters
    are variables: every test of a character class is decided both ways. *)
Ltac run_matcher H :=
  repeat (simpl in H;
    match type of H with
    | context [if ?b then _ else _] =>
        let E := fresh "E" in destruct b eqn:E; try congruence
    end).

(** The matcher takes every optional part it can: no word of the pattern
    at the start of the name is longer than the one it returns. *)
Lemma unit_code_longest w' rest' rest :
  matches unit_code_re w' rest' ->
  JS.match_here unit_code_re (w' +:+ rest') = Some rest ->
  (String.length rest <= String.length rest')%nat.
Proof.
  unfold unit_code_re, JS.match_here. intros Hw H.
  invert_matches; class_facts;
    destruct rest' as [|b1 [|b2 [|b3 [|b4 rest']]]];
    rewrite ?string_app_cons, ?string_app_nil_l in H;
    run_matcher H; try discriminate; rewrite ?string_app_nil_l in H;
    injection H as <-; simpl; lia.
Qed.

(** C7.  [parseUnitCode] returns the prefix of the file name matched by
    [[A-Z]{2,3}\d{2}(-\d{2})?[A-Z]?] anchored at the start of the name: the
    result is a word of the pattern, it is a prefix of the name, and it is
    the longest such prefix (the quantifiers are greedy); the result is
    null exactly when no prefix of the name is a word of the pattern.  In
    particular ["WMA02-01C_something.json"] gives ["WMA02-01C"] and
    ["readme.txt"] gives null. *)
Theorem parseUnitCode_matched_prefix :
  (forall filename : string,
     match parseUnitCode filename with
     | Some unitCode =>
         exists rest,
           filename = unitCode +:+ rest /\
           matches unit_code_re unitCode rest /\
           forall w rest',
             filename = w +:+ rest' -> matches unit_code_re w rest' ->
             (String.length w <= String.length unitCode)%nat
     | None =>
         forall w rest',
           filename = w +:+ rest' -> ~ matches unit_code_re w rest'
     end) /\
  parseUnitCode "WMA02-01C_something.json" = Some "WMA02-01C" /\
  parseUnitCode "readme.txt" = None.
Proof.
  split; [|split; reflexivity].
  intros filename. unfold parseUnitCode, JS.match_anchored.
  destruct (JS.match_here unit_code_re filename) as [rest|] eqn:E.
  - destruct (match_here_sound _ _ _ E) as (w & -> & Hw).
    rewrite string_length_app, Nat.add_sub, string_take_app.
    exists rest. split; [reflexivity|]. split; [exact Hw|].
    intros w' rest' Heq Hw'. rewrite Heq in E.
    pose proof (unit_code_longest _ _ _ Hw' E) as Hlen.
    apply (f_equal String.length) in Heq. rewrite !string_length_app in Heq. lia.
  - intros w rest' -> Hw.
    destruct (match_here_complete _ _ _ Hw) as [x Hx]. congruence.
Qed.

(** ** The base name of a subject folder *)

Lemma star_underscores_eos t :
  JS.star_k (JS.is_char "_") t
    (fun s' => match s' with EmptyString => Some s' | String _ _ => None end)
  = if all_underscores t then Some EmptyString else None.
Proof.
  induction t as [|a t IH]; [reflexivity|]. simpl. rewrite IH.
  destruct (JS.is_char "_" a); simpl; [|reflexivity].
  now destruct (all_underscores t).
Qed.

Lemma match_trailing_underscores a t :
  JS.match_here trailing_underscores_re (String a t)
  = if JS.is_char "_" a && all_underscores t then Some EmptyString else None.
Proof.
  unfold JS.match_here, trailing_underscores_re. simpl.
  destruct (JS.is_char "_" a); [|reflexivity]. simpl.
  apply star_underscores_eos.
Qed.

(** The replacement of [/_+$/] removes the trailing run of underscores. *)
Lemma remove_trailing_underscores s :
  JS.remove_first trailing_underscores_re s = strip_underscores s.
Proof.
  induction s as [|a t IH]; [reflexivity|].
  cbn [JS.remove_first strip_underscores].
  rewrite match_trailing_underscores.
  destruct (JS.is_char "_" a && all_underscores t); [reflexivity|].
  now rewrite IH.
Qed.

Lemma all_underscores_strip s :
  all_underscores s = false -> all_underscores (strip_underscores s) = false.
Proof.
  induction s as [|a t IH]; simpl; [discriminate|]. intros H. rewrite H.
  simpl. destruct (JS.is_char "_" a); [|reflexivity].
  simpl in *. now apply IH.
Qed.

Lemma strip_underscores_idempotent s :
  strip_underscores (strip_underscores s) = strip_underscores s.
Proof.
  induction s as [|a t IH]; [reflexivity|]. simpl.
  destruct (JS.is_char "_" a && all_underscores t) eqn:E; [reflexivity|].
  simpl. rewrite IH.
  destruct (JS.is_char "_" a); [|reflexivity].
  simpl in *. now rewrite (all_underscores_strip _ E).
Qed.

Lemma strip_underscores_length s :
  (String.length (strip_underscores s) <= String.length s)%nat.
Proof.
  induction s as [|a t IH]; simpl; [lia|].
  destruct (JS.is_char "_" a && all_underscores t); simpl; lia.
Qed.

Lemma has_year_token_here s :
  JS.test_anchored year_token_re s = true -> has_year_token s = true.
Proof. intros H. destruct s; cbn [has_year_token]; now rewrite H. Qed.

(** A match of the year pattern removes at least the six characters of the
    token, and a token stands inside it. *)
Lemma year_match_token s rest :
  JS.match_here year_re s = Some rest ->
  (String.length rest < String.length s)%nat /\ has_year_token s = true.
Proof.
  intros H. apply match_here_sound in H as (w & -> & Hw).
  unfold year_re in Hw.
  inversion Hw as [|? ? blanks w1 ? Hblanks Htoken| | | | | | | |]; subst; clear Hw.
  split.
  - invert_matches. rewrite !string_length_app. simpl. lia.
  - rewrite string_app_assoc. clear Hblanks.
    induction blanks as [|b blanks IH].
    + rewrite string_app_nil_l.
      assert (is_Some (JS.match_here year_token_re (w1 +:+ rest))) as [x Hx].
      { unfold JS.match_here, year_token_re.
        invert_matches. rewrite !string_app_cons, !string_app_nil_l. simpl.
        repeat match goal with H : _ = true |- _ => rewrite H; clear H end.
        eauto. }
      apply has_year_token_here. unfold JS.test_anchored. now rewrite Hx.
    + rewrite string_app_cons. simpl. rewrite IH. apply orb_true_r.
Qed.

Lemma matches_cat_map r1 r2 r2' w rest :
  (forall w' rest', matches r2 w' rest' -> matches r2' w' rest') ->
  matches (JS.Cat r1 r2) w rest -> matches (JS.Cat r1 r2') w rest.
Proof.
  intros Hmap H. inversion H; subst. apply matches_cat; [assumption|].
  now apply Hmap.
Qed.

(** A token is a word of the year pattern, with no blanks around it. *)
Lemma year_of_token w rest :
  matches year_token_re w rest -> matches year_re w rest.
Proof.
  intros H. unfold year_re.
  refine (matches_cat _ _ EmptyString w rest (matches_star_nil _ _) _).
  revert H. unfold year_token_re.
  do 5 (apply matches_cat_map; clear w rest; intros w rest).
  intros H. rewrite <- (string_app_nil_r w).
  exact (matches_cat _ _ w EmptyString rest H (matches_star_nil _ _)).
Qed.

(** Where a token starts the name, the year pattern matches there. *)
Lemma token_year_match s :
  JS.test_anchored year_token_re s = true ->
  is_Some (JS.match_here year_re s).
Proof.
  unfold JS.test_anchored. intros H.
  destruct (JS.match_here year_token_re s) as [rest|] eqn:E; [|discriminate].
  apply match_here_sound in E as (w & -> & Hw).
  apply match_here_complete. now apply year_of_token.
Qed.

Lemma remove_all_fuel_no_token fuel : forall s,
  has_year_token s = false -> JS.remove_all_fuel fuel year_re s = s.
Proof.
  induction fuel as [|fuel IH]; intros s H; [reflexivity|].
  destruct s as [|a t]; [reflexivity|]. cbn [JS.remove_all_fuel].
  destruct (JS.match_here year_re (String a t)) as [rest|] eqn:E.
  - apply year_match_token in E as [_ E]. congruence.
  - simpl in H. apply orb_false_iff in H as [_ H]. now rewrite IH.
Qed.

Lemma remove_all_fuel_length fuel r : forall s,
  (String.length (JS.remove_all_fuel fuel r s) <= String.length s)%nat.
Proof.
  induction fuel as [|fuel IH]; intros s; [simpl; lia|].
  destruct s as [|a t]; [simpl; lia|]. cbn [JS.remove_all_fuel].
  destruct (JS.match_here r (String a t)) as [rest|].
  - destruct (Nat.ltb_spec (String.length rest) (String.length (String a t))).
    + specialize (IH rest). lia.
    + specialize (IH t). simpl. lia.
  - specialize (IH t). simpl. lia.
Qed.

Lemma remove_all_fuel_token fuel : forall s,
  (String.length s <= fuel)%nat -> has_year_token s = true ->
  (String.length (JS.remove_all_fuel fuel year_re s) < String.length s)%nat.
Proof.
  induction fuel as [|fuel IH]; intros s Hfuel H.
  - destruct s; [discriminate | simpl in Hfuel; lia].
  - destruct s as [|a t]; [discriminate|]. cbn [JS.remove_all_fuel].
    destruct (JS.match_here year_re (String a t)) as [rest|] eqn:E.
    + destruct (year_match_token _ _ E) as [Hlt _].
      apply Nat.ltb_lt in Hlt as Hb. rewrite Hb.
      pose proof (remove_all_fuel_length fuel year_re rest). lia.
    + cbn [has_year_token] in H. apply orb_true_iff in H as [H|H].
      * apply token_year_match in H as [x Hx]. congruence.
      * simpl in Hfuel. specialize (IH t ltac:(lia) H). simpl. lia.
Qed.

(** The scan of [replace(/.../g, "")] ends within [String.length s] steps:
    more fuel does not change the result. *)
Lemma remove_all_fuel_enough r fuel1 : forall fuel2 s,
  (String.length s <= fuel1)%nat -> (String.length s <= fuel2)%nat ->
  JS.remove_all_fuel fuel1 r s = JS.remove_all_fuel fuel2 r s.
Proof.
  induction fuel1 as [|fuel1 IH]; intros fuel2 s H1 H2.
  - destruct s; [now destruct fuel2 | simpl in H1; lia].
  - destruct s as [|a t]; [now destruct fuel2|].
    destruct fuel2 as [|fuel2]; [simpl in H2; lia|].
    cbn [JS.remove_all_fuel]. simpl in H1, H2.
    destruct (JS.match_here r (String a t)) as [rest|].
    + destruct (Nat.ltb_spec (String.length rest) (String.length (String a t))).
      * simpl in *. apply IH; lia.
      * f_equal. apply IH; lia.
    + f_equal. apply IH; lia.
Qed.

(** C8, as amended.  [getBaseSubjectName] is total: the scan for year
    tokens ends within as many steps as the name has characters.  Applying
    it a second time changes nothing exactly when the first result contains
    no parenthesized 4-digit year (removing a token can join the text
    around it into a new one). *)
Theorem getBaseSubjectName_idempotent_iff (subject : string) :
  (forall fuel, (String.length subject <= fuel)%nat ->
     JS.remove_first trailing_underscores_re
       (JS.remove_all_fuel fuel year_re subject)
     = getBaseSubjectName subject) /\
  (getBaseSubjectName (getBaseSubjectName subject) = getBaseSubjectName subject
   <-> has_year_token (getBaseSubjectName subject) = false).
Proof.
  split.
  - intros fuel H. unfold getBaseSubjectName, JS.remove_all.
    f_equal. now apply remove_all_fuel_enough.
  - set (base := getBaseSubjectName subject).
    assert (strip_underscores base = base) as Hbase.
    { unfold base, getBaseSubjectName.
      rewrite remove_trailing_underscores. apply strip_underscores_idempotent. }
    split.
    + intros Hid. destruct (has_year_token base) eqn:E; [|reflexivity].
      exfalso.
      pose proof (remove_all_fuel_token (String.length base) base
                    (Nat.le_refl _) E) as Hlt.
      apply (f_equal String.length) in Hid.
      unfold getBaseSubjectName at 1 in Hid.
      rewrite remove_trailing_underscores in Hid.
      pose proof (strip_underscores_length (JS.remove_all year_re base)).
      unfold JS.remove_all in *. lia.
    + intros E. unfold getBaseSubjectName at 1. unfold JS.remove_all.
      rewrite (remove_all_fuel_no_token _ _ E), remove_trailing_underscores.
      exact Hbase.
Qed.

(** C8, the claim as stated fails: removing the inner token of
    ["(20(2015)15)"] leaves ["(2015)"], which a second application removes. *)
Lemma getBaseSubjectName_not_idempotent :
  getBaseSubjectName "(20(2015)15)" = "(2015)" /\
  getBaseSubjectName (getBaseSubjectName "(20(2015)15)") = EmptyString.
Proof. split; reflexivity. Qed.

(** ** The progress ledger *)

(** C10.  The ledger state [markAsFailed] produces does not depend on its
    [error] argument, and neither does the ledger file written by the
    [save] that follows it: the reason of a failure is stored nowhere. *)
Theorem markAsFailed_ignores_error
    (p : Progress.t) (qualificationType session subject unit : string)
    (error1 error2 : string) :
  ProgressTracker.markAsFailed p qualificationType session subject unit error1
  = ProgressTracker.markAsFailed p qualificationType session subject unit
      error2 /\
  forall (fs : disk) (w : world),
    (with_tracker (fun p =>
       ProgressTracker.markAsFailed p qualificationType session subject unit
         error1) ;; save fs) w
    = (with_tracker (fun p =>
         ProgressTracker.markAsFailed p qualificationType session subject unit
           error2) ;; save fs) w.
Proof. split; [reflexivity | intros fs w; reflexivity]. Qed.

(** The fixed-up document of a ledger the tracker wrote is that ledger. *)
Lemma load_stringify (p : Progress.t) :
  ProgressTracker.load (stringify p) = p.
Proof.
  destruct p as [c f cs lu [a b d e g h]]. unfold ProgressTracker.load. simpl.
  destruct (Z.eqb_spec h 0) as [->|]; reflexivity.
Qed.

(** C9, the claim as stated fails.  The percentage is
    [Math.round((completedUnits / totalUnits) * 100)], the quotient first:
    in binary64 23 / 40 lies below 0.575 and the product below 57.5, so
    23 units of 40 are reported as 57 percent, where
    [round(100 * completedUnits / totalUnits)] is 58, in binary64 and over
    the rationals. *)
Lemma getSummary_divides_before_scaling :
  Summary.progress
    (ProgressTracker.getSummary
       (Progress.mk ∅ ∅ ∅ None (Stats.mk 1 1 40 23 0 0)))
  = Number 57 /\
  percent_product_first 23 40 = Number 58 /\
  percent_exact 23 40 = 58.
Proof. vm_compute. repeat split. Qed.

(** C9, as amended.  [getSummary] does not clamp the percentage: with a
    positive [totalUnits] it is
    [Math.round((completedUnits / totalUnits) * 100)], in binary64 and in
    that order, whatever the two counters are.  [updateStats] overwrites the
    three totals and keeps the other counters, so a percentage above 100 is
    reached by a second run: the first run completes the two units of the
    only session; the second run, on the site with a new session of one
    unit, resets the totals, skips the completed session and counts one
    unit, and reports 3 completed units of 1, that is 300 percent. *)
Theorem getSummary_not_clamped :
  (forall p : Progress.t,
     Summary.progress (ProgressTracker.getSummary p) =
       let stats := Progress.stats p in
       if 0 <? Stats.totalUnits stats
       then Math_round
              (js_mul
                 (js_div (Number (Stats.completedUnits stats))
                    (Number (Stats.totalUnits stats)))
                 (Number 100))
       else Number 0) /\
  (forall (p : Progress.t) (a b c : Z),
     Progress.stats (ProgressTracker.updateStats p a b c) =
       Stats.mk a b c (Stats.completedUnits (Progress.stats p))
         (Stats.failedUnits (Progress.stats p))
         (Stats.completedSessions (Progress.stats p))) /\
  exists summary1 w1 summary2 w2,
    scrapeSeries writable site_june (start NoFile example_date 0)
    = (Ok summary1, w1) /\
    Summary.completedUnits summary1 = 2 /\
    scrapeSeries writable site_june_january (start (ledger_file w1) example_date 0)
      = (Ok summary2, w2) /\
    Summary.completedUnits summary2 = 3 /\
    Summary.totalUnits summary2 = 1 /\
    Summary.progress summary2 = Number 300.
Proof.
  split; [reflexivity|]. split; [reflexivity|].
  set (run1 := scrapeSeries writable site_june (start NoFile example_date 0)).
  assert (exists summary1,
            fst run1 = Ok summary1 /\ Summary.completedUnits summary1 = 2)
    as (summary1 & Hrun1 & Hdone1) by (vm_compute; eauto).
  set (run2 := scrapeSeries writable site_june_january
                 (start (ledger_file (snd run1)) example_date 0)).
  assert (exists summary2,
            fst run2 = Ok summary2 /\
            Summary.completedUnits summary2 = 3 /\
            Summary.totalUnits summary2 = 1 /\
            Summary.progress summary2 = Number 300)
    as (summary2 & Hrun2 & Hsummary2) by (vm_compute; eauto 6).
  exists summary1, (snd run1), summary2, (snd run2).
  split; [rewrite <- Hrun1; apply surjective_pairing|].
  split; [exact Hdone1|].
  split; [rewrite <- Hrun2; apply surjective_pairing|].
  exact Hsummary2.
Qed.

(** ** The merge engine *)

Lemma fold_left_preserves {A B : Type} (I : A -> Prop) (f : A -> B -> A) :
  (forall a b, I a -> I (f a b)) ->
  forall l a, I a -> I (fold_left f l a).
Proof. intros Hf l. induction l as [|b l IH]; simpl; auto. Qed.


Lemma codes_of_copied g c file :
  group_inv g -> (c, file) ∈ copied g ->
  exists unitCode,
    parseUnitCode file = Some unitCode /\ unitCode ∈ processedUnitCodes g.
Proof.
  intros Hinv Hin.
  pose proof (inv_parsed g Hinv) as Hall.
  rewrite Forall_forall in Hall. destruct (Hall _ Hin) as [unitCode Hcode].
  exists unitCode. split; [exact Hcode|].
  rewrite (inv_codes g Hinv), elem_of_list_to_set.
  unfold codes_of. rewrite list_elem_of_omap. exists (c, file). eauto.
Qed.

Lemma process_file_inv subject file g :
  group_inv g -> group_inv (process_file subject file g).
Proof.
  intros Hinv. unfold process_file.
  destruct (negb (JS.endsWith ".json" file)); [exact Hinv|].
  destruct (parseUnitCode file) as [unitCode|] eqn:Hcode; [|exact Hinv].
  destruct Hinv as [Hparsed Hnodup Hcodes Hcount Hfolder].
  case_bool_decide as Hseen.
  - constructor; simpl; auto; lia.
  - assert (codes_of
              (mkGroup ({[unitCode]} ∪ processedUnitCodes g)
                 (S (processedFiles g)) (duplicatesFound g)
                 (<[file:=subject]> (folder g))
                 (copied g ++ [(subject, file)]))
            = codes_of g ++ [unitCode]) as Hnew.
    { unfold codes_of. simpl. rewrite omap_app. simpl. now rewrite Hcode. }
    constructor; simpl.
    + apply Forall_app. split; [exact Hparsed|].
      constructor; [|constructor]. simpl. rewrite Hcode. eauto.
    + rewrite Hnew. apply NoDup_app. split; [exact Hnodup|].
      split; [|apply NoDup_singleton].
      intros x Hx ->%list_elem_of_singleton. apply Hseen.
      rewrite Hcodes. now apply elem_of_list_to_set.
    + rewrite Hnew, list_to_set_app_L, Hcodes. simpl.
      rewrite union_empty_r_L. apply (comm_L (∪)).
    + rewrite length_app. simpl. lia.
    + intros subject' file' [Hold | Hlast%list_elem_of_singleton]%elem_of_app.
      * destruct (decide (file = file')) as [<-|Hne].
        -- exfalso. apply Hseen.
           destruct (codes_of_copied g subject' file) as (c & Hc & Hin); auto.
           { constructor; auto. }
           congruence.
        -- rewrite lookup_insert_ne by exact Hne. now apply Hfolder.
      * injection Hlast as -> ->. apply lookup_insert_eq.
Qed.

Lemma process_variants_inv sessionPath variants target :
  group_inv (process_variants sessionPath variants target).
Proof.
  unfold process_variants. apply fold_left_preserves.
  - intros g subject Hg. unfold process_variant.
    destruct (readdir subject sessionPath) as [files|]; [|exact Hg].
    apply (fold_left_preserves group_inv); [|exact Hg].
    intros g' file Hg'. now apply process_file_inv.
  - constructor; simpl; try constructor; try reflexivity.
    intros ? ? []%elem_of_nil.
Qed.






(** A call that starts on an empty folder leaves one file per identifier
    in it: the folder holds the files the call copied and nothing else. *)
Lemma process_variants_files sessionPath variants :
  let g := process_variants sessionPath variants ∅ in
  forall file, is_Some (folder g !! file) ->
  exists subject, (subject, file) ∈ copied g.
Proof.
  unfold process_variants.
  apply (fold_left_preserves
           (fun g => forall file, is_Some (folder g !! file) ->
                     exists subject, (subject, file) ∈ copied g)).
  - intros g subject Hg. unfold process_variant.
    destruct (readdir subject sessionPath) as [files|]; [|exact Hg].
    revert Hg.
    apply (fold_left_preserves
             (fun g => forall file, is_Some (folder g !! file) ->
                       exists subject, (subject, file) ∈ copied g)).
    clear g. intros g file Hg. unfold process_file.
    destruct (negb (JS.endsWith ".json" file)); [exact Hg|].
    destruct (parseUnitCode file) as [unitCode|]; [|exact Hg].
    case_bool_decide; [exact Hg|]. simpl. intros file' Hfile'.
    destruct (decide (file = file')) as [<-|Hne].
    + exists subject. apply elem_of_app. right. now apply list_elem_of_singleton.
    + rewrite lookup_insert_ne in Hfile' by exact Hne.
      destruct (Hg _ Hfile') as [subject' Hin]. exists subject'.
      apply elem_of_app. now left.
  - simpl. intros file [x Hx]. now rewrite lookup_empty in Hx.
Qed.

Lemma omap_NoDup_inj {A B : Type} (f : A -> option B) (l : list A) x y b :
  NoDup (omap f l) -> x ∈ l -> y ∈ l -> f x = Some b -> f y = Some b -> x = y.
Proof.
  induction l as [|a l IH]; intros Hnd Hx Hy Hfx Hfy; [now apply elem_of_nil in Hx|].
  simpl in Hnd.
  apply elem_of_cons in Hx as [->|Hx]; apply elem_of_cons in Hy as [->|Hy].
  - reflexivity.
  - rewrite Hfx in Hnd. apply NoDup_cons in Hnd as [Hnotin _].
    exfalso. apply Hnotin. apply list_elem_of_omap. eauto.
  - rewrite Hfy in Hnd. apply NoDup_cons in Hnd as [Hnotin _].
    exfalso. apply Hnotin. apply list_elem_of_omap. eauto.
  - apply IH; auto. destruct (f a); [|exact Hnd].
    now apply NoDup_cons in Hnd as [_ ?].
Qed.

(** One call of a group function, writing into an empty folder, leaves at
    most one file per unit identifier in it. *)
Lemma process_variants_one_file_per_code sessionPath variants :
  one_file_per_code (folder (process_variants sessionPath variants ∅)).
Proof.
  intros file1 file2 unitCode H1 H2 Hc1 Hc2.
  destruct (process_variants_files sessionPath variants _ H1) as [s1 Hin1].
  destruct (process_variants_files sessionPath variants _ H2) as [s2 Hin2].
  pose proof (process_variants_inv sessionPath variants ∅) as Hinv.
  pose proof (inv_nodup _ Hinv) as Hnd. unfold codes_of in Hnd.
  pose proof (omap_NoDup_inj _ _ _ _ unitCode Hnd Hin1 Hin2 Hc1 Hc2) as Heq.
  congruence.
Qed.

(** The two math variants of [math_pair] in one call: the file of the
    second variant has the unit code of the first and is skipped, so it is
    counted as a duplicate and the folder holds the first file only. *)
Lemma process_variants_one_file_per_code_witness :
  processedFiles
    (process_variants math_pair
       ["Mathematics_(2018)"; "Further_Mathematics"] ∅) = 2%nat /\
  duplicatesFound
    (process_variants math_pair
       ["Mathematics_(2018)"; "Further_Mathematics"] ∅) = 1%nat /\
  parseUnitCode "WMA01-01_Core_C12.json" = Some "WMA01-01" /\
  parseUnitCode "WMA01-01_C12.json" = Some "WMA01-01" /\
  folder
    (process_variants math_pair
       ["Mathematics_(2018)"; "Further_Mathematics"] ∅)
    !! "WMA01-01_Core_C12.json" = Some "Mathematics_(2018)" /\
  folder
    (process_variants math_pair
       ["Mathematics_(2018)"; "Further_Mathematics"] ∅)
    !! "WMA01-01_C12.json" = None.
Proof.
  assert (parseUnitCode "WMA01-01_Core_C12.json" = Some "WMA01-01") as Hc1
    by (vm_compute; reflexivity).
  assert (parseUnitCode "WMA01-01_C12.json" = Some "WMA01-01") as Hc2
    by (vm_compute; reflexivity).
  assert (folder
            (process_variants math_pair
               ["Mathematics_(2018)"; "Further_Mathematics"] ∅)
          !! "WMA01-01_Core_C12.json" = Some "Mathematics_(2018)") as Hfile
    by (vm_compute; reflexivity).
  pose proof (process_variants_one_file_per_code math_pair
                ["Mathematics_(2018)"; "Further_Mathematics"]
                "WMA01-01_Core_C12.json" "WMA01-01_Core_C12.json" "WMA01-01"
                (ex_intro _ _ Hfile) (ex_intro _ _ Hfile) Hc1 Hc1) as Hsame.
  split; [vm_compute; reflexivity|]. split; [vm_compute; reflexivity|].
  split; [exact Hc1|]. split; [exact Hc2|]. split; [exact Hfile|].
  destruct (folder
              (process_variants math_pair
                 ["Mathematics_(2018)"; "Further_Mathematics"] ∅)
            !! "WMA01-01_C12.json") as [subject|] eqn:Hother;
    [exfalso | reflexivity].
  assert ("WMA01-01_Core_C12.json" = "WMA01-01_C12.json") as Heq.
  { apply (process_variants_one_file_per_code math_pair
             ["Mathematics_(2018)"; "Further_Mathematics"]
             "WMA01-01_Core_C12.json" "WMA01-01_C12.json" "WMA01-01").
    - rewrite Hfile. eauto.
    - rewrite Hother. eauto.
    - exact Hc1.
    - exact Hc2. }
  discriminate Heq.
Defined.

(** C2, on the code.  With the three raw folders of the scenario, each
    holding [WMA01-01.json], the folders fall into three groups by base
    name.  [Mathematics_(2018)] is not an exact math name and goes through
    [processRegularSubjects] into [Mathematics]; [Further_Mathematics] goes
    through [processMathSubjects] into [Mathematics], with a set of seen
    identifiers of its own, and overwrites the file;
    [Pure_Mathematics_(2015)] goes into a folder [Pure_Mathematics].  No
    duplicate is counted, in whatever order the folders are listed. *)
Theorem math_consolidation_on_the_code :
  Forall
    (fun sessionPath =>
       let m := snd (organizeData (math_source sessionPath)) in
       fst (organizeData (math_source sessionPath)) = Ok tt /\
       totalFiles m = 3%nat /\
       duplicates m = 0%nat /\
       (fun files => map fst (map_to_list files)) <$>
         target m !! math_folder "Mathematics"
         = Some ["WMA01-01.json"] /\
       map_to_list <$> target m !! math_folder "Pure_Mathematics"
         = Some [("WMA01-01.json", "Pure_Mathematics_(2015)")])
    (permutations
       (math_session "WMA01-01.json" "WMA01-01.json" "WMA01-01.json")).
Proof.
  set (orders := permutations _). vm_compute in orders. subst orders.
  repeat (apply Forall_cons_2; [vm_compute; repeat split|]).
  apply Forall_nil_2.
Qed.

(** C4, on the code.  [Mathematics_(2018)] is merged by
    [processRegularSubjects] and [Further_Mathematics] by
    [processMathSubjects]; both write the folder [Mathematics], each with a
    set of seen identifiers of its own, so two files of the unit
    [WMA01-01] end up in that folder. *)
Theorem mathematics_folder_holds_a_code_twice :
  let m := snd (organizeData (math_source math_pair)) in
  fst (organizeData (math_source math_pair)) = Ok tt /\
  map_to_list <$> target m !! math_folder "Mathematics"
    = Some [("WMA01-01_Core_C12.json", "Mathematics_(2018)");
            ("WMA01-01_C12.json", "Further_Mathematics")] /\
  parseUnitCode "WMA01-01_C12.json" = Some "WMA01-01" /\
  parseUnitCode "WMA01-01_Core_C12.json" = Some "WMA01-01" /\
  duplicates m = 0%nat /\
  exists files,
    target m !! math_folder "Mathematics" = Some files /\
    ~ one_file_per_code files.
Proof.
  cbv zeta. set (m := snd (organizeData (math_source math_pair))).
  assert (map_to_list <$> target m !! math_folder "Mathematics"
          = Some [("WMA01-01_Core_C12.json", "Mathematics_(2018)");
                  ("WMA01-01_C12.json", "Further_Mathematics")]) as Hfiles
    by (vm_compute; reflexivity).
  assert (parseUnitCode "WMA01-01_C12.json" = Some "WMA01-01") as Hc1
    by (vm_compute; reflexivity).
  assert (parseUnitCode "WMA01-01_Core_C12.json" = Some "WMA01-01") as Hc2
    by (vm_compute; reflexivity).
  split; [vm_compute; reflexivity|]. split; [exact Hfiles|].
  split; [exact Hc1|]. split; [exact Hc2|]. split; [vm_compute; reflexivity|].
  destruct (target m !! math_folder "Mathematics") as [files|];
    [|discriminate Hfiles].
  exists files. split; [reflexivity|]. injection Hfiles as Hfiles. intros H.
  assert (is_Some (files !! "WMA01-01_C12.json")) as H1.
  { exists "Further_Mathematics". apply elem_of_map_to_list.
    rewrite Hfiles. apply list_elem_of_further, list_elem_of_here. }
  assert (is_Some (files !! "WMA01-01_Core_C12.json")) as H2.
  { exists "Mathematics_(2018)". apply elem_of_map_to_list.
    rewrite Hfiles. apply list_elem_of_here. }
  specialize (H _ _ "WMA01-01" H1 H2 Hc1 Hc2). discriminate H.
Qed.

(** ** The traversal *)

(** *** Rules for computations *)

Section Rules.

Context (R : world -> world -> Prop).
Context (R_refl : forall w, R w w).
Context (R_trans : forall w1 w2 w3, R w1 w2 -> R w2 w3 -> R w1 w3).

Lemma preserves_ret {A : Type} (a : A) : preserves R (ret a).
Proof. intros w. apply R_refl. Qed.

Lemma preserves_throw {A : Type} (e : string) : preserves R (@throw world A e).
Proof. intros w. apply R_refl. Qed.

Lemma preserves_lift {A : Type} (r : res A) : preserves R (lift r).
Proof. intros w. apply R_refl. Qed.

Lemma preserves_ask {A : Type} (f : Progress.t -> A) : preserves R (ask f).
Proof. intros w. apply R_refl. Qed.

Lemma preserves_bind {A B : Type} (m : M world A) (k : A -> M world B) :
  preserves R m -> (forall a, preserves R (k a)) -> preserves R (bind m k).
Proof.
  intros Hm Hk w. unfold bind. specialize (Hm w).
  destruct (m w) as [[a|e] w']; simpl in *; [|exact Hm].
  eapply R_trans; [exact Hm | apply Hk].
Qed.

Lemma preserves_try_catch {A : Type} (m : M world A) (h : string -> M world A) :
  preserves R m -> (forall e, preserves R (h e)) -> preserves R (try_catch m h).
Proof.
  intros Hm Hh w. unfold try_catch. specialize (Hm w).
  destruct (m w) as [[a|e] w']; simpl in *; [exact Hm|].
  eapply R_trans; [exact Hm | apply Hh].
Qed.

Lemma preserves_for_of {A B : Type} (body : B -> A -> M world B) :
  (forall acc x, preserves R (body acc x)) ->
  forall l acc, preserves R (for_of l acc body).
Proof.
  intros Hbody l. induction l as [|x l IH]; intros acc; simpl.
  - apply preserves_ret.
  - apply preserves_bind; [apply Hbody | intros acc'; apply IH].
Qed.

Lemma preserves_if {A : Type} (b : bool) (m1 m2 : M world A) :
  preserves R m1 -> preserves R m2 -> preserves R (if b then m1 else m2).
Proof. now destruct b. Qed.

End Rules.

Lemma never_throws_for_of {A B : Type} (body : B -> A -> M world B) :
  (forall acc x, never_throws (body acc x)) ->
  forall l acc, never_throws (for_of l acc body).
Proof.
  intros Hbody l. induction l as [|x l IH]; intros acc w; simpl.
  - now exists acc.
  - unfold bind. destruct (Hbody acc x w) as [acc' Hacc'].
    destruct (body acc x w) as [r w']. simpl in Hacc'. subst r. apply IH.
Qed.

Lemma never_throws_try_catch {A : Type} (m : M world A)
    (h : string -> M world A) :
  (forall e, never_throws (h e)) -> never_throws (try_catch m h).
Proof.
  intros Hh w. unfold try_catch.
  destruct (m w) as [[a|e] w']; [now exists a | apply Hh].
Qed.

(** *** The ledger operations *)

Lemma units_of_set_units l q s subject units :
  ProgressTracker.units_of (ProgressTracker.set_units l q s subject units)
    q s subject = Some units.
Proof.
  unfold ProgressTracker.units_of, ProgressTracker.set_units.
  now rewrite !lookup_insert_eq.
Qed.

Lemma units_of_set_units_other l q s subject units q' s' subject' :
  (q, s, subject) <> (q', s', subject') ->
  ProgressTracker.units_of (ProgressTracker.set_units l q s subject units)
    q' s' subject' = ProgressTracker.units_of l q' s' subject'.
Proof.
  intros Hne. unfold ProgressTracker.units_of, ProgressTracker.set_units.
  destruct (decide (q = q')) as [<-|Hq]; [|now rewrite lookup_insert_ne].
  rewrite lookup_insert_eq.
  destruct (decide (s = s')) as [<-|Hs].
  - rewrite lookup_insert_eq.
    destruct (decide (subject = subject')) as [<-|Hsubject]; [congruence|].
    rewrite lookup_insert_ne by exact Hsubject.
    destruct (l !! q) as [sessions|]; simpl; [|now rewrite lookup_empty].
    destruct (sessions !! s); simpl; [reflexivity | now rewrite lookup_empty].
  - rewrite lookup_insert_ne by exact Hs.
    destruct (l !! q); simpl; [reflexivity | now rewrite lookup_empty].
Qed.

(** Adding a unit to the array of a subject keeps every unit of the
    ledger. *)
Lemma units_of_set_units_grows l q s subject unit q' s' subject' u units :
  ProgressTracker.units_of l q' s' subject' = Some units -> u ∈ units ->
  exists units',
    ProgressTracker.units_of
      (ProgressTracker.set_units l q s subject
         (default [] (ProgressTracker.units_of l q s subject) ++ [unit]))
      q' s' subject' = Some units' /\ u ∈ units'.
Proof.
  intros Hunits Hu.
  destruct (decide ((q, s, subject) = (q', s', subject'))) as [[= <- <- <-]|Hne].
  - rewrite units_of_set_units, Hunits. simpl.
    eexists. split; [reflexivity|]. apply elem_of_app. now left.
  - rewrite units_of_set_units_other by exact Hne. eauto.
Qed.

Lemma units_of_set_units_same l q s subject units :
  ProgressTracker.units_of l q s subject = Some units ->
  ProgressTracker.set_units l q s subject units = l.
Proof.
  unfold ProgressTracker.units_of, ProgressTracker.set_units.
  destruct (l !! q) as [sessions|] eqn:Hq; [|discriminate].
  destruct (sessions !! s) as [subjects|] eqn:Hs; [|discriminate].
  intros Hsubject. simpl. rewrite Hs. simpl.
  rewrite (insert_id subjects) by exact Hsubject.
  rewrite (insert_id sessions) by exact Hs.
  now apply insert_id.
Qed.

(** Marking a unit the array of its subject holds changes nothing. *)
Lemma markAsCompleted_seen p q s subject u :
  ProgressTracker.isCompleted p q s subject u = true ->
  ProgressTracker.markAsCompleted p q s subject u = p.
Proof.
  unfold ProgressTracker.isCompleted, ProgressTracker.markAsCompleted.
  destruct (ProgressTracker.units_of (Progress.completed p) q s subject)
    as [units|] eqn:Hunits; [|discriminate].
  simpl. intros ->. rewrite (units_of_set_units_same _ _ _ _ _ Hunits).
  now destruct p.
Qed.

Lemma markAsCompleted_new p q s subject u :
  ProgressTracker.isCompleted p q s subject u = false ->
  ProgressTracker.markAsCompleted p q s subject u =
    Progress.mk
      (ProgressTracker.set_units (Progress.completed p) q s subject
         (default [] (ProgressTracker.units_of (Progress.completed p) q s subject)
          ++ [u]))
      (Progress.failed p) (Progress.completedSessions p) (Progress.lastUpdate p)
      (Stats.mk (Stats.totalSessions (Progress.stats p))
         (Stats.totalSubjects (Progress.stats p))
         (Stats.totalUnits (Progress.stats p))
         (Stats.completedUnits (Progress.stats p) + 1)
         (Stats.failedUnits (Progress.stats p))
         (Stats.completedSessions (Progress.stats p))).
Proof.
  unfold ProgressTracker.isCompleted, ProgressTracker.markAsCompleted.
  destruct (ProgressTracker.units_of (Progress.completed p) q s subject)
    as [units|]; simpl.
  - now intros ->.
  - reflexivity.
Qed.

Lemma markAsFailed_seen p q s subject u e :
  ProgressTracker.hasFailed p q s subject u = true ->
  ProgressTracker.markAsFailed p q s subject u e = p.
Proof.
  unfold ProgressTracker.hasFailed, ProgressTracker.markAsFailed.
  destruct (ProgressTracker.units_of (Progress.failed p) q s subject)
    as [units|] eqn:Hunits; [|discriminate].
  simpl. intros ->. rewrite (units_of_set_units_same _ _ _ _ _ Hunits).
  now destruct p.
Qed.

Lemma markAsFailed_new p q s subject u e :
  ProgressTracker.hasFailed p q s subject u = false ->
  ProgressTracker.markAsFailed p q s subject u e =
    Progress.mk (Progress.completed p)
      (ProgressTracker.set_units (Progress.failed p) q s subject
         (default [] (ProgressTracker.units_of (Progress.failed p) q s subject)
          ++ [u]))
      (Progress.completedSessions p) (Progress.lastUpdate p)
      (Stats.mk (Stats.totalSessions (Progress.stats p))
         (Stats.totalSubjects (Progress.stats p))
         (Stats.totalUnits (Progress.stats p))
         (Stats.completedUnits (Progress.stats p))
         (Stats.failedUnits (Progress.stats p) + 1)
         (Stats.completedSessions (Progress.stats p))).
Proof.
  unfold ProgressTracker.hasFailed, ProgressTracker.markAsFailed.
  destruct (ProgressTracker.units_of (Progress.failed p) q s subject)
    as [units|]; simpl.
  - now intros ->.
  - reflexivity.
Qed.

Lemma includes_after_push l q s subject u q' s' subject' u' :
  match ProgressTracker.units_of l q' s' subject' with
  | Some units => bool_decide (u' ∈ units)
  | None => false
  end = true ->
  match
    ProgressTracker.units_of
      (ProgressTracker.set_units l q s subject
         (default [] (ProgressTracker.units_of l q s subject) ++ [u]))
      q' s' subject'
  with
  | Some units => bool_decide (u' ∈ units)
  | None => false
  end = true.
Proof.
  destruct (ProgressTracker.units_of l q' s' subject') as [units|] eqn:Hunits;
    [|discriminate].
  intros Hin%bool_decide_eq_true.
  destruct (units_of_set_units_grows l q s subject u _ _ _ _ _ Hunits Hin)
    as (units' & -> & Hin').
  now apply bool_decide_eq_true.
Qed.

Lemma isCompleted_markAsCompleted p q s subject u :
  ProgressTracker.isCompleted
    (ProgressTracker.markAsCompleted p q s subject u) q s subject u = true.
Proof.
  destruct (ProgressTracker.isCompleted p q s subject u) eqn:E.
  - now rewrite markAsCompleted_seen.
  - rewrite markAsCompleted_new by exact E.
    unfold ProgressTracker.isCompleted. simpl. rewrite units_of_set_units.
    apply bool_decide_eq_true, elem_of_app. right. apply list_elem_of_here.
Qed.

Lemma hasFailed_markAsFailed p q s subject u e :
  ProgressTracker.hasFailed
    (ProgressTracker.markAsFailed p q s subject u e) q s subject u = true.
Proof.
  destruct (ProgressTracker.hasFailed p q s subject u) eqn:E.
  - now rewrite markAsFailed_seen.
  - rewrite markAsFailed_new by exact E.
    unfold ProgressTracker.hasFailed. simpl. rewrite units_of_set_units.
    apply bool_decide_eq_true, elem_of_app. right. apply list_elem_of_here.
Qed.

Lemma grows_refl p : grows p p.
Proof. repeat split; auto. Qed.

Lemma grows_trans p1 p2 p3 : grows p1 p2 -> grows p2 p3 -> grows p1 p3.
Proof. intros (?&?&?) (?&?&?). repeat split; auto. Qed.

Lemma markAsCompleted_grows p q s subject u :
  grows p (ProgressTracker.markAsCompleted p q s subject u).
Proof.
  destruct (ProgressTracker.isCompleted p q s subject u) eqn:E.
  - rewrite markAsCompleted_seen by exact E. apply grows_refl.
  - rewrite markAsCompleted_new by exact E. repeat split; auto.
    intros q' s' subject' u'. unfold ProgressTracker.isCompleted. simpl.
    apply includes_after_push.
Qed.

Lemma markAsFailed_grows p q s subject u e :
  grows p (ProgressTracker.markAsFailed p q s subject u e).
Proof.
  destruct (ProgressTracker.hasFailed p q s subject u) eqn:E.
  - rewrite markAsFailed_seen by exact E. apply grows_refl.
  - rewrite markAsFailed_new by exact E. repeat split; auto.
    intros q' s' subject' u'. unfold ProgressTracker.hasFailed. simpl.
    apply includes_after_push.
Qed.

Lemma isSessionCompleted_markSessionAsCompleted p q s :
  ProgressTracker.isSessionCompleted
    (ProgressTracker.markSessionAsCompleted p q s) q s = true.
Proof.
  unfold ProgressTracker.isSessionCompleted,
    ProgressTracker.markSessionAsCompleted.
  case_bool_decide as H; simpl; rewrite lookup_insert_eq;
    apply bool_decide_eq_true; [exact H|].
  apply elem_of_app. right. apply list_elem_of_here.
Qed.

Lemma markSessionAsCompleted_grows p q s :
  grows p (ProgressTracker.markSessionAsCompleted p q s).
Proof.
  repeat split.
  - unfold ProgressTracker.markSessionAsCompleted.
    now case_bool_decide.
  - unfold ProgressTracker.markSessionAsCompleted.
    now case_bool_decide.
  - intros q' s'.
    unfold ProgressTracker.isSessionCompleted,
      ProgressTracker.markSessionAsCompleted.
    destruct (Progress.completedSessions p !! q') as [sessions|] eqn:Hq';
      [|discriminate].
    intros Hin%bool_decide_eq_true.
    destruct (decide (q = q')) as [<-|Hne].
    + rewrite Hq'. simpl.
      case_bool_decide; simpl; rewrite lookup_insert_eq;
        apply bool_decide_eq_true; [exact Hin|].
      apply elem_of_app. now left.
    + case_bool_decide; simpl; rewrite lookup_insert_ne by exact Hne;
        rewrite Hq'; now apply bool_decide_eq_true.
Qed.

Lemma updateStats_grows p a b c :
  grows p (ProgressTracker.updateStats p a b c).
Proof. repeat split; auto. Qed.

(** *** The ledger only grows during a run *)

Ltac preserves_step Hrefl Htrans :=
  first
    [ apply (preserves_ret _ Hrefl)
    | apply (preserves_throw _ Hrefl)
    | apply (preserves_lift _ Hrefl)
    | apply (preserves_ask _ Hrefl)
    | apply (preserves_bind _ Htrans)
    | apply (preserves_try_catch _ Htrans)
    | apply (preserves_for_of _ Hrefl Htrans)
    | apply preserves_if
    | match goal with |- forall _, _ => intro end
    | match goal with |- preserves _ (let '(_, _) := ?c in _) => destruct c end ].

Lemma world_grows_refl w : world_grows w w.
Proof. apply grows_refl. Qed.

Lemma world_grows_trans w1 w2 w3 :
  world_grows w1 w2 -> world_grows w2 w3 -> world_grows w1 w3.
Proof. apply grows_trans. Qed.

Lemma with_tracker_grows f :
  (forall p, grows p (f p)) -> preserves world_grows (with_tracker f).
Proof. intros Hf w. apply Hf. Qed.

Lemma log_grows c : preserves world_grows (log c).
Proof. intros w. apply grows_refl. Qed.

Lemma now_grows : preserves world_grows now.
Proof. intros w. apply grows_refl. Qed.

Lemma save_grows : preserves world_grows (save writable).
Proof. intros w. unfold world_grows. simpl. repeat split; auto. Qed.

Ltac grows_step :=
  first
    [ apply save_grows
    | apply log_grows
    | apply now_grows
    | apply with_tracker_grows; intros;
      first [ apply markAsCompleted_grows | apply markAsFailed_grows
            | apply markSessionAsCompleted_grows | apply updateStats_grows ]
    | preserves_step world_grows_refl world_grows_trans ].

Lemma saveData_grows data q s subject u :
  preserves world_grows (saveData data q s subject u).
Proof. unfold saveData. repeat grows_step. Qed.

Lemma processUnit_grows site q s subject u :
  preserves world_grows (processUnit writable site q s subject u).
Proof. unfold processUnit. repeat first [apply saveData_grows | grows_step]. Qed.

Lemma process_unit_step_grows site q s subject n u :
  preserves world_grows (process_unit_step writable site q s subject n u).
Proof.
  unfold process_unit_step. repeat first [apply processUnit_grows | grows_step].
Qed.

Lemma processSubject_grows site q s subject :
  preserves world_grows (processSubject writable site q s subject).
Proof.
  unfold processSubject.
  repeat first [apply process_unit_step_grows | grows_step].
Qed.

Lemma process_subject_step_grows site s counts subject :
  preserves world_grows (process_subject_step writable site s counts subject).
Proof.
  unfold process_subject_step.
  repeat first [apply processSubject_grows | grows_step].
Qed.

Lemma process_session_step_grows site sessions n s :
  preserves world_grows (process_session_step writable site sessions n s).
Proof.
  unfold process_session_step.
  repeat first [apply process_subject_step_grows | grows_step].
Qed.

(** *** Loops *)

(** What the body establishes for its own element, and no later pass
    undoes, holds of every element after the loop. *)
Lemma for_of_establishes {A B : Type} (body : B -> A -> M world B)
    (Q : A -> world -> Prop) :
  (forall acc x, never_throws (body acc x)) ->
  (forall acc x w, Q x (snd (body acc x w))) ->
  (forall acc x y w, Q y w -> Q y (snd (body acc x w))) ->
  forall l acc w x, x ∈ l -> Q x (snd (for_of l acc body w)).
Proof.
  intros Hok Hown Hkeep l.
  assert (forall l acc w y, Q y w -> Q y (snd (for_of l acc body w))) as Hloop.
  { clear l. intros l. induction l as [|x l IH]; intros acc w y Hy; [exact Hy|].
    simpl. unfold bind. specialize (Hkeep acc x y w Hy).
    destruct (body acc x w) as [[acc'|e] w']; simpl in *; auto. }
  induction l as [|x l IH]; intros acc w y Hy; [now apply elem_of_nil in Hy|].
  simpl. unfold bind.
  pose proof (Hown acc x w) as Hx. destruct (Hok acc x w) as [acc' Hacc'].
  destruct (body acc x w) as [r w']. simpl in *. subst r.
  apply elem_of_cons in Hy as [->|Hy]; [now apply Hloop | now apply IH].
Qed.


(** *** Every unit the traversal reaches is decided *)

Lemma decided_grows p p' s subject u :
  grows p p' -> decided p s subject u = true -> decided p' s subject u = true.
Proof.
  intros (Hc & Hf & _). unfold decided.
  rewrite !orb_true_iff. intros [H|H]; [left; now apply Hc | right; now apply Hf].
Qed.

Lemma process_unit_step_never_throws site q s subject n u :
  never_throws (process_unit_step writable site q s subject n u).
Proof.
  apply never_throws_try_catch. intros e w. eexists. reflexivity.
Qed.

Lemma process_unit_step_decides site s subject n u w :
  decided
    (tracker (snd (process_unit_step writable site QUALIFICATION_TYPE s subject n u w)))
    s subject u = true.
Proof.
  unfold process_unit_step, try_catch, bind, ask, decided. simpl.
  destruct (ProgressTracker.isCompleted (tracker w) _ s subject u) eqn:Hc;
    simpl; [now rewrite Hc|].
  destruct (ProgressTracker.hasFailed (tracker w) _ s subject u) eqn:Hf;
    simpl; [rewrite Hf; apply orb_true_r|].
  unfold processUnit, bind, log, lift, modify, with_tracker, save, saveData,
    now, ret. simpl.
  destruct (tabsOf site s subject u) as [[|]|e]; simpl.
  - destruct (scoresOf site s subject u) as [raw|e]; simpl.
    + destruct (length (processData raw) =? 0)%nat; simpl.
      * change (ProgressTracker.hasFailed (stamp ?p _)) with
          (ProgressTracker.hasFailed p).
        rewrite hasFailed_markAsFailed. apply orb_true_r.
      * change (ProgressTracker.isCompleted (stamp ?p _)) with
          (ProgressTracker.isCompleted p).
        now rewrite isCompleted_markAsCompleted.
    + change (ProgressTracker.hasFailed (stamp ?p _)) with
        (ProgressTracker.hasFailed p).
      rewrite hasFailed_markAsFailed. apply orb_true_r.
  - change (ProgressTracker.hasFailed (stamp ?p _)) with
      (ProgressTracker.hasFailed p).
    rewrite hasFailed_markAsFailed. apply orb_true_r.
  - change (ProgressTracker.hasFailed (stamp ?p _)) with
      (ProgressTracker.hasFailed p).
    rewrite hasFailed_markAsFailed. apply orb_true_r.
Qed.

Lemma processSubject_decides site s subject units w u :
  unitsOf site s subject = Ok units -> u ∈ units ->
  decided (tracker (snd (processSubject writable site QUALIFICATION_TYPE s subject w)))
    s subject u = true.
Proof.
  intros Hunits Hu. unfold processSubject.
  unfold bind at 1 2 3 4 5. unfold log, lift, modify, ask, with_tracker. simpl.
  rewrite Hunits. simpl.
  set (w1 := mkWorld _ _ _ _ _). clearbody w1.
  destruct (length units =? 0)%nat eqn:Hlen.
  { destruct units; [now apply elem_of_nil in Hu | discriminate]. }
  unfold bind.
  pose proof (for_of_establishes
                (process_unit_step writable site QUALIFICATION_TYPE s subject)
                (fun u w => decided (tracker w) s subject u = true)) as Hloop.
  specialize (Hloop (process_unit_step_never_throws _ _ _ _)).
  specialize (Hloop (fun acc x w => process_unit_step_decides site s subject acc x w)).
  assert (forall acc x y w,
            decided (tracker w) s subject y = true ->
            decided
              (tracker
                 (snd (process_unit_step writable site QUALIFICATION_TYPE s subject acc x w)))
              s subject y = true) as Hkeep.
  { intros acc x y w0. apply decided_grows, process_unit_step_grows. }
  specialize (Hloop Hkeep units 0 w1 u Hu).
  now destruct (for_of units 0 _ w1) as [[n|e] w2].
Qed.

Lemma snd_try_catch_ret {A : Type} (m : M world A) (x : A) w :
  snd (try_catch m (fun _ => ret x) w) = snd (m w).
Proof. unfold try_catch. now destruct (m w) as [[a|e] w']. Qed.

Lemma process_subject_step_world site s counts subject w :
  snd (process_subject_step writable site s counts subject w)
  = snd (processSubject writable site QUALIFICATION_TYPE s subject w).
Proof.
  unfold process_subject_step. rewrite snd_try_catch_ret. unfold bind.
  now destruct (processSubject writable _ _ _ _ w) as [[r|e] w'].
Qed.

Lemma process_subject_step_never_throws site s counts subject :
  never_throws (process_subject_step writable site s counts subject).
Proof.
  apply never_throws_try_catch. intros e w. eexists. reflexivity.
Qed.

Lemma subjects_loop_decides site s subjects counts w subject units u :
  subject ∈ subjects -> unitsOf site s subject = Ok units -> u ∈ units ->
  decided
    (tracker (snd (for_of subjects counts (process_subject_step writable site s) w)))
    s subject u = true.
Proof.
  intros Hsubject Hunits Hu.
  pose proof (for_of_establishes (process_subject_step writable site s)
                (fun subject w =>
                   forall units u,
                     unitsOf site s subject = Ok units -> u ∈ units ->
                     decided (tracker w) s subject u = true)) as Hloop.
  refine (Hloop (process_subject_step_never_throws site s) _ _
            subjects counts w subject Hsubject units u Hunits Hu).
  - intros acc x w0 units0 u0 Hunits0 Hu0.
    rewrite process_subject_step_world.
    eapply processSubject_decides; eauto.
  - intros acc x y w0 Hy units0 u0 Hunits0 Hu0.
    eapply decided_grows; [apply process_subject_step_grows | eauto].
Qed.

Lemma session_accounted_grows site p p' s :
  grows p p' -> session_accounted site p s -> session_accounted site p' s.
Proof.
  intros Hgrows Hp subjects subject units u H1 H2 H3 H4.
  eapply decided_grows; [exact Hgrows | eauto].
Qed.

Lemma session_flagged_grows p p' s :
  grows p p' -> session_flagged p s = true -> session_flagged p' s = true.
Proof. intros (_ & _ & H). apply H. Qed.


(** *** Running a computation step by step *)

Lemma run_ask {A B : Type} (f : Progress.t -> A) (k : A -> M world B) w :
  bind (ask f) k w = k (f (tracker w)) w.
Proof. reflexivity. Qed.

Lemma run_log {B : Type} c (k : unit -> M world B) w :
  bind (log c) k w = k tt (add_call c w).
Proof. reflexivity. Qed.

Lemma run_with_tracker {B : Type} f (k : unit -> M world B) w :
  bind (with_tracker f) k w = k tt (set_tracker f w).
Proof. reflexivity. Qed.

Lemma run_save {B : Type} (k : unit -> M world B) w :
  bind (save writable) k w = k tt (saved w).
Proof. reflexivity. Qed.

Lemma run_lift_ok {A B : Type} (a : A) (k : A -> M world B) w :
  bind (lift (Ok a)) k w = k a w.
Proof. reflexivity. Qed.

Lemma run_lift_throw {A B : Type} e (k : A -> M world B) w :
  bind (lift (Throw e)) k w = (Throw e, w).
Proof. reflexivity. Qed.

Lemma run_ret {A B : Type} (a : A) (k : A -> M world B) w :
  bind (ret a) k w = k a w.
Proof. reflexivity. Qed.

Lemma save_saved w : save writable w = (Ok tt, saved w).
Proof. reflexivity. Qed.

(** The state behind a sequence whose first part does not throw. *)
Lemma run_bind {A B : Type} (m : M world A) (k : A -> M world B) w :
  never_throws m ->
  exists a, fst (m w) = Ok a /\ bind m k w = k a (snd (m w)).
Proof.
  intros Hm. destruct (Hm w) as [a Ha]. exists a. split; [exact Ha|].
  unfold bind. destruct (m w) as [r w']. simpl in Ha. now subst r.
Qed.

Lemma process_session_step_accounts site sessions n s w :
  session_flagged (tracker w) s = false ->
  session_accounted site
    (tracker (snd (process_session_step writable site sessions n s w))) s.
Proof.
  intros Hflag. unfold process_session_step. rewrite run_ask.
  fold (session_flagged (tracker w) s). rewrite Hflag.
  rewrite snd_try_catch_ret, run_log.
  destruct (subjectsOf site s) as [subjects|e] eqn:Hsubjects.
  2:{ intros subjects subject units u H. rewrite run_lift_throw in *. congruence. }
  rewrite run_lift_ok, run_with_tracker, run_save.
  set (w1 := saved _). clearbody w1.
  set (filtered := List.filter shouldProcessSubject subjects).
  match goal with |- context [bind (for_of ?l ?acc ?body) ?k ?w] =>
    destruct (run_bind (for_of l acc body) k w) as (counts & _ & ->);
      [apply never_throws_for_of, process_subject_step_never_throws|]
  end.
  set (w2 := snd (for_of filtered _ _ w1)).
  assert (session_accounted site (tracker w2) s) as Hw2.
  { intros subjects' subject units u Heq Hsubject Hunits Hu.
    rewrite Hsubjects in Heq. injection Heq as <-.
    eapply subjects_loop_decides; eauto. }
  clearbody w2. revert Hw2. apply session_accounted_grows.
  match goal with |- grows (tracker ?w) (tracker (snd (?m ?w))) =>
    cut (preserves world_grows m); [intros H; apply H|]
  end.
  repeat grows_step.
Qed.

Lemma process_session_step_never_throws site sessions acc s :
  never_throws (process_session_step writable site sessions acc s).
Proof.
  intros w. unfold process_session_step. rewrite run_ask.
  destruct (ProgressTracker.isSessionCompleted _ _ _); [now eexists|].
  apply never_throws_try_catch. intros e w1. now eexists.
Qed.

Lemma sessions_loop_accounts site sessions l n w s :
  s ∈ l ->
  let w' := snd (for_of l n (process_session_step writable site sessions) w) in
  session_flagged (tracker w') s = true \/
  session_accounted site (tracker w') s.
Proof.
  intros Hs.
  refine (for_of_establishes (process_session_step writable site sessions)
            (fun s w =>
               session_flagged (tracker w) s = true \/
               session_accounted site (tracker w) s) _ _ _ l n w s Hs).
  - apply process_session_step_never_throws.
  - intros acc x w0.
    destruct (session_flagged
                (tracker (snd (process_session_step writable site sessions acc x w0))) x)
      eqn:Hafter; [now left|]. right.
    apply process_session_step_accounts.
    destruct (session_flagged (tracker w0) x) eqn:Hbefore; [|reflexivity].
    rewrite <- Hafter. symmetry.
    eapply session_flagged_grows; [apply process_session_step_grows | exact Hbefore].
  - intros acc x y w0 [Hy|Hy].
    + left. eapply session_flagged_grows; [|exact Hy].
      apply process_session_step_grows.
    + right. eapply session_accounted_grows; [|exact Hy].
      apply process_session_step_grows.
Qed.

(** *** A run on a ledger that has decided every unit *)

Lemma run_bind_assoc {A B C : Type} (m : M world A) (k1 : A -> M world B)
    (k2 : B -> M world C) w :
  bind (bind m k1) k2 w = bind m (fun a => bind (k1 a) k2) w.
Proof. unfold bind. now destruct (m w) as [[a|e] w']. Qed.















(** *** The counter [totalSessions] during a run *)

Lemma keeps_total_refl n w : keeps_total n w w.
Proof. intros H. exact H. Qed.

Lemma keeps_total_trans n w1 w2 w3 :
  keeps_total n w1 w2 -> keeps_total n w2 w3 -> keeps_total n w1 w3.
Proof. unfold keeps_total. auto. Qed.

Lemma with_tracker_keeps_total n f :
  (forall p,
     Stats.totalSessions (Progress.stats (f p))
     = Stats.totalSessions (Progress.stats p)) ->
  preserves (keeps_total n) (with_tracker f).
Proof. intros Hf w Hw. simpl. now rewrite Hf. Qed.

Lemma markAsCompleted_total p q s subject u :
  Stats.totalSessions
    (Progress.stats (ProgressTracker.markAsCompleted p q s subject u))
  = Stats.totalSessions (Progress.stats p).
Proof. unfold ProgressTracker.markAsCompleted. now case_bool_decide. Qed.

Lemma markAsFailed_total p q s subject u e :
  Stats.totalSessions
    (Progress.stats (ProgressTracker.markAsFailed p q s subject u e))
  = Stats.totalSessions (Progress.stats p).
Proof. unfold ProgressTracker.markAsFailed. now case_bool_decide. Qed.

Lemma markSessionAsCompleted_total p q s :
  Stats.totalSessions
    (Progress.stats (ProgressTracker.markSessionAsCompleted p q s))
  = Stats.totalSessions (Progress.stats p).
Proof. unfold ProgressTracker.markSessionAsCompleted. now case_bool_decide. Qed.

Lemma updateStats_keeps_total n a b :
  preserves (keeps_total n)
    (with_tracker (fun p => ProgressTracker.updateStats p n a b)).
Proof. intros w _. reflexivity. Qed.

Ltac total_step n :=
  first
    [ apply updateStats_keeps_total
    | apply with_tracker_keeps_total; intros;
      first [ apply markAsCompleted_total | apply markAsFailed_total
            | apply markSessionAsCompleted_total ]
    | match goal with
      | |- preserves _ (save _) => intros ? ?; assumption
      | |- preserves _ (log _) => intros ? ?; assumption
      | |- preserves _ now => intros ? ?; assumption
      end
    | preserves_step (keeps_total_refl n) (keeps_total_trans n) ].

Lemma process_unit_step_keeps_total n site q s subject acc u :
  preserves (keeps_total n) (process_unit_step writable site q s subject acc u).
Proof.
  unfold process_unit_step, processUnit, saveData. repeat total_step n.
Qed.

Lemma processSubject_keeps_total n site q s subject :
  preserves (keeps_total n) (processSubject writable site q s subject).
Proof.
  intros w. unfold processSubject. rewrite run_log.
  destruct (unitsOf site s subject) as [units|e];
    [|rewrite run_lift_throw; intros H; exact H].
  rewrite run_lift_ok, run_ask, run_with_tracker, run_save.
  match goal with |- keeps_total _ _ (snd (?m ?w1)) =>
    apply (keeps_total_trans n w w1); [intros H; exact H|];
    cut (preserves (keeps_total n) m); [intros H; apply H|]
  end.
  repeat first [apply process_unit_step_keeps_total | total_step n].
Qed.

Lemma process_session_step_keeps_total site sessions acc s :
  preserves (keeps_total (Z.of_nat (length sessions)))
    (process_session_step writable site sessions acc s).
Proof.
  unfold process_session_step, process_subject_step.
  repeat first [apply processSubject_keeps_total
               | total_step (Z.of_nat (length sessions))].
Qed.

(** *** The run as a whole *)

Lemma initialize_ok w :
  initialize writable w =
    (Ok tt,
     match ledger_file w with
     | Document d => set_tracker (fun _ => ProgressTracker.load d) w
     | _ => saved w
     end).
Proof. unfold initialize, bind, get. now destruct (ledger_file w). Qed.

(** The state a run ends in, given the sessions the site lists. *)
Lemma scrape_sessions_ok site w l :
  sessionsList site = Ok l ->
  let sessions := List.filter (JS.test_anchored session_re) l in
  (length sessions =? 0)%nat = false ->
  let w' :=
    saved
      (snd (for_of sessions 0 (process_session_step writable site sessions)
              (saved
                 (set_tracker
                    (fun p =>
                       ProgressTracker.updateStats p
                         (Z.of_nat (length sessions)) 0 0) w)))) in
  scrape_sessions writable site w = (Ok (ProgressTracker.getSummary (tracker w')), w').
Proof.
  intros Hl sessions Hlen w'. unfold scrape_sessions.
  rewrite Hl, run_lift_ok. fold sessions. rewrite Hlen.
  rewrite run_with_tracker, run_save.
  match goal with |- context [bind (for_of ?l ?acc ?body) ?k ?w] =>
    destruct (run_bind (for_of l acc body) k w) as (total & _ & ->)
  end.
  - apply never_throws_for_of, process_session_step_never_throws.
  - rewrite run_save. reflexivity.
Qed.

Lemma scrape_sessions_throws site w :
  match sessionsList site with
  | Throw e => True
  | Ok l => (length (List.filter (JS.test_anchored session_re) l) =? 0)%nat = true
  end ->
  exists e, fst (scrape_sessions writable site w) = Throw e.
Proof.
  unfold scrape_sessions. destruct (sessionsList site) as [l|e]; intros H.
  - rewrite run_lift_ok, H. eexists. reflexivity.
  - rewrite run_lift_throw. eexists. reflexivity.
Qed.

(** The state a completed run ends in. *)
Lemma completed_run site file date1 ticks1 summary w :
  scrapeSeries writable site (start file date1 ticks1) = (Ok summary, w) ->
  exists l,
    sessionsList site = Ok l /\
    let sessions := List.filter (JS.test_anchored session_re) l in
    (length sessions =? 0)%nat = false /\
    summary = ProgressTracker.getSummary (tracker w) /\
    ledger_file w = Document (stringify (tracker w)) /\
    Stats.totalSessions (Progress.stats (tracker w))
      = Z.of_nat (length sessions) /\
    forall s, s ∈ sessions ->
      session_flagged (tracker w) s = true \/
      session_accounted site (tracker w) s.
Proof.
  unfold scrapeSeries. rewrite run_with_tracker.
  unfold bind. rewrite initialize_ok.
  set (w0 := match ledger_file _ with Document _ => _ | _ => _ end).
  clearbody w0. intros Hrun.
  destruct (sessionsList site) as [l|e] eqn:Hl.
  2:{ destruct (scrape_sessions_throws site w0) as [e' He'];
        [now rewrite Hl | rewrite Hrun in He'; discriminate]. }
  exists l. split; [reflexivity|].
  set (sessions := List.filter (JS.test_anchored session_re) l).
  destruct (length sessions =? 0)%nat eqn:Hlen.
  { destruct (scrape_sessions_throws site w0) as [e' He'];
      [now rewrite Hl | rewrite Hrun in He'; discriminate]. }
  split; [reflexivity|].
  rewrite (scrape_sessions_ok site w0 l Hl Hlen) in Hrun.
  injection Hrun as <- <-. fold sessions.
  split; [reflexivity|]. split; [reflexivity|]. split.
  - change (tracker (saved ?w1)) with (stamp (tracker w1) (date w1 (ticks w1))).
    change (Progress.stats (stamp ?p _)) with (Progress.stats p).
    refine (preserves_for_of (keeps_total (Z.of_nat (length sessions)))
              (keeps_total_refl _) (keeps_total_trans _)
              (process_session_step writable site sessions)
              (process_session_step_keeps_total site sessions)
              sessions 0 _ _).
    reflexivity.
  - intros s Hs.
    destruct (sessions_loop_accounts site sessions sessions 0
                (saved
                   (set_tracker
                      (fun p =>
                         ProgressTracker.updateStats p
                           (Z.of_nat (length sessions)) 0 0) w0)) s Hs)
      as [H|H]; [left | right].
    + exact H.
    + exact H.
Qed.




(** C1, on the code.  On [site_no_tabs] the only unit of the session is
    marked failed by [processUnit], which returns [false]; the unit is not
    counted as processed, so the run ends with every discovered unit in the
    failed set and the session not flagged.  The second run meets the unit
    in the failed set, counts it, and flags the session. *)
Theorem failed_unit_leaves_session_unflagged :
  (exists summary, fst no_tabs_run = Ok summary) /\
  session_accounted site_no_tabs (tracker (snd no_tabs_run)) "June 2019" /\
  ProgressTracker.hasFailed (tracker (snd no_tabs_run)) QUALIFICATION_TYPE
    "June 2019" "Physics" "WPH01" = true /\
  session_flagged (tracker (snd no_tabs_run)) "June 2019" = false /\
  Stats.completedSessions (Progress.stats (tracker (snd no_tabs_run))) = 0 /\
  session_flagged (tracker (snd no_tabs_rerun)) "June 2019" = true.
Proof.
  assert (session_flagged (tracker (snd no_tabs_run)) "June 2019" = false)
    as Hflag by (vm_compute; reflexivity).
  split; [vm_compute; eauto|]. split.
  - destruct (fst no_tabs_run) as [summary|e] eqn:Hrun;
      [|vm_compute in Hrun; discriminate].
    destruct (completed_run site_no_tabs NoFile example_date 0 summary
                (snd no_tabs_run)) as (l & [= <-] & _ & _ & _ & _ & Hall).
    { rewrite <- Hrun. apply surjective_pairing. }
    destruct (Hall "June 2019") as [H|H]; [|congruence|exact H].
    vm_compute. apply list_elem_of_here.
  - split; [vm_compute; reflexivity|]. split; [exact Hflag|].
    split; vm_compute; reflexivity.
Qed.

(** *** A session is flagged only after full accounting *)

Lemma same_flags_refl w : same_flags w w.
Proof. reflexivity. Qed.

Lemma same_flags_trans w1 w2 w3 :
  same_flags w1 w2 -> same_flags w2 w3 -> same_flags w1 w3.
Proof. unfold same_flags. congruence. Qed.

Lemma with_tracker_same_flags f :
  (forall p, Progress.completedSessions (f p) = Progress.completedSessions p) ->
  preserves same_flags (with_tracker f).
Proof. intros Hf w. apply Hf. Qed.

Lemma markAsCompleted_flags p q s subject u :
  Progress.completedSessions (ProgressTracker.markAsCompleted p q s subject u)
  = Progress.completedSessions p.
Proof. unfold ProgressTracker.markAsCompleted. now case_bool_decide. Qed.

Lemma markAsFailed_flags p q s subject u e :
  Progress.completedSessions (ProgressTracker.markAsFailed p q s subject u e)
  = Progress.completedSessions p.
Proof. unfold ProgressTracker.markAsFailed. now case_bool_decide. Qed.

Ltac flags_step :=
  first
    [ apply with_tracker_same_flags; intros;
      first [ apply markAsCompleted_flags | apply markAsFailed_flags
            | reflexivity ]
    | match goal with
      | |- preserves _ (save _) => intros ?; reflexivity
      | |- preserves _ (log _) => intros ?; reflexivity
      | |- preserves _ now => intros ?; reflexivity
      end
    | preserves_step same_flags_refl same_flags_trans ].

Lemma process_subject_step_same_flags site s counts subject :
  preserves same_flags (process_subject_step writable site s counts subject).
Proof.
  unfold process_subject_step, processSubject, process_unit_step, processUnit,
    saveData.
  repeat flags_step.
Qed.

Lemma session_flagged_same_flags w w' s :
  same_flags w w' ->
  session_flagged (tracker w') s = session_flagged (tracker w) s.
Proof.
  unfold same_flags, session_flagged, ProgressTracker.isSessionCompleted.
  now intros ->.
Qed.

Lemma session_flagged_mark p s s' :
  session_flagged
    (ProgressTracker.markSessionAsCompleted p QUALIFICATION_TYPE s) s' = true ->
  s' = s \/ session_flagged p s' = true.
Proof.
  unfold session_flagged, ProgressTracker.isSessionCompleted,
    ProgressTracker.markSessionAsCompleted.
  case_bool_decide as Hin; simpl; rewrite lookup_insert_eq;
    intros H%bool_decide_eq_true.
  - right. destruct (Progress.completedSessions p !! QUALIFICATION_TYPE);
      simpl in *; [now apply bool_decide_eq_true | now apply elem_of_nil in H].
  - apply elem_of_app in H as [H|H%list_elem_of_singleton]; [right | now left].
    destruct (Progress.completedSessions p !! QUALIFICATION_TYPE);
      simpl in *; [now apply bool_decide_eq_true | now apply elem_of_nil in H].
Qed.

(** A pass of the session loop flags no session but its own. *)
Lemma process_session_step_flag_frame site sessions n x w s :
  session_flagged (tracker (snd (process_session_step writable site sessions n x w))) s
    = true ->
  s = x \/ session_flagged (tracker w) s = true.
Proof.
  unfold process_session_step. rewrite run_ask.
  destruct (ProgressTracker.isSessionCompleted _ _ _); [now right|].
  rewrite snd_try_catch_ret, run_log.
  destruct (subjectsOf site x) as [subjects|e];
    [|rewrite run_lift_throw; now right].
  rewrite run_lift_ok, run_with_tracker, run_save.
  match goal with |- context [bind (for_of ?l ?acc ?body) ?k ?w] =>
    destruct (run_bind (for_of l acc body) k w) as (counts & _ & ->);
      [apply never_throws_for_of, process_subject_step_never_throws|];
    pose proof (preserves_for_of same_flags same_flags_refl same_flags_trans
                  body (process_subject_step_same_flags site x) l acc w)
      as Hloop
  end.
  apply session_flagged_same_flags with (s := s) in Hloop.
  change (session_flagged (tracker (saved (set_tracker _ (add_call _ w)))) s)
    with (session_flagged (tracker w) s) in Hloop.
  rewrite <- Hloop. clear Hloop.
  match goal with |- context [for_of ?l ?acc ?body ?w] =>
    generalize (snd (for_of l acc body w))
  end.
  intros w1. destruct counts as [total processed].
  destruct ((0 <? total) && (processed =? total)); [|now right].
  rewrite run_bind_assoc, run_with_tracker, run_save.
  apply session_flagged_mark.
Qed.

(** A session the loop flagged has every discovered unit decided. *)
Lemma sessions_loop_flags site sessions l : forall n w s,
  let w' := snd (for_of l n (process_session_step writable site sessions) w) in
  session_flagged (tracker w') s = true ->
  session_flagged (tracker w) s = true \/
  session_accounted site (tracker w') s.
Proof.
  induction l as [|x l IH]; intros n w s; [now left|].
  simpl.
  destruct (run_bind (process_session_step writable site sessions n x)
              (fun n' => for_of l n' (process_session_step writable site sessions)) w)
    as (n' & _ & ->); [apply process_session_step_never_throws|].
  set (w1 := snd (process_session_step writable site sessions n x w)).
  intros Hflag. destruct (IH n' w1 s Hflag) as [Hw1|Hacc]; [|now right].
  destruct (session_flagged (tracker w) s) eqn:Hw; [now left|]. right.
  destruct (process_session_step_flag_frame _ _ _ _ _ _ Hw1) as [->|H];
    [|congruence].
  eapply session_accounted_grows;
    [|apply (process_session_step_accounts site sessions n x w Hw)].
  apply (preserves_for_of world_grows world_grows_refl world_grows_trans
           (process_session_step writable site sessions)
           (process_session_step_grows site sessions)).
Qed.

(** A session that a run flags has all its units decided: when the ledger
    the run starts from does not flag [s] and the ledger it ends with does,
    every unit the site lists under [s] is in the completed or in the failed
    set at the end of the run. *)
Theorem flagged_session_is_accounted
    (site : page) (file : file_state) (date1 : nat -> string) (ticks1 : nat)
    (summary : Summary.t) (w : world) (s : string) :
  scrapeSeries writable site (start file date1 ticks1) = (Ok summary, w) ->
  match file with
  | Document d => session_flagged (ProgressTracker.load d) s = false
  | _ => True
  end ->
  session_flagged (tracker w) s = true ->
  session_accounted site (tracker w) s.
Proof.
  unfold scrapeSeries. rewrite run_with_tracker.
  unfold bind. rewrite initialize_ok.
  change (ledger_file (set_tracker _ (start ?f _ _))) with f.
  set (w0 := match file with Document _ => _ | _ => _ end).
  intros Hrun Hfile.
  assert (session_flagged (tracker w0) s = false) as Hw0.
  { subst w0. destruct file; [reflexivity | reflexivity | exact Hfile]. }
  clearbody w0.
  destruct (sessionsList site) as [l|e] eqn:Hl.
  2:{ destruct (scrape_sessions_throws site w0) as [e' He'];
        [now rewrite Hl | rewrite Hrun in He'; discriminate]. }
  set (sessions := List.filter (JS.test_anchored session_re) l).
  destruct (length sessions =? 0)%nat eqn:Hlen.
  { destruct (scrape_sessions_throws site w0) as [e' He'];
      [now rewrite Hl | rewrite Hrun in He'; discriminate]. }
  rewrite (scrape_sessions_ok site w0 l Hl Hlen) in Hrun.
  injection Hrun as _ <-. fold sessions.
  set (wstart := saved (set_tracker _ w0)).
  intros Hflag.
  destruct (sessions_loop_flags site sessions sessions 0 wstart s Hflag)
    as [H|H].
  - change (session_flagged (tracker wstart) s)
      with (session_flagged (tracker w0) s) in H. congruence.
  - exact H.
Qed.

(** The run on [site_june] flags the session, so that its second unit is
    decided at the end. *)
Lemma flagged_session_is_accounted_witness :
  decided (tracker (snd june_run)) "June 2019" "Physics" "WPH02" = true.
Proof.
  refine (flagged_session_is_accounted site_june NoFile example_date 0
            (ProgressTracker.getSummary (tracker (snd june_run)))
            (snd june_run) "June 2019" _ _ _
            ["Physics"] "Physics" ["WPH01"; "WPH02"] "WPH02" _ _ _ _).
  - vm_compute. reflexivity.
  - exact I.
  - vm_compute. reflexivity.
  - reflexivity.
  - vm_compute. apply list_elem_of_here.
  - reflexivity.
  - apply list_elem_of_further, list_elem_of_here.
Defined.

(** ** The score table *)

Lemma insert_row_perm x l : insert_row x l ≡ₚ x :: l.
Proof.
  induction l as [|y l IH]; [reflexivity|]. simpl.
  destruct (UMS y <? UMS x); [reflexivity|].
  rewrite IH. apply Permutation_swap.
Qed.

Lemma insert_row_descending x l : descending l -> descending (insert_row x l).
Proof.
  unfold descending.
  induction 1 as [|y l Hl IH Hy]; simpl; [repeat constructor|].
  destruct (Z.ltb_spec (UMS y) (UMS x)) as [Hlt|Hge].
  - constructor; [now constructor|].
    constructor; [lia|]. eapply Forall_impl; [exact Hy|]. simpl. lia.
  - constructor; [exact IH|].
    rewrite insert_row_perm. now constructor.
Qed.

Lemma filter_key_none k l :
  Forall (fun r => UMS r <> k) l -> List.filter (fun r => UMS r =? k) l = [].
Proof.
  induction 1 as [|y l Hy _ IH]; [reflexivity|]. simpl.
  now destruct (Z.eqb_spec (UMS y) k).
Qed.

Lemma insert_row_filter k x l :
  descending l ->
  List.filter (fun r => UMS r =? k) (insert_row x l)
  = List.filter (fun r => UMS r =? k) l
      ++ List.filter (fun r => UMS r =? k) [x].
Proof.
  unfold descending.
  induction 1 as [|y l Hl IH Hy]; [reflexivity|]. cbn [insert_row].
  destruct (Z.ltb_spec (UMS y) (UMS x)) as [Hlt|Hge].
  - change (x :: y :: l) with ([x] ++ y :: l). rewrite List.filter_app.
    destruct (Z.eqb_spec (UMS x) k) as [Hk|Hk].
    + rewrite (filter_key_none k (y :: l)); [now rewrite app_nil_r|].
      constructor; [lia|]. eapply Forall_impl; [exact Hy|]. simpl. lia.
    + rewrite (filter_key_none k [x]); [now rewrite app_nil_r|].
      now repeat constructor.
  - cbn [List.filter]. rewrite IH.
    now destruct (UMS y =? k).
Qed.

Lemma sort_rows_from acc l :
  descending acc ->
  let sorted := fold_left (fun sorted x => insert_row x sorted) l acc in
  descending sorted /\
  sorted ≡ₚ acc ++ l /\
  forall k,
    List.filter (fun r => UMS r =? k) sorted
    = List.filter (fun r => UMS r =? k) (acc ++ l).
Proof.
  revert acc. induction l as [|x l IH]; intros acc Hacc; simpl.
  - rewrite app_nil_r. auto.
  - destruct (IH (insert_row x acc) (insert_row_descending x acc Hacc))
      as (Hs & Hp & Hf).
    split; [exact Hs|]. split.
    + rewrite Hp, insert_row_perm. simpl. apply Permutation_middle.
    + intros k. rewrite Hf, !List.filter_app, insert_row_filter by exact Hacc.
      rewrite <- app_assoc. f_equal.
      change (x :: l) with ([x] ++ l). now rewrite List.filter_app.
Qed.

(** [processData] returns the rows it was given, by descending UMS; rows of
    equal UMS keep the order they were extracted in.  An extraction error
    gives no rows. *)
Theorem processData_sorts_by_UMS :
  (forall rows,
     let data := processData (RawRows rows) in
     data ≡ₚ rows /\
     descending data /\
     forall k,
       List.filter (fun r => UMS r =? k) data
       = List.filter (fun r => UMS r =? k) rows) /\
  (forall error, processData (RawError error) = []).
Proof.
  split; [|reflexivity]. intros rows.
  destruct (sort_rows_from [] rows) as (Hs & Hp & Hf); [constructor|].
  repeat split; assumption.
Qed.

(** ** Queries after a mark *)

Lemma includes_push_iff l q s subject u q' s' subject' u' :
  match
    ProgressTracker.units_of
      (ProgressTracker.set_units l q s subject
         (default [] (ProgressTracker.units_of l q s subject) ++ [u]))
      q' s' subject'
  with
  | Some units => bool_decide (u' ∈ units)
  | None => false
  end
  = bool_decide ((q, s, subject, u) = (q', s', subject', u')) ||
    match ProgressTracker.units_of l q' s' subject' with
    | Some units => bool_decide (u' ∈ units)
    | None => false
    end.
Proof.
  destruct (decide ((q, s, subject) = (q', s', subject'))) as [[= <- <- <-]|Hne].
  - rewrite units_of_set_units.
    destruct (ProgressTracker.units_of l q s subject) as [units|]; simpl.
    + apply eq_true_iff_eq. rewrite orb_true_iff, !bool_decide_eq_true.
      rewrite elem_of_app, list_elem_of_singleton. split.
      * intros [H | ->]; [now right | now left].
      * intros [[= ->] | H]; [now right | now left].
    + apply eq_true_iff_eq. rewrite orb_true_iff, !bool_decide_eq_true.
      rewrite list_elem_of_singleton. split.
      * intros ->. now left.
      * intros [[= ->] | H]; [reflexivity | discriminate].
  - rewrite units_of_set_units_other by exact Hne.
    rewrite bool_decide_eq_false_2; [reflexivity|]. intros [= -> -> -> ->].
    now apply Hne.
Qed.

Lemma markAsCompleted_queries p q s subject u q' s' subject' u' :
  let p' := ProgressTracker.markAsCompleted p q s subject u in
  (ProgressTracker.isCompleted p' q' s' subject' u'
   = bool_decide ((q, s, subject, u) = (q', s', subject', u')) ||
     ProgressTracker.isCompleted p q' s' subject' u') /\
  ProgressTracker.hasFailed p' q' s' subject' u'
  = ProgressTracker.hasFailed p q' s' subject' u' /\
  ProgressTracker.isSessionCompleted p' q' s'
  = ProgressTracker.isSessionCompleted p q' s'.
Proof.
  cbv zeta. repeat match goal with |- _ /\ _ => split end.
  - destruct (ProgressTracker.isCompleted p q s subject u) eqn:E.
    + rewrite markAsCompleted_seen by exact E.
      case_bool_decide as Hk; [|reflexivity]. injection Hk as <- <- <- <-.
      exact E.
    + rewrite markAsCompleted_new by exact E.
      unfold ProgressTracker.isCompleted. simpl. apply includes_push_iff.
  - unfold ProgressTracker.markAsCompleted. now case_bool_decide.
  - unfold ProgressTracker.markAsCompleted. now case_bool_decide.
Qed.

Lemma markAsFailed_queries p q s subject u error q' s' subject' u' :
  let p' := ProgressTracker.markAsFailed p q s subject u error in
  (ProgressTracker.hasFailed p' q' s' subject' u'
   = bool_decide ((q, s, subject, u) = (q', s', subject', u')) ||
     ProgressTracker.hasFailed p q' s' subject' u') /\
  ProgressTracker.isCompleted p' q' s' subject' u'
  = ProgressTracker.isCompleted p q' s' subject' u' /\
  ProgressTracker.isSessionCompleted p' q' s'
  = ProgressTracker.isSessionCompleted p q' s'.
Proof.
  cbv zeta. repeat match goal with |- _ /\ _ => split end.
  - destruct (ProgressTracker.hasFailed p q s subject u) eqn:E.
    + rewrite markAsFailed_seen by exact E.
      case_bool_decide as Hk; [|reflexivity]. injection Hk as <- <- <- <-.
      exact E.
    + rewrite markAsFailed_new by exact E.
      unfold ProgressTracker.hasFailed. simpl. apply includes_push_iff.
  - unfold ProgressTracker.markAsFailed. now case_bool_decide.
  - unfold ProgressTracker.markAsFailed. now case_bool_decide.
Qed.

Lemma markSessionAsCompleted_queries p q s q' s' subject' u' :
  let p' := ProgressTracker.markSessionAsCompleted p q s in
  (ProgressTracker.isSessionCompleted p' q' s'
   = bool_decide ((q, s) = (q', s')) ||
     ProgressTracker.isSessionCompleted p q' s') /\
  ProgressTracker.isCompleted p' q' s' subject' u'
  = ProgressTracker.isCompleted p q' s' subject' u' /\
  ProgressTracker.hasFailed p' q' s' subject' u'
  = ProgressTracker.hasFailed p q' s' subject' u'.
Proof.
  cbv zeta. repeat match goal with |- _ /\ _ => split end.
  - unfold ProgressTracker.isSessionCompleted,
      ProgressTracker.markSessionAsCompleted.
    destruct (decide (q = q')) as [<-|Hq].
    + assert (match Progress.completedSessions p !! q with
              | Some sessions => bool_decide (s' ∈ sessions)
              | None => false
              end
              = bool_decide
                  (s' ∈ default [] (Progress.completedSessions p !! q))) as ->.
      { destruct (Progress.completedSessions p !! q); [reflexivity|].
        symmetry. apply bool_decide_eq_false_2, not_elem_of_nil. }
      generalize (default [] (Progress.completedSessions p !! q)).
      intros sessions.
      case_bool_decide as Hin; cbn [Progress.completedSessions];
        rewrite lookup_insert_eq; apply eq_true_iff_eq;
        rewrite orb_true_iff, !bool_decide_eq_true, ?elem_of_app,
          ?list_elem_of_singleton.
      * split; [now right|]. intros [[= ->] | H]; assumption.
      * split; [intros [H | ->]; [now right | now left]|].
        intros [[= ->] | H]; [now right | now left].
    + rewrite (bool_decide_eq_false_2 ((q, s) = (q', s')))
        by (intros [= -> ->]; now apply Hq).
      case_bool_decide; simpl; now rewrite lookup_insert_ne.
  - unfold ProgressTracker.markSessionAsCompleted. now case_bool_decide.
  - unfold ProgressTracker.markSessionAsCompleted. now case_bool_decide.
Qed.

(** A mark adds its own key and nothing else: after [markAsCompleted],
    [markAsFailed] or [markSessionAsCompleted] the query of the same kind
    answers [true] for the marked key and as before for every other key,
    and the queries of the other two kinds answer as before.  The keys are
    such that the objects of the ledger behave as maps on them. *)
Theorem marks_add_their_key_only (p : Progress.t)
    (q s subject u error q' s' subject' u' : string) :
  own_keys [q; s; subject; q'; s'; subject'] = true ->
  let completed := ProgressTracker.markAsCompleted p q s subject u in
  let failed := ProgressTracker.markAsFailed p q s subject u error in
  let flagged := ProgressTracker.markSessionAsCompleted p q s in
  (ProgressTracker.isCompleted completed q' s' subject' u'
   = bool_decide ((q, s, subject, u) = (q', s', subject', u')) ||
     ProgressTracker.isCompleted p q' s' subject' u') /\
  ProgressTracker.hasFailed completed q' s' subject' u'
  = ProgressTracker.hasFailed p q' s' subject' u' /\
  ProgressTracker.isSessionCompleted completed q' s'
  = ProgressTracker.isSessionCompleted p q' s' /\
  (ProgressTracker.hasFailed failed q' s' subject' u'
   = bool_decide ((q, s, subject, u) = (q', s', subject', u')) ||
     ProgressTracker.hasFailed p q' s' subject' u') /\
  ProgressTracker.isCompleted failed q' s' subject' u'
  = ProgressTracker.isCompleted p q' s' subject' u' /\
  ProgressTracker.isSessionCompleted failed q' s'
  = ProgressTracker.isSessionCompleted p q' s' /\
  (ProgressTracker.isSessionCompleted flagged q' s'
   = bool_decide ((q, s) = (q', s')) ||
     ProgressTracker.isSessionCompleted p q' s') /\
  ProgressTracker.isCompleted flagged q' s' subject' u'
  = ProgressTracker.isCompleted p q' s' subject' u' /\
  ProgressTracker.hasFailed flagged q' s' subject' u'
  = ProgressTracker.hasFailed p q' s' subject' u'.
Proof.
  intros _. cbv zeta.
  destruct (markAsCompleted_queries p q s subject u q' s' subject' u')
    as (H1 & H2 & H3).
  destruct (markAsFailed_queries p q s subject u error q' s' subject' u')
    as (H4 & H5 & H6).
  destruct (markSessionAsCompleted_queries p q s q' s' subject' u')
    as (H7 & H8 & H9).
  repeat split; assumption.
Qed.

(** On a new ledger, a mark of a second unit of a subject leaves the first
    unit completed and makes no unit failed. *)
Lemma marks_add_their_key_only_witness :
  ProgressTracker.isCompleted
    (ProgressTracker.markAsCompleted
       (ProgressTracker.markAsCompleted ProgressTracker.constructor
          QUALIFICATION_TYPE "June 2019" "Physics" "WPH01")
       QUALIFICATION_TYPE "June 2019" "Physics" "WPH02")
    QUALIFICATION_TYPE "June 2019" "Physics" "WPH01" = true /\
  ProgressTracker.hasFailed
    (ProgressTracker.markAsCompleted
       (ProgressTracker.markAsCompleted ProgressTracker.constructor
          QUALIFICATION_TYPE "June 2019" "Physics" "WPH01")
       QUALIFICATION_TYPE "June 2019" "Physics" "WPH02")
    QUALIFICATION_TYPE "June 2019" "Physics" "WPH01" = false.
Proof.
  destruct (marks_add_their_key_only
              (ProgressTracker.markAsCompleted ProgressTracker.constructor
                 QUALIFICATION_TYPE "June 2019" "Physics" "WPH01")
              QUALIFICATION_TYPE "June 2019" "Physics" "WPH02" "timeout"
              QUALIFICATION_TYPE "June 2019" "Physics" "WPH01" eq_refl)
    as (H1 & H2 & _).
  split.
  - exact (eq_trans H1 eq_refl).
  - exact (eq_trans H2 eq_refl).
Defined.

(** Marks are idempotent: a second identical mark leaves the ledger, the
    counters included, as the first one left it.  The keys are such that
    the objects of the ledger behave as maps on them. *)
Theorem marks_are_idempotent (p : Progress.t) (q s subject u error : string) :
  own_keys [q; s; subject] = true ->
  ProgressTracker.markAsCompleted
    (ProgressTracker.markAsCompleted p q s subject u) q s subject u
  = ProgressTracker.markAsCompleted p q s subject u /\
  ProgressTracker.markAsFailed
    (ProgressTracker.markAsFailed p q s subject u error) q s subject u error
  = ProgressTracker.markAsFailed p q s subject u error /\
  ProgressTracker.markSessionAsCompleted
    (ProgressTracker.markSessionAsCompleted p q s) q s
  = ProgressTracker.markSessionAsCompleted p q s.
Proof.
  intros _. split; [|split].
  - apply markAsCompleted_seen, isCompleted_markAsCompleted.
  - apply markAsFailed_seen, hasFailed_markAsFailed.
  - pose proof (isSessionCompleted_markSessionAsCompleted p q s) as H.
    revert H. generalize (ProgressTracker.markSessionAsCompleted p q s).
    intros p'. unfold ProgressTracker.isSessionCompleted,
      ProgressTracker.markSessionAsCompleted.
    destruct (Progress.completedSessions p' !! q) as [sessions|] eqn:Hs;
      [|discriminate].
    simpl. intros ->. rewrite insert_id by exact Hs. now destruct p'.
Qed.

(** Marking the first unit of a new ledger twice counts it once. *)
Lemma marks_are_idempotent_witness :
  Stats.completedUnits
    (Progress.stats
       (ProgressTracker.markAsCompleted
          (ProgressTracker.markAsCompleted ProgressTracker.constructor
             QUALIFICATION_TYPE "June 2019" "Physics" "WPH01")
          QUALIFICATION_TYPE "June 2019" "Physics" "WPH01")) = 1.
Proof.
  rewrite (proj1 (marks_are_idempotent ProgressTracker.constructor
                    QUALIFICATION_TYPE "June 2019" "Physics" "WPH01"
                    "timeout" eq_refl)).
  reflexivity.
Defined.

(** ** The counters against the sets *)

Lemma sum_map_empty {A : Type} (f : A -> Z) : sum_map f ∅ = 0.
Proof. apply map_fold_empty. Qed.

Lemma sum_map_insert {A : Type} (f : A -> Z) k v (m : gmap string A) :
  sum_map f (<[k:=v]> m) = sum_map f m - from_option f 0 (m !! k) + f v.
Proof.
  unfold sum_map. destruct (m !! k) as [x|] eqn:Hk; simpl.
  - rewrite <- insert_delete_eq.
    rewrite map_fold_insert_L; [|intros; lia|apply lookup_delete_eq].
    rewrite (map_fold_delete_L _ _ k x m); [lia|intros; lia|exact Hk].
  - rewrite map_fold_insert_L; [lia|intros; lia|exact Hk].
Qed.

Lemma ledger_size_set_units l q s subject units :
  ledger_size (ProgressTracker.set_units l q s subject units)
  = ledger_size l
    - Z.of_nat
        (length (default [] (ProgressTracker.units_of l q s subject)))
    + Z.of_nat (length units).
Proof.
  unfold ledger_size, ProgressTracker.set_units, ProgressTracker.units_of.
  rewrite !sum_map_insert.
  destruct (l !! q) as [sessions|]; simpl;
    [|repeat (rewrite ?sum_map_empty, ?lookup_empty; simpl); lia].
  destruct (sessions !! s) as [subjects|]; simpl;
    [|repeat (rewrite ?sum_map_empty, ?lookup_empty; simpl); lia].
  destruct (subjects !! subject); simpl; lia.
Qed.

Lemma ledger_nodup_push l q s subject u :
  ledger_nodup l ->
  u ∉ default [] (ProgressTracker.units_of l q s subject) ->
  ledger_nodup
    (ProgressTracker.set_units l q s subject
       (default [] (ProgressTracker.units_of l q s subject) ++ [u])).
Proof.
  intros Hl Hu q' s' subject' units.
  destruct (decide ((q, s, subject) = (q', s', subject'))) as [[= <- <- <-]|Hne].
  - rewrite units_of_set_units. intros [= <-].
    apply NoDup_app. split; [|split; [|apply NoDup_singleton]].
    + destruct (ProgressTracker.units_of l q s subject) eqn:E; simpl;
        [now apply (Hl _ _ _ _ E) | constructor].
    + now intros x Hx ->%list_elem_of_singleton.
  - rewrite units_of_set_units_other by exact Hne. apply Hl.
Qed.

Lemma counters_agree_constructor : counters_agree ProgressTracker.constructor.
Proof.
  constructor; try reflexivity; intros ?; intros; discriminate.
Qed.

Lemma markAsCompleted_agrees p q s subject u :
  counters_agree p ->
  counters_agree (ProgressTracker.markAsCompleted p q s subject u).
Proof.
  intros Hp. destruct (ProgressTracker.isCompleted p q s subject u) eqn:E.
  - now rewrite markAsCompleted_seen.
  - rewrite markAsCompleted_new by exact E.
    destruct Hp as [Hc Hf Hs Hcn Hfn Hsn].
    assert (u ∉ default []
              (ProgressTracker.units_of (Progress.completed p) q s subject))
      as Hu.
    { unfold ProgressTracker.isCompleted in E.
      destruct (ProgressTracker.units_of (Progress.completed p) q s subject);
        simpl; [now apply bool_decide_eq_false in E | apply not_elem_of_nil]. }
    constructor; simpl; auto.
    + rewrite ledger_size_set_units, length_app, Hc. simpl. lia.
    + now apply ledger_nodup_push.
Qed.

Lemma markAsFailed_agrees p q s subject u e :
  counters_agree p ->
  counters_agree (ProgressTracker.markAsFailed p q s subject u e).
Proof.
  intros Hp. destruct (ProgressTracker.hasFailed p q s subject u) eqn:E.
  - now rewrite markAsFailed_seen.
  - rewrite markAsFailed_new by exact E.
    destruct Hp as [Hc Hf Hs Hcn Hfn Hsn].
    assert (u ∉ default []
              (ProgressTracker.units_of (Progress.failed p) q s subject))
      as Hu.
    { unfold ProgressTracker.hasFailed in E.
      destruct (ProgressTracker.units_of (Progress.failed p) q s subject);
        simpl; [now apply bool_decide_eq_false in E | apply not_elem_of_nil]. }
    constructor; simpl; auto.
    + rewrite ledger_size_set_units, length_app, Hf. simpl. lia.
    + now apply ledger_nodup_push.
Qed.

Lemma markSessionAsCompleted_agrees p q s :
  counters_agree p ->
  counters_agree (ProgressTracker.markSessionAsCompleted p q s).
Proof.
  intros [Hc Hf Hs Hcn Hfn Hsn].
  unfold ProgressTracker.markSessionAsCompleted.
  assert (NoDup (default [] (Progress.completedSessions p !! q))) as Hnd.
  { destruct (Progress.completedSessions p !! q) eqn:E; simpl;
      [now apply (Hsn _ _ E) | constructor]. }
  assert (from_option (fun sessions : list string => Z.of_nat (length sessions))
            0 (Progress.completedSessions p !! q)
          = Z.of_nat (length (default [] (Progress.completedSessions p !! q))))
    as Hlen by now destruct (Progress.completedSessions p !! q).
  case_bool_decide as Hin; constructor; simpl; auto.
  - rewrite sum_map_insert, Hlen. lia.
  - intros q' sessions. destruct (decide (q = q')) as [<-|Hne].
    + rewrite lookup_insert_eq. now intros [= <-].
    + rewrite lookup_insert_ne by exact Hne. apply Hsn.
  - rewrite sum_map_insert, Hlen, length_app. simpl. lia.
  - intros q' sessions. destruct (decide (q = q')) as [<-|Hne].
    + rewrite lookup_insert_eq. intros [= <-].
      apply NoDup_app. split; [exact Hnd|]. split; [|apply NoDup_singleton].
      now intros x Hx ->%list_elem_of_singleton.
    + rewrite lookup_insert_ne by exact Hne. apply Hsn.
Qed.

Lemma updateStats_agrees p a b c :
  counters_agree p -> counters_agree (ProgressTracker.updateStats p a b c).
Proof. intros []. now constructor. Qed.

Lemma stamp_agrees p lastUpdate :
  counters_agree p -> counters_agree (stamp p lastUpdate).
Proof. intros []. now constructor. Qed.

Lemma keeps_agreement_refl w : keeps_agreement w w.
Proof. now intros H. Qed.

Lemma keeps_agreement_trans w1 w2 w3 :
  keeps_agreement w1 w2 -> keeps_agreement w2 w3 -> keeps_agreement w1 w3.
Proof. unfold keeps_agreement. auto. Qed.

Ltac agrees_step :=
  first
    [ match goal with
      | |- preserves _ (with_tracker _) =>
          intros ? ?; simpl;
          first [ now apply markAsCompleted_agrees
                | now apply markAsFailed_agrees
                | now apply markSessionAsCompleted_agrees
                | now apply updateStats_agrees ]
      | |- preserves _ (save _) => intros ? ?; now apply stamp_agrees
      | |- preserves _ (log _) => intros ? ?; assumption
      | |- preserves _ now => intros ? ?; assumption
      end
    | preserves_step keeps_agreement_refl keeps_agreement_trans ].

Lemma scrape_sessions_keeps_agreement site :
  preserves keeps_agreement (scrape_sessions writable site).
Proof.
  unfold scrape_sessions, process_session_step, process_subject_step,
    processSubject, process_unit_step, processUnit, saveData.
  repeat agrees_step.
Qed.

(** After a run the counters [completedUnits], [failedUnits] and
    [completedSessions] are the numbers of units and sessions the three
    sets of the ledger hold, and no unit or session is held twice,
    whatever the site answered and whether the run completed or threw:
    provided the ledger file, if there was one, held a ledger of which
    this is true. *)
Theorem counters_are_the_sizes (site : page) (file : file_state)
    (date1 : nat -> string) (ticks1 : nat) :
  match file with
  | Document d => counters_agree (ProgressTracker.load d)
  | _ => True
  end ->
  counters_agree
    (tracker (snd (scrapeSeries writable site (start file date1 ticks1)))).
Proof.
  intros Hfile. unfold scrapeSeries. rewrite run_with_tracker.
  unfold bind. rewrite initialize_ok.
  change (ledger_file (set_tracker _ (start ?f _ _))) with f.
  apply scrape_sessions_keeps_agreement.
  destruct file as [| |d]; simpl.
  - apply stamp_agrees, counters_agree_constructor.
  - apply stamp_agrees, counters_agree_constructor.
  - exact Hfile.
Qed.

Lemma counters_are_the_sizes_witness :
  counters_agree (tracker (snd june_run)).
Proof.
  exact (counters_are_the_sizes site_june NoFile example_date 0 I).
Defined.

(** ** What is saved is read back *)

(** [save] and [initialize] are inverse to each other: a tracker created
    on the ledger file a [save] left, and initialized, holds the state that
    was saved, with its [lastUpdate], and does not write the file. *)
Theorem saved_ledger_is_read_back (w : world) (date2 : nat -> string)
    (ticks2 : nat) :
  let w1 := snd (save writable w) in
  let r := initialize writable (start (ledger_file w1) date2 ticks2) in
  fst r = Ok tt /\
  tracker (snd r) = tracker w1 /\
  ledger_file (snd r) = ledger_file w1 /\
  calls (snd r) = [].
Proof.
  cbv zeta. rewrite save_saved, initialize_ok. cbn [snd fst].
  change (ledger_file (start ?f _ _)) with f.
  change (ledger_file (saved w))
    with (Document (stringify (tracker (saved w)))).
  cbv iota. repeat split. apply load_stringify.
Qed.

(** ** The run as a whole, again *)

(** A sequence throws what its first part throws, or what the second part
    throws behind the result of the first. *)
Lemma bind_throws {A B : Type} (m : M world A) (k : A -> M world B) w e :
  fst (bind m k w) = Throw e ->
  fst (m w) = Throw e \/
  exists a, fst (m w) = Ok a /\ fst (k a (snd (m w))) = Throw e.
Proof.
  unfold bind. destruct (m w) as [[a|e'] w']; simpl; intros H.
  - right. exists a. split; [reflexivity | exact H].
  - left. now injection H as ->.
Qed.

(** [save] throws the error of the write and nothing else. *)
Lemma save_throws fs w e :
  fst (save fs w) = Throw e -> fs (ticks w) = Throw e.
Proof.
  unfold save, bind, get, now, with_tracker, modify, throw. simpl.
  destruct (fs (ticks w)) as [[]|e']; simpl; congruence.
Qed.

Lemma initialize_throws fs w e :
  fst (initialize fs w) = Throw e -> fs (ticks w) = Throw e.
Proof.
  unfold initialize, bind, get.
  destruct (ledger_file w); try apply save_throws. discriminate.
Qed.

(** The [catch] of the session loop lets no error out, whatever the ledger
    path does. *)
Lemma process_session_step_catches fs site sessions acc s :
  never_throws (process_session_step fs site sessions acc s).
Proof.
  intros w. unfold process_session_step. rewrite run_ask.
  destruct (ProgressTracker.isSessionCompleted _ _ _); [now eexists|].
  apply never_throws_try_catch. intros e w1. now eexists.
Qed.

(** [scrapeSeries] throws the error of the listing of the sessions, the
    error ["No valid exam sessions found"] of a listing with no valid
    session label, or the error of a write of the ledger file, and nothing
    else: whatever the page throws below the listing is caught.  On a
    ledger path that can be written throughout it throws at the listing
    only, and in every other case the run completes with a summary.  The
    ledger file is absent, is not JSON or holds a ledger document. *)
Theorem scrapeSeries_throws_at_the_listing_only (site : page)
    (file : file_state) (date1 : nat -> string) (ticks1 : nat) :
  (forall (fs : disk) e,
     fst (scrapeSeries fs site (start file date1 ticks1)) = Throw e ->
     sessionsList site = Throw e \/
     (exists l,
        sessionsList site = Ok l /\
        List.filter (JS.test_anchored session_re) l = [] /\
        e = "No valid exam sessions found") \/
     exists n, fs n = Throw e) /\
  match sessionsList site with
  | Throw e =>
      fst (scrapeSeries writable site (start file date1 ticks1)) = Throw e
  | Ok l =>
      if (length (List.filter (JS.test_anchored session_re) l) =? 0)%nat
      then fst (scrapeSeries writable site (start file date1 ticks1))
           = Throw "No valid exam sessions found"
      else exists summary,
             fst (scrapeSeries writable site (start file date1 ticks1))
             = Ok summary
  end.
Proof.
  split.
  - intros fs e H. unfold scrapeSeries in H.
    apply bind_throws in H as [H | (? & _ & H)]; [discriminate|].
    apply bind_throws in H as [H | (? & _ & H)];
      [right; right; eexists; apply (initialize_throws _ _ _ H)|].
    unfold scrape_sessions in H.
    apply bind_throws in H as [H | (l & Hl & H)]; [now left|].
    right. cbn [lift fst snd] in Hl, H.
    destruct (List.filter (JS.test_anchored session_re) l) as [|s0 l0] eqn:Hf.
    + left. exists l. simpl in H. injection H as <-. auto.
    + right. cbn [length Nat.eqb] in H.
      apply bind_throws in H as [H | (? & _ & H)]; [discriminate|].
      apply bind_throws in H as [H | (? & _ & H)];
        [eexists; apply (save_throws _ _ _ H)|].
      apply bind_throws in H as [H | (? & _ & H)].
      { match type of H with
        | fst (for_of ?l1 ?acc ?body ?w1) = _ =>
            destruct (never_throws_for_of body
                        (process_session_step_catches fs site _) l1 acc w1)
              as [a Ha]
        end.
        rewrite Ha in H. discriminate. }
      apply bind_throws in H as [H | (? & _ & H)];
        [eexists; apply (save_throws _ _ _ H) | discriminate].
  - assert (forall w, exists w0,
              scrapeSeries writable site w = scrape_sessions writable site w0)
      as Hrun.
    { intros w. unfold scrapeSeries. rewrite run_with_tracker.
      unfold bind. rewrite initialize_ok. eauto. }
    destruct (Hrun (start file date1 ticks1)) as [w0 ->].
    destruct (sessionsList site) as [l|e] eqn:Hl.
    + destruct (length (List.filter (JS.test_anchored session_re) l) =? 0)%nat
        eqn:Hlen.
      * unfold scrape_sessions. now rewrite Hl, run_lift_ok, Hlen.
      * eexists. now rewrite (scrape_sessions_ok site w0 l Hl Hlen).
    + unfold scrape_sessions. now rewrite Hl, run_lift_throw.
Qed.

(** A run forgets nothing: every unit the ledger file held as completed or
    as failed, and every session it held as completed, is held so by the
    tracker when the run ends, whether it completed or threw. *)
Theorem run_keeps_what_the_ledger_held (site : page) (d : Json.t)
    (date1 : nat -> string) (ticks1 : nat) :
  grows (ProgressTracker.load d)
    (tracker (snd (scrapeSeries writable site (start (Document d) date1 ticks1)))).
Proof.
  unfold scrapeSeries. rewrite run_with_tracker.
  unfold bind at 1. rewrite initialize_ok.
  change (ledger_file (set_tracker _ (start ?f _ _))) with f. cbv iota.
  match goal with |- grows _ (tracker (snd (?m ?w))) =>
    change (world_grows w (snd (m w)));
    cut (preserves world_grows m); [intros H; apply H|]
  end.
  unfold scrape_sessions.
  repeat first [apply process_session_step_grows | grows_step].
Qed.

(** ** Completed means saved *)

Lemma completes_what_it_saved_refl w : completes_what_it_saved w w.
Proof. split; auto. Qed.

Lemma completes_what_it_saved_trans w1 w2 w3 :
  completes_what_it_saved w1 w2 -> completes_what_it_saved w2 w3 ->
  completes_what_it_saved w1 w3.
Proof.
  intros [Hc1 H1] [Hc2 H2]. split; [auto|].
  intros q s subject u H3.
  destruct (H2 _ _ _ _ H3) as [H|H]; [|now right].
  destruct (H1 _ _ _ _ H) as [H'|(a & Ha & Hrest)]; [now left|].
  right. exists a. split; [now apply Hc2 | exact Hrest].
Qed.

Lemma processData_descending raw : descending (processData raw).
Proof.
  destruct raw as [e|rows]; [constructor|].
  apply (sort_rows_from [] rows). constructor.
Qed.

Lemma with_tracker_completes_nothing f :
  (forall p q s subject u,
     ProgressTracker.isCompleted (f p) q s subject u
     = ProgressTracker.isCompleted p q s subject u) ->
  preserves completes_what_it_saved (with_tracker f).
Proof.
  intros Hf w. split; [auto|]. intros q s subject u. simpl.
  rewrite Hf. now left.
Qed.

Lemma processUnit_completes_what_it_saved site q s subject u :
  preserves completes_what_it_saved (processUnit writable site q s subject u).
Proof.
  intros w. unfold processUnit. rewrite run_log.
  destruct (tabsOf site s subject u) as [[|]|e].
  - rewrite run_lift_ok. cbn [negb]. cbv iota. rewrite !run_log.
    destruct (scoresOf site s subject u) as [raw|e].
    + rewrite run_lift_ok. cbv zeta.
      destruct (length (processData raw) =? 0)%nat eqn:Hlen.
      * rewrite run_with_tracker, run_save. unfold ret. cbn [snd].
        split.
        -- intros c Hc. simpl. rewrite !elem_of_app. auto.
        -- intros q' s' subject' u'. left. revert H.
           change (ProgressTracker.isCompleted (tracker (saved ?w0)))
             with (ProgressTracker.isCompleted (tracker w0)).
           simpl. unfold ProgressTracker.markAsFailed. now case_bool_decide.
      * unfold saveData. rewrite run_bind_assoc.
        unfold bind at 1. unfold now. rewrite run_log, run_with_tracker, run_save.
        unfold ret. cbn [snd]. split.
        -- intros c Hc. simpl. rewrite !elem_of_app. auto.
        -- intros q' s' subject' u'.
           change (ProgressTracker.isCompleted (tracker (saved ?w0)))
             with (ProgressTracker.isCompleted (tracker w0)).
           cbn [tracker set_tracker add_call].
           destruct (decide ((q, s, subject, u) = (q', s', subject', u')))
             as [[= <- <- <- <-]|Hne].
           ++ intros _. right. eexists. split.
              ** simpl. rewrite !elem_of_app. right.
                 apply list_elem_of_here.
              ** simpl. split; [reflexivity|]. split.
                 { intros H. rewrite H in Hlen. discriminate. }
                 split; [reflexivity | apply processData_descending].
           ++ intros H. left. revert H.
              destruct (ProgressTracker.isCompleted (tracker w) q s subject u)
                eqn:E.
              ** now rewrite markAsCompleted_seen.
              ** rewrite markAsCompleted_new by exact E.
                 unfold ProgressTracker.isCompleted. simpl.
                 rewrite includes_push_iff.
                 now rewrite bool_decide_eq_false_2.
    + rewrite run_lift_throw. split; [|now left].
      intros c Hc. simpl. rewrite !elem_of_app. auto.
  - rewrite run_lift_ok. cbn [negb]. cbv iota.
    rewrite run_with_tracker, run_save. unfold ret. cbn [snd]. split.
    + intros c Hc. simpl. rewrite !elem_of_app. auto.
    + intros q' s' subject' u'. left. revert H.
      change (ProgressTracker.isCompleted (tracker (saved ?w0)))
        with (ProgressTracker.isCompleted (tracker w0)).
      simpl. unfold ProgressTracker.markAsFailed. now case_bool_decide.
  - rewrite run_lift_throw. split; [|now left].
    intros c Hc. simpl. rewrite !elem_of_app. auto.
Qed.

Ltac saved_step :=
  first
    [ apply processUnit_completes_what_it_saved
    | match goal with
      | |- preserves _ (with_tracker _) =>
          apply with_tracker_completes_nothing; intros;
          first [ reflexivity
                | unfold ProgressTracker.markAsFailed; now case_bool_decide
                | unfold ProgressTracker.markSessionAsCompleted;
                  now case_bool_decide ]
      | |- preserves _ (save _) => intros ?; split; [auto | now left]
      | |- preserves _ (log _) =>
          intros ?; split;
          [intros ? ?; simpl; rewrite elem_of_app; auto | now left]
      end
    | preserves_step completes_what_it_saved_refl
        completes_what_it_saved_trans ].

Lemma scrape_sessions_completes_what_it_saved site :
  preserves completes_what_it_saved (scrape_sessions writable site).
Proof.
  unfold scrape_sessions, process_session_step, process_subject_step,
    processSubject, process_unit_step.
  repeat saved_step.
Qed.

(** A unit is completed only behind its score table: every unit the
    tracker holds as completed when the run ends was held so by the ledger
    file, or the run wrote its table, with at least one row, the rows by
    descending UMS and their number as [recordCount]. *)
Theorem completed_units_were_saved (site : page) (file : file_state)
    (date1 : nat -> string) (ticks1 : nat) (q s subject u : string) :
  let w := snd (scrapeSeries writable site (start file date1 ticks1)) in
  ProgressTracker.isCompleted (tracker w) q s subject u = true ->
  match file with
  | Document d =>
      ProgressTracker.isCompleted (ProgressTracker.load d) q s subject u = true
  | _ => False
  end \/
  saved_artifact w q s subject u.
Proof.
  cbv zeta. unfold scrapeSeries. rewrite run_with_tracker.
  unfold bind. rewrite initialize_ok.
  change (ledger_file (set_tracker _ (start ?f _ _))) with f.
  set (w0 := match file with Document _ => _ | _ => _ end).
  intros Hw.
  destruct (scrape_sessions_completes_what_it_saved site w0) as [_ H].
  destruct (H _ _ _ _ Hw) as [H0|H0]; [left | now right].
  subst w0. destruct file; [discriminate | discriminate | exact H0].
Qed.

Lemma completed_units_were_saved_witness :
  False \/
  saved_artifact (snd june_run) QUALIFICATION_TYPE "June 2019" "Physics"
    "WPH02".
Proof.
  apply (completed_units_were_saved site_june NoFile example_date 0).
  vm_compute. reflexivity.
Defined.

(** ** The totals a pass over a session leaves *)

Lemma same_totals_refl w : same_totals w w.
Proof. repeat split. Qed.

Lemma same_totals_trans w1 w2 w3 :
  same_totals w1 w2 -> same_totals w2 w3 -> same_totals w1 w3.
Proof. unfold same_totals. intros (?&?&?) (?&?&?). repeat split; congruence. Qed.

Ltac totals_step :=
  first
    [ match goal with
      | |- preserves _ (with_tracker _) =>
          intros ?; unfold same_totals; simpl;
          first [ progress unfold ProgressTracker.markAsCompleted
                | progress unfold ProgressTracker.markAsFailed
                | progress unfold ProgressTracker.markSessionAsCompleted ];
          case_bool_decide; repeat split
      | |- preserves _ (save _) => intros ?; repeat split
      | |- preserves _ (log _) => intros ?; repeat split
      | |- preserves _ now => intros ?; repeat split
      end
    | preserves_step same_totals_refl same_totals_trans ].

Lemma process_unit_step_same_totals site q s subject acc u :
  preserves same_totals (process_unit_step writable site q s subject acc u).
Proof.
  unfold process_unit_step, processUnit, saveData. repeat totals_step.
Qed.

(** What a subject adds to the counters of the pass and of the tracker. *)
Lemma process_subject_step_counts site s counts subject w :
  let r := process_subject_step writable site s counts subject w in
  let n := match unitsOf site s subject with
           | Ok units => Z.of_nat (length units)
           | Throw _ => 0
           end in
  (exists counts', fst r = Ok counts' /\ fst counts' = fst counts + n) /\
  Stats.totalSessions (Progress.stats (tracker (snd r)))
    = Stats.totalSessions (Progress.stats (tracker w)) /\
  Stats.totalSubjects (Progress.stats (tracker (snd r)))
    = Stats.totalSubjects (Progress.stats (tracker w)) /\
  Stats.totalUnits (Progress.stats (tracker (snd r)))
    = Stats.totalUnits (Progress.stats (tracker w)) + n.
Proof.
  cbv zeta. unfold process_subject_step, processSubject, try_catch.
  rewrite run_bind_assoc, run_log.
  destruct (unitsOf site s subject) as [units|e].
  2:{ rewrite run_bind_assoc, run_lift_throw. simpl.
      split; [exists counts; split; [reflexivity | lia]|].
      repeat split; lia. }
  rewrite !run_bind_assoc, run_lift_ok, !run_bind_assoc, run_ask,
    !run_bind_assoc, run_with_tracker, !run_bind_assoc, run_save.
  set (w1 := saved _).
  assert (Stats.totalSessions (Progress.stats (tracker w1))
            = Stats.totalSessions (Progress.stats (tracker w)) /\
          Stats.totalSubjects (Progress.stats (tracker w1))
            = Stats.totalSubjects (Progress.stats (tracker w)) /\
          Stats.totalUnits (Progress.stats (tracker w1))
            = Stats.totalUnits (Progress.stats (tracker w))
              + Z.of_nat (length units)) as (H1 & H2 & H3)
    by (repeat split).
  clearbody w1.
  destruct (length units =? 0)%nat eqn:Hlen.
  - rewrite run_ret. simpl. apply Nat.eqb_eq in Hlen. rewrite Hlen in *.
    split; [eexists; split; [reflexivity | simpl; lia]|].
    repeat split; lia.
  - rewrite run_bind_assoc.
    match goal with |- context [bind (for_of ?l ?acc ?body) ?k ?w] =>
      destruct (run_bind (for_of l acc body) k w) as (processed & _ & ->);
        [apply never_throws_for_of, process_unit_step_never_throws|];
      pose proof (preserves_for_of same_totals same_totals_refl
                    same_totals_trans body
                    (process_unit_step_same_totals site _ s subject)
                    l acc w) as (H4 & H5 & H6)
    end.
    rewrite !run_ret. simpl.
    split; [eexists; split; [reflexivity | reflexivity]|].
    repeat split; congruence.
Qed.

Lemma subjects_loop_counts site s subjects : forall counts w,
  let r := for_of subjects counts (process_subject_step writable site s) w in
  (exists counts',
     fst r = Ok counts' /\
     fst counts' = fst counts + units_listed site s subjects) /\
  Stats.totalSessions (Progress.stats (tracker (snd r)))
    = Stats.totalSessions (Progress.stats (tracker w)) /\
  Stats.totalSubjects (Progress.stats (tracker (snd r)))
    = Stats.totalSubjects (Progress.stats (tracker w)) /\
  Stats.totalUnits (Progress.stats (tracker (snd r)))
    = Stats.totalUnits (Progress.stats (tracker w))
      + units_listed site s subjects.
Proof.
  induction subjects as [|subject subjects IH]; intros counts w; cbv zeta.
  - simpl. split; [exists counts; split; [reflexivity | lia]|].
    repeat split; lia.
  - cbn [for_of units_listed foldr]. fold (units_listed site s subjects).
    destruct (process_subject_step_counts site s counts subject w)
      as ((counts1 & Hr & Hc) & H1 & H2 & H3).
    unfold bind.
    destruct (process_subject_step writable site s counts subject w) as [r w1].
    simpl in Hr, H1, H2, H3. subst r.
    destruct (IH counts1 w1) as ((counts2 & Hr2 & Hc2) & H4 & H5 & H6).
    split; [exists counts2; split; [exact Hr2 | lia]|].
    repeat split; lia.
Qed.

(** A pass of the session loop of [scrapeSeries] over a session that is not
    flagged and whose subjects are listed sets [totalUnits] to the number of
    units listed under that session alone, whatever it was before, and adds
    the retained subjects to [totalSubjects]; a session under which no unit
    is listed is not flagged by the pass.  The session label is such that
    the objects of the ledger behave as maps on it. *)
Theorem session_pass_resets_totalUnits (site : page)
    (validSessions : list string) (totalSubjects : Z) (session : string)
    (w : world) (subjects : list string) :
  own_keys [session] = true ->
  ProgressTracker.isSessionCompleted (tracker w) QUALIFICATION_TYPE session
    = false ->
  subjectsOf site session = Ok subjects ->
  let filteredSubjects := List.filter shouldProcessSubject subjects in
  let r :=
    process_session_step writable site validSessions totalSubjects session
      w in
  let stats := Progress.stats (tracker (snd r)) in
  fst r = Ok (totalSubjects + Z.of_nat (length filteredSubjects)) /\
  Stats.totalSessions stats = Z.of_nat (length validSessions) /\
  Stats.totalSubjects stats
    = totalSubjects + Z.of_nat (length filteredSubjects) /\
  Stats.totalUnits stats = units_listed site session filteredSubjects /\
  (units_listed site session filteredSubjects = 0 ->
   ProgressTracker.isSessionCompleted (tracker (snd r)) QUALIFICATION_TYPE
     session = false).
Proof.
  intros _ Hflag Hsubjects. cbv zeta.
  set (filtered := List.filter shouldProcessSubject subjects).
  set (w1 :=
         saved
           (set_tracker
              (fun p =>
                 ProgressTracker.updateStats p
                   (Z.of_nat (length validSessions))
                   (totalSubjects + Z.of_nat (length filtered)) 0)
              (add_call (NavigateToSession session) w))).
  destruct (subjects_loop_counts site session filtered (0, 0) w1)
    as (([total processed] & Hr & Hc) & H5 & H6 & H7).
  pose proof (preserves_for_of same_flags same_flags_refl same_flags_trans
                (process_subject_step writable site session)
                (process_subject_step_same_flags site session)
                filtered (0, 0) w1) as Hflags.
  set (w2 := snd (for_of filtered (0, 0) (process_subject_step writable site session)
                    w1)) in *.
  assert (process_session_step writable site validSessions totalSubjects session w
          = (Ok (totalSubjects + Z.of_nat (length filtered)),
             if (0 <? total) && (processed =? total)
             then saved
                    (set_tracker
                       (fun p =>
                          ProgressTracker.markSessionAsCompleted p
                            QUALIFICATION_TYPE session) w2)
             else w2)) as ->.
  { unfold process_session_step. rewrite run_ask, Hflag. unfold try_catch.
    rewrite run_log, Hsubjects, run_lift_ok, run_with_tracker, run_save.
    fold filtered. fold w1. unfold bind at 1.
    subst w2.
    destruct (for_of filtered (0, 0) (process_subject_step writable site session) w1)
      as [r w2].
    simpl in Hr. subst r. cbn [snd].
    destruct ((0 <? total) && (processed =? total)).
    - now rewrite run_bind_assoc, run_with_tracker, run_save.
    - reflexivity. }
  cbn [fst snd]. clearbody w2. simpl in Hc.
  assert (ProgressTracker.isSessionCompleted (tracker w2) QUALIFICATION_TYPE
            session = false) as H8.
  { unfold ProgressTracker.isSessionCompleted, same_flags in *.
    rewrite Hflags. exact Hflag. }
  split; [reflexivity|].
  assert (forall p,
            Stats.totalSessions
              (Progress.stats
                 (ProgressTracker.markSessionAsCompleted p QUALIFICATION_TYPE
                    session))
            = Stats.totalSessions (Progress.stats p) /\
            Stats.totalSubjects
              (Progress.stats
                 (ProgressTracker.markSessionAsCompleted p QUALIFICATION_TYPE
                    session))
            = Stats.totalSubjects (Progress.stats p) /\
            Stats.totalUnits
              (Progress.stats
                 (ProgressTracker.markSessionAsCompleted p QUALIFICATION_TYPE
                    session))
            = Stats.totalUnits (Progress.stats p)) as Hmark.
  { intros p. unfold ProgressTracker.markSessionAsCompleted.
    case_bool_decide; repeat split. }
  change (Stats.totalSessions (Progress.stats (tracker w1)))
    with (Z.of_nat (length validSessions)) in H5.
  change (Stats.totalSubjects (Progress.stats (tracker w1)))
    with (totalSubjects + Z.of_nat (length filtered)) in H6.
  change (Stats.totalUnits (Progress.stats (tracker w1))) with 0 in H7.
  destruct ((0 <? total) && (processed =? total)) eqn:Hall.
  - apply andb_true_iff in Hall as [Hpos%Z.ltb_lt _].
    change (Progress.stats (tracker (saved ?w0)))
      with (Progress.stats (tracker w0)).
    cbn [tracker set_tracker].
    destruct (Hmark (tracker w2)) as (-> & -> & ->).
    repeat split; lia.
  - repeat split; try lia. intros _. exact H8.
Qed.

(** After the run on [site_june] the tracker counts 2 units; the pass over
    the session ["January 2020"] of [site_june_january], under which one
    unit is listed, leaves [totalUnits] at 1. *)
Lemma session_pass_resets_totalUnits_witness :
  Stats.totalUnits (Progress.stats (tracker (snd june_run))) = 2 /\
  Stats.totalUnits
    (Progress.stats
       (tracker
          (snd (process_session_step writable site_june_january
                  ["June 2019"; "January 2020"] 0 "January 2020"
                  (snd june_run))))) = 1.
Proof.
  split; [vm_compute; reflexivity|].
  refine (eq_trans
            (proj1 (proj2 (proj2 (proj2
               (session_pass_resets_totalUnits site_june_january
                  ["June 2019"; "January 2020"] 0 "January 2020"
                  (snd june_run) ["Physics"] _ _ _))))) _).
  - reflexivity.
  - vm_compute. reflexivity.
  - reflexivity.
  - vm_compute. reflexivity.
Defined.

(** ** A unit is decided once *)

Lemma process_unit_step_marks site q s subject n u w :
  ProgressTracker.isCompleted (tracker w) q s subject u = false ->
  ProgressTracker.hasFailed (tracker w) q s subject u = false ->
  exists p' lastUpdate,
    tracker (snd (process_unit_step writable site q s subject n u w))
    = stamp p' lastUpdate /\
    (p' = ProgressTracker.markAsCompleted (tracker w) q s subject u \/
     exists error,
       p' = ProgressTracker.markAsFailed (tracker w) q s subject u error).
Proof.
  intros Hc Hf. unfold process_unit_step, try_catch.
  rewrite run_ask, Hc, run_ask, Hf. unfold processUnit.
  rewrite run_bind_assoc, run_log.
  destruct (tabsOf site s subject u) as [[|]|e].
  - rewrite !run_bind_assoc, run_lift_ok. cbn [negb]. cbv iota.
    rewrite !run_bind_assoc, run_log, !run_bind_assoc, run_log.
    destruct (scoresOf site s subject u) as [raw|e].
    + rewrite !run_bind_assoc, run_lift_ok. cbv zeta.
      destruct (length (processData raw) =? 0)%nat.
      * eexists _, _. split; [reflexivity|]. right.
        now exists "No data extracted".
      * eexists _, _. split; [reflexivity|]. left. reflexivity.
    + rewrite !run_bind_assoc, run_lift_throw.
      eexists _, _. split; [reflexivity|]. right. now exists e.
  - rewrite !run_bind_assoc, run_lift_ok. cbn [negb]. cbv iota.
    eexists _, _. split; [reflexivity|]. right.
    now exists "No tabs section found".
  - rewrite !run_bind_assoc, run_lift_throw.
    eexists _, _. split; [reflexivity|]. right. now exists e.
Qed.

(** The pass of the unit loop of [processSubject] decides a unit once.  A
    unit the ledger holds, as completed or as failed, is skipped: nothing is
    selected, extracted or written, and the unit is counted as processed.
    A unit the ledger does not hold ends up in exactly one of the two sets,
    exactly one of the two counters goes up by one, and no other unit
    changes sets.  The keys are such that the objects of the ledger behave
    as maps on them. *)
Theorem unit_is_decided_once (site : page) (q s subject : string)
    (processedUnits : Z) (u : string) (w : world) :
  own_keys [q; s; subject] = true ->
  let r := process_unit_step writable site q s subject processedUnits u w in
  let p := tracker w in
  let p' := tracker (snd r) in
  if ProgressTracker.isCompleted p q s subject u ||
     ProgressTracker.hasFailed p q s subject u
  then r = (Ok (processedUnits + 1), w)
  else
    xorb (ProgressTracker.isCompleted p' q s subject u)
         (ProgressTracker.hasFailed p' q s subject u) = true /\
    Stats.completedUnits (Progress.stats p')
      + Stats.failedUnits (Progress.stats p')
    = Stats.completedUnits (Progress.stats p)
      + Stats.failedUnits (Progress.stats p) + 1 /\
    forall q' s' subject' u',
      own_keys [q'; s'; subject'] = true ->
      (q, s, subject, u) <> (q', s', subject', u') ->
      ProgressTracker.isCompleted p' q' s' subject' u'
      = ProgressTracker.isCompleted p q' s' subject' u' /\
      ProgressTracker.hasFailed p' q' s' subject' u'
      = ProgressTracker.hasFailed p q' s' subject' u'.
Proof.
  intros _. cbv zeta.
  destruct (ProgressTracker.isCompleted (tracker w) q s subject u) eqn:Hc.
  { unfold process_unit_step, try_catch. now rewrite run_ask, Hc. }
  destruct (ProgressTracker.hasFailed (tracker w) q s subject u) eqn:Hf.
  { unfold process_unit_step, try_catch. now rewrite run_ask, Hc, run_ask, Hf. }
  cbn [orb].
  destruct (process_unit_step_marks site q s subject processedUnits u w Hc Hf)
    as (p' & lastUpdate & -> & Hp').
  change (ProgressTracker.isCompleted (stamp ?p0 _))
    with (ProgressTracker.isCompleted p0).
  change (ProgressTracker.hasFailed (stamp ?p0 _))
    with (ProgressTracker.hasFailed p0).
  change (Progress.stats (stamp ?p0 _)) with (Progress.stats p0).
  destruct Hp' as [-> | [error ->]].
  - split; [|split].
    + destruct (markAsCompleted_queries (tracker w) q s subject u
                  q s subject u) as (-> & -> & _).
      rewrite bool_decide_eq_true_2 by reflexivity. now rewrite Hf.
    + rewrite markAsCompleted_new by exact Hc. simpl. lia.
    + intros q' s' subject' u' _ Hne.
      destruct (markAsCompleted_queries (tracker w) q s subject u
                  q' s' subject' u') as (-> & -> & _).
      now rewrite bool_decide_eq_false_2.
  - split; [|split].
    + destruct (markAsFailed_queries (tracker w) q s subject u error
                  q s subject u) as (-> & -> & _).
      rewrite bool_decide_eq_true_2 by reflexivity. now rewrite Hc.
    + rewrite markAsFailed_new by exact Hf. simpl. lia.
    + intros q' s' subject' u' _ Hne.
      destruct (markAsFailed_queries (tracker w) q s subject u error
                  q' s' subject' u') as (-> & -> & _).
      now rewrite bool_decide_eq_false_2.
Qed.

(** The first unit of [site_june], met with a new ledger, is completed
    and not failed after the pass. *)
Lemma unit_is_decided_once_witness :
  xorb
    (ProgressTracker.isCompleted
       (tracker
          (snd (process_unit_step writable site_june QUALIFICATION_TYPE "June 2019"
                  "Physics" 0 "WPH01" (start NoFile example_date 0))))
       QUALIFICATION_TYPE "June 2019" "Physics" "WPH01")
    (ProgressTracker.hasFailed
       (tracker
          (snd (process_unit_step writable site_june QUALIFICATION_TYPE "June 2019"
                  "Physics" 0 "WPH01" (start NoFile example_date 0))))
       QUALIFICATION_TYPE "June 2019" "Physics" "WPH01") = true.
Proof.
  exact (proj1 (unit_is_decided_once site_june QUALIFICATION_TYPE
                  "June 2019" "Physics" 0 "WPH01"
                  (start NoFile example_date 0) eq_refl)).
Defined.

(** ** No unit in both sets *)

Lemma keeps_disjoint_refl w : keeps_disjoint w w.
Proof. now intros H. Qed.

Lemma keeps_disjoint_trans w1 w2 w3 :
  keeps_disjoint w1 w2 -> keeps_disjoint w2 w3 -> keeps_disjoint w1 w3.
Proof. unfold keeps_disjoint. auto. Qed.

Lemma process_unit_step_keeps_disjoint site q s subject n u :
  preserves keeps_disjoint (process_unit_step writable site q s subject n u).
Proof.
  intros w Hw.
  destruct (ProgressTracker.isCompleted (tracker w) q s subject u) eqn:Hc.
  { unfold process_unit_step, try_catch. now rewrite run_ask, Hc. }
  destruct (ProgressTracker.hasFailed (tracker w) q s subject u) eqn:Hf.
  { unfold process_unit_step, try_catch. now rewrite run_ask, Hc, run_ask, Hf. }
  destruct (process_unit_step_marks site q s subject n u w Hc Hf)
    as (p' & lastUpdate & -> & Hp').
  intros q' s' subject' u'.
  change (ProgressTracker.isCompleted (stamp ?p0 _))
    with (ProgressTracker.isCompleted p0).
  change (ProgressTracker.hasFailed (stamp ?p0 _))
    with (ProgressTracker.hasFailed p0).
  destruct Hp' as [-> | [error ->]].
  - destruct (markAsCompleted_queries (tracker w) q s subject u
                q' s' subject' u') as (-> & -> & _).
    case_bool_decide as Hk; [|apply Hw].
    injection Hk as <- <- <- <-. intros _. exact Hf.
  - destruct (markAsFailed_queries (tracker w) q s subject u error
                q' s' subject' u') as (-> & -> & _).
    case_bool_decide as Hk.
    + injection Hk as <- <- <- <-. congruence.
    + apply Hw.
Qed.

Ltac disjoint_step :=
  first
    [ apply process_unit_step_keeps_disjoint
    | match goal with
      | |- preserves _ (with_tracker _) =>
          let H := fresh "H" in
          let Hc := fresh "Hc" in
          intros ? H q' s' subject' u' Hc;
          refine (eq_trans _ (H q' s' subject' u' _));
          [ | revert Hc ]; simpl;
          first [ progress unfold ProgressTracker.markSessionAsCompleted;
                  now case_bool_decide
                | now idtac ]
      | |- preserves _ (save _) => intros ? ?; assumption
      | |- preserves _ (log _) => intros ? ?; assumption
      end
    | preserves_step keeps_disjoint_refl keeps_disjoint_trans ].

Lemma scrape_sessions_keeps_disjoint site :
  preserves keeps_disjoint (scrape_sessions writable site).
Proof.
  unfold scrape_sessions, process_session_step, process_subject_step,
    processSubject.
  repeat disjoint_step.
Qed.

(** No unit ends up both completed and failed: when no unit of the ledger
    file is in both sets, none is when the run ends, however it ends (the
    ledger file is taken to be writable throughout). *)
Theorem no_unit_is_completed_and_failed (site : page) (file : file_state)
    (date1 : nat -> string) (ticks1 : nat) :
  match file with
  | Document d => sets_disjoint (ProgressTracker.load d)
  | _ => True
  end ->
  sets_disjoint
    (tracker (snd (scrapeSeries writable site (start file date1 ticks1)))).
Proof.
  intros Hfile. unfold scrapeSeries. rewrite run_with_tracker.
  unfold bind. rewrite initialize_ok.
  change (ledger_file (set_tracker _ (start ?f _ _))) with f.
  apply scrape_sessions_keeps_disjoint.
  destruct file as [| |d]; simpl; [| |exact Hfile];
    intros q s subject u; discriminate.
Qed.

Lemma no_unit_is_completed_and_failed_witness :
  ProgressTracker.hasFailed (tracker (snd june_run)) QUALIFICATION_TYPE
    "June 2019" "Physics" "WPH01" = false.
Proof.
  apply (no_unit_is_completed_and_failed site_june NoFile example_date 0 I).
  vm_compute. reflexivity.
Defined.

(** ** A table is saved once *)

Lemma saves_once_refl w : saves_once w w.
Proof.
  split; [apply grows_refl|]. exists []. rewrite app_nil_r.
  split; [reflexivity|]. split; [constructor|].
  intros q s subject u []%elem_of_nil.
Qed.

Lemma saves_once_trans w1 w2 w3 :
  saves_once w1 w2 -> saves_once w2 w3 -> saves_once w1 w3.
Proof.
  intros [Hg1 (new1 & Hc1 & Hn1 & Hk1)] [Hg2 (new2 & Hc2 & Hn2 & Hk2)].
  split; [eapply grows_trans; eassumption|].
  exists (new1 ++ new2). split; [now rewrite Hc2, Hc1, app_assoc|].
  unfold saved_units in *. rewrite omap_app. split.
  - apply NoDup_app. split; [exact Hn1|]. split; [|exact Hn2].
    intros [[[q s] subject] u] H1 H2.
    destruct (Hk1 _ _ _ _ H1) as (_ & _ & Hdone).
    destruct (Hk2 _ _ _ _ H2) as (Hnot & _). congruence.
  - intros q s subject u [H|H]%elem_of_app.
    + destruct (Hk1 _ _ _ _ H) as (Ha & Hb & Hdone).
      split; [exact Ha|]. split; [exact Hb|].
      destruct Hg2 as (Hgc & _). now apply Hgc.
    + destruct (Hk2 _ _ _ _ H) as (Ha & Hb & Hdone).
      destruct Hg1 as (Hgc & Hgf & _).
      split; [|split; [|exact Hdone]].
      * destruct (ProgressTracker.isCompleted (tracker w1) q s subject u)
          eqn:E; [|reflexivity].
        apply Hgc in E. congruence.
      * destruct (ProgressTracker.hasFailed (tracker w1) q s subject u)
          eqn:E; [|reflexivity].
        apply Hgf in E. congruence.
Qed.

Lemma saves_once_quiet w w' new :
  grows (tracker w) (tracker w') -> calls w' = calls w ++ new ->
  saved_units new = [] -> saves_once w w'.
Proof.
  intros Hg Hc Hnew. split; [exact Hg|]. exists new.
  split; [exact Hc|]. rewrite Hnew. split; [constructor|].
  intros q s subject u []%elem_of_nil.
Qed.

Lemma process_unit_step_saves_once site q s subject n u :
  preserves saves_once (process_unit_step writable site q s subject n u).
Proof.
  intros w.
  pose proof (process_unit_step_grows site q s subject n u w) as Hgrows.
  unfold world_grows in Hgrows. revert Hgrows.
  unfold process_unit_step, try_catch. rewrite run_ask.
  destruct (ProgressTracker.isCompleted (tracker w) q s subject u) eqn:Hc.
  { intros _. apply saves_once_refl. }
  rewrite run_ask.
  destruct (ProgressTracker.hasFailed (tracker w) q s subject u) eqn:Hf.
  { intros _. apply saves_once_refl. }
  unfold processUnit. rewrite run_bind_assoc, run_log.
  destruct (tabsOf site s subject u) as [[|]|e].
  - rewrite !run_bind_assoc, run_lift_ok. cbn [negb]. cbv iota.
    rewrite !run_bind_assoc, run_log, !run_bind_assoc, run_log.
    destruct (scoresOf site s subject u) as [raw|e].
    + rewrite !run_bind_assoc, run_lift_ok. cbv zeta.
      destruct (length (processData raw) =? 0)%nat.
      * intros Hg. eapply saves_once_quiet; [exact Hg | |];
          [simpl; rewrite <- !app_assoc; reflexivity | reflexivity].
      * intros Hg. split; [exact Hg|].
        eexists. split; [simpl; rewrite <- !app_assoc; reflexivity|].
        simpl. split; [apply NoDup_singleton|].
        intros q' s' subject' u' [= -> -> -> ->]%list_elem_of_singleton.
        split; [exact Hc|]. split; [exact Hf|].
        change (ProgressTracker.isCompleted (stamp ?p0 _))
          with (ProgressTracker.isCompleted p0).
        apply isCompleted_markAsCompleted.
    + rewrite !run_bind_assoc, run_lift_throw.
      intros Hg. eapply saves_once_quiet; [exact Hg | |];
        [simpl; rewrite <- !app_assoc; reflexivity | reflexivity].
  - rewrite !run_bind_assoc, run_lift_ok. cbn [negb]. cbv iota.
    intros Hg. eapply saves_once_quiet; [exact Hg | |];
      [simpl; reflexivity | reflexivity].
  - rewrite !run_bind_assoc, run_lift_throw.
    intros Hg. eapply saves_once_quiet; [exact Hg | |];
      [simpl; reflexivity | reflexivity].
Qed.

Ltac saves_once_step :=
  first
    [ apply process_unit_step_saves_once
    | match goal with
      | |- preserves _ (with_tracker _) =>
          intros ?; eapply saves_once_quiet;
          [ simpl;
            first [ apply markSessionAsCompleted_grows
                  | apply updateStats_grows ]
          | simpl; symmetry; apply app_nil_r
          | reflexivity ]
      | |- preserves _ (save _) =>
          intros ?; eapply saves_once_quiet;
          [ apply save_grows | simpl; symmetry; apply app_nil_r
          | reflexivity ]
      | |- preserves _ (log _) =>
          intros ?; eapply saves_once_quiet;
          [ apply grows_refl | reflexivity | reflexivity ]
      end
    | preserves_step saves_once_refl saves_once_trans ].

Lemma scrape_sessions_saves_once site :
  preserves saves_once (scrape_sessions writable site).
Proof.
  unfold scrape_sessions, process_session_step, process_subject_step,
    processSubject.
  repeat saves_once_step.
Qed.

(** A run saves the table of a unit at most once, and only of a unit that
    the ledger it started from held neither as completed nor as failed;
    the unit is held as completed when the run ends. *)
Theorem tables_are_saved_once (site : page) (file : file_state)
    (date1 : nat -> string) (ticks1 : nat) :
  let w := snd (scrapeSeries writable site (start file date1 ticks1)) in
  let p0 :=
    match file with
    | Document d => ProgressTracker.load d
    | _ => ProgressTracker.constructor
    end in
  NoDup (saved_units (calls w)) /\
  forall q s subject u,
    (q, s, subject, u) ∈ saved_units (calls w) ->
    ProgressTracker.isCompleted p0 q s subject u = false /\
    ProgressTracker.hasFailed p0 q s subject u = false /\
    ProgressTracker.isCompleted (tracker w) q s subject u = true.
Proof.
  cbv zeta. unfold scrapeSeries. rewrite run_with_tracker.
  unfold bind. rewrite initialize_ok.
  change (ledger_file (set_tracker _ (start ?f _ _))) with f.
  set (w0 := match file with Document _ => _ | _ => _ end).
  destruct (scrape_sessions_saves_once site w0)
    as [_ (new & Hc & Hn & Hk)].
  assert (calls w0 = []) as Hcalls by (subst w0; now destruct file).
  rewrite Hcalls in Hc. simpl in Hc. rewrite Hc.
  split; [exact Hn|]. intros q s subject u Hin.
  destruct (Hk _ _ _ _ Hin) as (Ha & Hb & Hdone).
  split; [|split; [|exact Hdone]].
  - subst w0. destruct file; [reflexivity | reflexivity | exact Ha].
  - subst w0. destruct file; [reflexivity | reflexivity | exact Hb].
Qed.

(** ** Which file of a unit a call keeps *)

Lemma first_of_code_counted c x l :
  first_of_code c x l -> counted_code (snd x) = Some c.
Proof. induction 1; auto. Qed.







(** ** What [organizeData] leaves in the target tree *)

Lemma group_lookup_push b subject groups b' :
  group_lookup b' (group_push b subject groups)
  = if String.eqb b b'
    then Some (default [] (group_lookup b groups) ++ [subject])
    else group_lookup b' groups.
Proof.
  induction groups as [|[b0 vs] groups IH]; simpl.
  - now destruct (String.eqb_spec b b').
  - destruct (String.eqb_spec b0 b) as [->|Hb0]; simpl.
    + destruct (String.eqb_spec b b'); reflexivity.
    + rewrite IH. destruct (String.eqb_spec b0 b') as [->|Hb0'].
      * destruct (String.eqb_spec b b'); [congruence | reflexivity].
      * reflexivity.
Qed.


(** The groups hold, under every base name, the subjects of that base name
    in the order of the listing. *)
Lemma group_subjects_lookup subjects : forall done groups groups',
  (forall b,
     default [] (group_lookup b groups)
     = List.filter (fun v => String.eqb (getBaseSubjectName v) b) done) ->
  group_subjects subjects groups = Ok groups' ->
  forall b,
    default [] (group_lookup b groups')
    = List.filter (fun v => String.eqb (getBaseSubjectName v) b)
        (done ++ subjects).
Proof.
  induction subjects as [|subject subjects IH]; intros done groups groups' Hg;
    simpl.
  - intros [= <-] b. now rewrite app_nil_r.
  - case_bool_decide; [discriminate|]. intros Hrun b.
    rewrite (cons_middle _ done), app_assoc.
    refine (IH _ _ _ _ Hrun b). clear b. intros b.
    rewrite group_lookup_push, List.filter_app. simpl.
    destruct (String.eqb_spec (getBaseSubjectName subject) b) as [<-|Hne].
    + simpl. now rewrite Hg.
    + rewrite app_nil_r. apply Hg.
Qed.


Lemma group_subjects_ok subjects : forall groups,
  (exists groups', group_subjects subjects groups = Ok groups') <->
  Forall (fun subject => getBaseSubjectName subject ∉ object_prototype_keys)
    subjects.
Proof.
  induction subjects as [|subject subjects IH]; intros groups; simpl.
  - split; [constructor | eauto].
  - case_bool_decide as Hkey.
    + split; [intros [? [=]] | inversion 1; contradiction].
    + rewrite IH. split; [now constructor | now inversion 1].
Qed.

Lemma group_subjects_throws subjects : forall groups e,
  group_subjects subjects groups = Throw e ->
  e = "TypeError: subjectGroups[baseName].push is not a function".
Proof.
  induction subjects as [|subject subjects IH]; intros groups e; simpl;
    [discriminate|].
  case_bool_decide; [now intros [= <-] | apply IH].
Qed.

Lemma insert_index_elem {A : Type} n (x : A) l y :
  y ∈ insert_index n x l <-> y = (n, x) \/ y ∈ l.
Proof.
  induction l as [|[m z] l IH]; simpl.
  - rewrite list_elem_of_singleton, elem_of_nil. tauto.
  - destruct (n <? m)%N; rewrite !elem_of_cons, ?IH; tauto.
Qed.



Lemma for_of_ok_iff {S A : Type} (body : unit -> A -> M S unit)
    (P : A -> Prop) :
  (forall x s, fst (body tt x s) = Ok tt <-> P x) ->
  forall l s, fst (for_of l tt body s) = Ok tt <-> Forall P l.
Proof.
  intros Hbody l. induction l as [|x l IH]; intros s; simpl.
  - split; [constructor | reflexivity].
  - unfold bind. specialize (Hbody x s).
    destruct (body tt x s) as [[[]|e] s']; simpl in *.
    + rewrite IH. split; [constructor; [now apply Hbody | assumption]|].
      now inversion 1.
    + split; [discriminate|]. inversion 1; subst.
      assert (Throw e = Ok tt) by now apply Hbody. discriminate.
Qed.

Lemma for_of_throws {S A : Type} (body : unit -> A -> M S unit)
    (message : string) :
  (forall x s e, fst (body tt x s) = Throw e -> e = message) ->
  forall l s e, fst (for_of l tt body s) = Throw e -> e = message.
Proof.
  intros Hbody l. induction l as [|x l IH]; intros s e; simpl; [discriminate|].
  unfold bind. specialize (Hbody x s).
  destruct (body tt x s) as [[[]|e'] s']; simpl in *; [apply IH|].
  intros [= <-]. now apply Hbody.
Qed.

Lemma process_group_ok qualType session sessionPath group m :
  fst (process_group qualType session sessionPath group m) = Ok tt.
Proof.
  destruct group as [b vs]. unfold process_group.
  now destruct (existsb isMathSubject vs).
Qed.

Lemma process_session_ok qualType s m :
  fst (process_session qualType s m) = Ok tt <->
  match s with
  | (_, IsDir sessionPath) =>
      Forall
        (fun subject => getBaseSubjectName subject ∉ object_prototype_keys)
        (map fst sessionPath)
  | (_, NotDir) => True
  end.
Proof.
  destruct s as [session [|sessionPath]]; simpl; [tauto|].
  rewrite <- (group_subjects_ok (map fst sessionPath) []).
  destruct (group_subjects (map fst sessionPath) []) as [groups|e].
  - split; [eauto|]. intros _. apply for_of_ok_iff with (P := fun _ => True).
    + intros x s. split; [auto|]. intros _. apply process_group_ok.
    + apply Forall_forall. auto.
  - split; [discriminate | intros [? [=]]].
Qed.

Lemma process_qualification_ok q m :
  fst (process_qualification q m) = Ok tt <->
  match q with
  | (_, IsDir sessions) =>
      Forall
        (fun s : string * entry session_dir =>
           match s with
           | (_, IsDir sessionPath) =>
               Forall
                 (fun subject =>
                    getBaseSubjectName subject ∉ object_prototype_keys)
                 (map fst sessionPath)
           | (_, NotDir) => True
           end) sessions
  | (_, NotDir) => True
  end.
Proof.
  destruct q as [qualType [|sessions]]; simpl; [tauto|].
  apply for_of_ok_iff. intros s m'. apply process_session_ok.
Qed.

(** [organizeData] throws on the tree exactly when a subject folder has a
    base name that the object [subjectGroups] inherits from
    [Object.prototype] ([constructor], [toString], ...), on which [push] is
    not a function; on every other tree it completes. *)
Theorem organizeData_completes_iff (source : source_dir) :
  (fst (organizeData source) = Ok tt <-> subject_names_ok source) /\
  (fst (organizeData source) = Ok tt \/
   fst (organizeData source)
   = Throw "TypeError: subjectGroups[baseName].push is not a function").
Proof.
  split.
  - unfold organizeData.
    rewrite (for_of_ok_iff _ _ (fun q m => process_qualification_ok q m)).
    unfold subject_names_ok. rewrite Forall_forall. split.
    + intros H qualType sessions session sessionPath subject Hq Hs Hsubject.
      specialize (H _ Hq). simpl in H. rewrite Forall_forall in H.
      specialize (H _ Hs). simpl in H. rewrite Forall_forall in H.
      now apply H.
    + intros H [qualType [|sessions]] Hq; [exact I|].
      apply Forall_forall. intros [session [|sessionPath]] Hs; [exact I|].
      apply Forall_forall. intros subject Hsubject. eapply H; eauto.
  - destruct (fst (organizeData source)) as [[]|e] eqn:E; [now left|].
    right. f_equal. revert E. unfold organizeData.
    apply for_of_throws. clear. intros [qualType [|sessions]] m e; simpl;
      [discriminate|].
    apply for_of_throws. clear. intros [session [|sessionPath]] m e; simpl;
      [discriminate|].
    destruct (group_subjects (map fst sessionPath) []) as [groups|e'] eqn:Hg.
    + apply for_of_throws. intros group m' e'.
      now rewrite process_group_ok.
    + intros [= <-]. now apply group_subjects_throws in Hg.
Qed.











(** ** Where the files of the target tree come from *)

Lemma for_of_preserves_in {S A B : Type} (I : S -> Prop)
    (body : B -> A -> M S B) (l : list A) :
  (forall acc x s, x ∈ l -> I s -> I (snd (body acc x s))) ->
  forall acc s, I s -> I (snd (for_of l acc body s)).
Proof.
  intros Hbody.
  assert (forall l', (forall x, x ∈ l' -> x ∈ l) ->
            forall acc s, I s -> I (snd (for_of l' acc body s))) as H.
  { induction l' as [|x l' IH]; intros Hsub acc s Hs; [exact Hs|].
    simpl. unfold bind.
    pose proof (Hbody acc x s (Hsub x (list_elem_of_here _ _)) Hs) as Hx.
    destruct (body acc x s) as [[acc'|e] s']; simpl in *; [|exact Hx].
    apply IH; [|exact Hx]. intros y Hy. apply Hsub.
    now apply list_elem_of_further. }
  apply H. auto.
Qed.

Lemma fold_left_preserves_in {A B : Type} (I : A -> Prop) (f : A -> B -> A)
    (l : list B) :
  (forall a b, b ∈ l -> I a -> I (f a b)) ->
  forall a, I a -> I (fold_left f l a).
Proof.
  intros Hf.
  assert (forall l', (forall x, x ∈ l' -> x ∈ l) ->
            forall a, I a -> I (fold_left f l' a)) as H.
  { induction l' as [|x l' IH]; intros Hsub a Ha; [exact Ha|].
    simpl. apply IH.
    - intros y Hy. apply Hsub. now apply list_elem_of_further.
    - apply Hf; [apply Hsub, list_elem_of_here | exact Ha]. }
  apply H. auto.
Qed.

(** What a call leaves in its folder was there before, or is a counted
    file of one of its variants. *)
Lemma process_variants_entries sessionPath variants target file subject :
  folder (process_variants sessionPath variants target) !! file = Some subject ->
  target !! file = Some subject \/
  (subject ∈ variants /\
   exists files,
     readdir subject sessionPath = Some files /\ file ∈ files /\
     is_Some (counted_code file)).
Proof.
  unfold process_variants. revert file subject.
  apply (fold_left_preserves_in
           (fun g => forall file subject,
              folder g !! file = Some subject ->
              target !! file = Some subject \/
              (subject ∈ variants /\
               exists files,
                 readdir subject sessionPath = Some files /\ file ∈ files /\
                 is_Some (counted_code file)))); [|now left].
  intros g subject Hsubject Hg. unfold process_variant.
  destruct (readdir subject sessionPath) as [files|] eqn:Hfiles; [|exact Hg].
  revert Hg.
  apply (fold_left_preserves_in
           (fun g => forall file subject,
              folder g !! file = Some subject ->
              target !! file = Some subject \/
              (subject ∈ variants /\
               exists files,
                 readdir subject sessionPath = Some files /\ file ∈ files /\
                 is_Some (counted_code file)))).
  clear g. intros g file Hfile Hg. unfold process_file.
  assert (counted_code file
          = if JS.endsWith ".json" file then parseUnitCode file else None)
    as Hcode by reflexivity.
  destruct (JS.endsWith ".json" file); cbn [negb]; [|exact Hg].
  destruct (parseUnitCode file) as [unitCode|]; [|exact Hg].
  case_bool_decide; [exact Hg|]. simpl. intros file' subject'.
  destruct (decide (file = file')) as [<-|Hne].
  - rewrite lookup_insert_eq. intros [= <-]. right.
    split; [exact Hsubject|]. exists files. rewrite Hcode. eauto.
  - rewrite lookup_insert_ne by exact Hne. apply Hg.
Qed.

Lemma group_push_keys b subject groups :
  NoDup (map fst groups) -> NoDup (map fst (group_push b subject groups)).
Proof.
  intros Hnd.
  assert (forall x, x ∈ map fst (group_push b subject groups) ->
                    x = b \/ x ∈ map fst groups) as Hkeys.
  { induction groups as [|[b0 vs] groups IH]; simpl.
    - intros x ->%list_elem_of_singleton. now left.
    - destruct (String.eqb_spec b0 b) as [->|Hne]; simpl.
      + intros x Hx. now right.
      + intros x [->|Hx]%elem_of_cons.
        * right. apply list_elem_of_here.
        * apply NoDup_cons in Hnd as [_ Hnd].
          destruct (IH Hnd x Hx) as [->|H]; [now left|].
          right. now apply list_elem_of_further. }
  clear Hkeys. induction groups as [|[b0 vs] groups IH]; simpl.
  - apply NoDup_singleton.
  - apply NoDup_cons in Hnd as [Hnotin Hnd].
    destruct (String.eqb_spec b0 b) as [->|Hne]; simpl.
    + now apply NoDup_cons.
    + apply NoDup_cons. split; [|now apply IH].
      intros Hin. apply Hnotin. clear IH Hnd Hnotin.
      induction groups as [|[b1 vs1] groups IH]; simpl in *.
      * apply list_elem_of_singleton in Hin. congruence.
      * destruct (String.eqb_spec b1 b) as [->|Hne1]; simpl in *;
          [exact Hin|].
        apply elem_of_cons in Hin as [->|Hin]; [apply list_elem_of_here|].
        apply list_elem_of_further. now apply IH.
Qed.

Lemma group_subjects_keys subjects : forall groups groups',
  NoDup (map fst groups) ->
  group_subjects subjects groups = Ok groups' -> NoDup (map fst groups').
Proof.
  induction subjects as [|subject subjects IH]; intros groups groups' Hnd;
    simpl.
  - now intros [= <-].
  - case_bool_decide; [discriminate|]. apply IH. now apply group_push_keys.
Qed.

Lemma group_lookup_of_elem b vs groups :
  NoDup (map fst groups) -> (b, vs) ∈ groups ->
  group_lookup b groups = Some vs.
Proof.
  induction groups as [|[b0 vs0] groups IH]; simpl.
  - intros _ []%elem_of_nil.
  - intros [Hnotin Hnd]%NoDup_cons [[= <- <-]|Hin]%elem_of_cons.
    + now rewrite String.eqb_refl.
    + destruct (String.eqb_spec b0 b) as [->|Hne]; [|now apply IH].
      exfalso. apply Hnotin. apply list_elem_of_fmap. now exists (b, vs).
Qed.

(** A group holds the subjects of the session that share its base name. *)
Lemma group_subjects_group sessionPath groups b vs subject :
  group_subjects (map fst sessionPath) [] = Ok groups ->
  (b, vs) ∈ groups -> subject ∈ vs ->
  subject ∈ map fst sessionPath /\
  getBaseSubjectName subject = b /\
  vs = same_group subject sessionPath.
Proof.
  intros Hrun Hin Hsubject.
  pose proof (group_subjects_keys _ [] groups (NoDup_nil_2) Hrun) as Hnd.
  pose proof (group_lookup_of_elem _ _ _ Hnd Hin) as Hlookup.
  pose proof (group_subjects_lookup _ [] [] groups (fun _ => eq_refl) Hrun b)
    as H.
  rewrite Hlookup in H. simpl in H. subst vs.
  apply list_elem_of_In, List.filter_In in Hsubject as [Hs Hb].
  apply String.eqb_eq in Hb. subst b.
  split; [now apply list_elem_of_In|]. split; reflexivity.
Qed.

Lemma Object_entries_from {A : Type} (o : list (string * A)) kv :
  kv ∈ Object_entries o -> kv ∈ o.
Proof.
  unfold Object_entries. intros [H|H]%elem_of_app.
  - apply list_elem_of_fmap in H as ([n kv'] & -> & H). simpl.
    assert (forall acc,
              (n, kv') ∈
                fold_left
                  (fun acc kv =>
                     match array_index (fst kv) with
                     | Some n => insert_index n kv acc
                     | None => acc
                     end) o acc ->
              (n, kv') ∈ acc \/ kv' ∈ o) as Hfold.
    { clear H. induction o as [|kv0 o IH]; intros acc; simpl; [now left|].
      intros H. apply IH in H as [H|H].
      - destruct (array_index (fst kv0)) as [n0|]; [|now left].
        apply insert_index_elem in H as [[= -> ->]|H]; [|now left].
        right. apply list_elem_of_here.
      - right. now apply list_elem_of_further. }
    destruct (Hfold [] H) as [[]%elem_of_nil|H']. exact H'.
  - now apply list_elem_of_filter in H as [_ H].
Qed.

Lemma process_session_target_from source qualType sessions s m :
  (qualType, IsDir sessions) ∈ source -> s ∈ sessions ->
  target_from source m ->
  target_from source (snd (process_session qualType s m)).
Proof.
  intros Hq Hs. destruct s as [session [|sessionPath]]; simpl; [auto|].
  destruct (group_subjects (map fst sessionPath) []) as [groups|e] eqn:Hg;
    [|auto].
  apply (for_of_preserves_in (target_from source)).
  intros [] [b vs] m' Hgroup Hm'.
  apply Object_entries_from in Hgroup.
  assert (forall name,
            name = (if existsb isMathSubject vs then "Mathematics" else b) ->
            target_from source
              (run_group (qualType, session, name)
                 (process_variants sessionPath vs) vs m')) as Hrun.
  { intros name Hname key files file subject. unfold run_group.
    destruct (decide ((qualType, session, name) = key))
      as [<-|Hne].
    - intros Hfiles Hfile.
      assert (files = folder (process_variants sessionPath vs
                (default ∅ (target m' !! (qualType, session, name))))) as ->.
      { revert Hfiles. cbv zeta. cbn [target].
        intros Hfiles. symmetry.
        refine (Some_inj _ _ (eq_trans (eq_sym _) Hfiles)).
        apply lookup_insert_eq. }
      apply process_variants_entries in Hfile
        as [Hold | (Hsubject & files & Hread & Hfile & Hcode)].
      + destruct (target m' !! (qualType, session, name)) as [old|] eqn:Hold';
          simpl in Hold; [|now rewrite lookup_empty in Hold].
        exact (Hm' _ _ _ _ Hold' Hold).
      + destruct (group_subjects_group _ _ _ _ _ Hg Hgroup Hsubject)
          as (Hin & Hb & Hvs).
        exists sessions, sessionPath, files. simpl.
        repeat (split; [assumption|]).
        unfold target_folder. now rewrite <- Hvs, Hb.
    - intros Hfiles. apply Hm'. rewrite <- Hfiles. symmetry.
      cbv zeta. cbn [target]. now apply lookup_insert_ne. }
  unfold process_group.
  destruct (existsb isMathSubject vs); simpl; now apply Hrun.
Qed.

(** Every file of the target tree is a copy of a file of the raw tree:
    whatever [organizeData] leaves in a folder of the target tree comes
    from a raw subject folder of the same qualification and session that
    is merged into this folder, and its name ends in [.json] and starts
    with a unit code.  This holds also of what a run that throws has
    written. *)
Theorem organizeData_copies_counted_files_only (source : source_dir) :
  target_from source (snd (organizeData source)).
Proof.
  unfold organizeData.
  apply (for_of_preserves_in (target_from source)).
  - intros [] [qualType [|sessions]] m Hq Hm; simpl; [exact Hm|].
    apply (for_of_preserves_in (target_from source)); [|exact Hm].
    intros [] s m' Hs Hm'.
    now apply (process_session_target_from source qualType sessions).
  - intros key files file subject H. cbn [target] in H.
    exfalso. refine (eq_ind None (fun o => o <> Some files) _ _ _ H);
      [discriminate|]. symmetry. apply lookup_empty.
Qed.

(** The one file of the math pair's merged folder is the file of the
    first variant. *)
Lemma organizeData_copies_counted_files_only_witness :
  comes_from (math_source math_pair) (math_folder "Mathematics")
    "WMA01-01_Core_C12.json" "Mathematics_(2018)".
Proof.
  refine (organizeData_copies_counted_files_only (math_source math_pair)
            (math_folder "Mathematics")
            (default ∅ (target (snd (organizeData (math_source math_pair)))
                          !! math_folder "Mathematics"))
            "WMA01-01_Core_C12.json" "Mathematics_(2018)" _ _).
  - vm_compute. reflexivity.
  - vm_compute. reflexivity.
Defined.

(** ** What [totalFiles] counts *)









(** ** The shape of a unit code *)

(** A pattern without [$] matches a word whatever follows it. *)
Lemma matches_any_rest r w rest :
  matches r w rest -> no_eos r = true -> forall rest', matches r w rest'.
Proof.
  induction 1; simpl; intros Hr rest'; try discriminate;
    try (apply andb_true_iff in Hr as [Hr1 Hr2]).
  - now constructor.
  - constructor; auto.
  - apply matches_alt_l; auto.
  - apply matches_alt_r; auto.
  - apply matches_opt_some; auto.
  - apply matches_opt_none.
  - constructor.
  - constructor; auto.
  - constructor.
Qed.

Lemma unit_code_length w rest :
  matches unit_code_re w rest ->
  (4 <= String.length w <= 9)%nat.
Proof.
  unfold unit_code_re. intros H. invert_matches;
    rewrite ?string_length_app; simpl; lia.
Qed.

(** A unit code has 4 to 9 characters, and it is its own unit code: parsing
    the code that was parsed from a file name gives the code back. *)
Theorem parseUnitCode_of_a_code (filename unitCode : string) :
  parseUnitCode filename = Some unitCode ->
  (4 <= String.length unitCode <= 9)%nat /\
  parseUnitCode unitCode = Some unitCode.
Proof.
  unfold parseUnitCode, JS.match_anchored.
  destruct (JS.match_here unit_code_re filename) as [rest|] eqn:E;
    [|discriminate].
  destruct (match_here_sound _ _ _ E) as (w & -> & Hw).
  rewrite string_length_app, Nat.add_sub, string_take_app. intros [= <-].
  split; [exact (unit_code_length _ _ Hw)|].
  pose proof (matches_any_rest _ _ _ Hw eq_refl EmptyString) as Hw'.
  destruct (match_here_complete _ _ _ Hw') as [rest' Hrest'].
  pose proof (unit_code_longest _ _ _ Hw' Hrest') as Hlen.
  rewrite string_app_nil_r in Hrest'. rewrite Hrest'.
  destruct rest'; [|simpl in Hlen; lia].
  simpl. rewrite Nat.sub_0_r.
  rewrite <- (string_app_nil_r w) at 2. now rewrite string_take_app.
Qed.

Lemma parseUnitCode_of_a_code_witness :
  (4 <= String.length "WMA02-01C" <= 9)%nat /\
  parseUnitCode "WMA02-01C" = Some "WMA02-01C".
Proof.
  apply (parseUnitCode_of_a_code "WMA02-01C_something.json").
  reflexivity.
Defined.

(** ** Base names *)

Lemma rev_acc_app s : forall acc,
  JS.rev_acc s acc = JS.rev_acc s EmptyString +:+ acc.
Proof.
  induction s as [|a s IH]; intros acc; simpl; [reflexivity|].
  rewrite (IH (String a acc)), (IH (String a EmptyString)).
  now rewrite string_app_assoc.
Qed.

Lemma starts_with_underscore_app s t :
  s <> EmptyString ->
  JS.starts_with "_" (s +:+ t) = JS.starts_with "_" s.
Proof. destruct s as [|a s]; [congruence|]. intros _. reflexivity. Qed.

Lemma rev_acc_nonempty a s : JS.rev_acc (String a s) EmptyString <> EmptyString.
Proof.
  simpl. rewrite rev_acc_app. destruct (JS.rev_acc s EmptyString); discriminate.
Qed.

(** The name ends in an underscore: the last character decides. *)
Lemma endsWith_underscore_cons a t :
  JS.endsWith "_" (String a t)
  = match t with
    | EmptyString => JS.is_char "_" a
    | String _ _ => JS.endsWith "_" t
    end.
Proof.
  unfold JS.endsWith. cbn [JS.rev_acc]. destruct t as [|b t].
  - change (Ascii.eqb "_" a && true = JS.is_char "_" a).
    rewrite andb_true_r. unfold JS.is_char.
    destruct (Ascii.eqb_spec "_" a) as [<-|Hne]; [reflexivity|].
    symmetry. apply N.eqb_neq. intros Heq. apply Hne.
    unfold JS.code in Heq. apply (f_equal ascii_of_N) in Heq.
    now rewrite !ascii_N_embedding in Heq.
  - rewrite (rev_acc_app (String b t)).
    apply starts_with_underscore_app, rev_acc_nonempty.
Qed.

Lemma all_underscores_endsWith t :
  t <> EmptyString -> all_underscores t = true -> JS.endsWith "_" t = true.
Proof.
  induction t as [|a t IH]; [congruence|]. intros _. simpl.
  intros [Ha Ht]%andb_true_iff. rewrite endsWith_underscore_cons.
  destruct t as [|b t]; [exact Ha|]. now apply IH.
Qed.

Lemma strip_underscores_fixed s :
  strip_underscores s = s <-> JS.endsWith "_" s = false.
Proof.
  induction s as [|a t IH]; [now split|].
  rewrite endsWith_underscore_cons.
  assert (strip_underscores (String a t)
          = if JS.is_char "_" a && all_underscores t then EmptyString
            else String a (strip_underscores t)) as -> by reflexivity.
  destruct (JS.is_char "_" a && all_underscores t) eqn:E.
  - split; [discriminate|]. apply andb_true_iff in E as [Ha Ht].
    destruct t as [|b t]; [congruence|].
    rewrite all_underscores_endsWith; [discriminate | discriminate | exact Ht].
  - destruct t as [|b t].
    + simpl in E. rewrite andb_true_r in E. now split.
    + split; intros H.
      * injection H as H. now apply IH.
      * f_equal. now apply IH.
Qed.

(** [getBaseSubjectName] never makes a name longer, its result never ends
    in an underscore, and the names it leaves as they are are those that
    hold no parenthesized 4-digit year and do not end in an underscore. *)
Theorem getBaseSubjectName_fixed_points (subject : string) :
  (String.length (getBaseSubjectName subject) <= String.length subject)%nat /\
  JS.endsWith "_" (getBaseSubjectName subject) = false /\
  (getBaseSubjectName subject = subject <->
   has_year_token subject = false /\ JS.endsWith "_" subject = false).
Proof.
  unfold getBaseSubjectName. rewrite remove_trailing_underscores.
  pose proof (strip_underscores_length (JS.remove_all year_re subject)) as H1.
  pose proof (remove_all_fuel_length (String.length subject) year_re subject)
    as H2.
  fold (JS.remove_all year_re subject) in H2.
  split; [lia|]. split.
  - apply strip_underscores_fixed, strip_underscores_idempotent.
  - split.
    + intros Heq. destruct (has_year_token subject) eqn:E.
      * pose proof (remove_all_fuel_token (String.length subject) subject
                      (Nat.le_refl _) E) as Hlt.
        fold (JS.remove_all year_re subject) in Hlt.
        apply (f_equal String.length) in Heq. lia.
      * split; [reflexivity|]. apply strip_underscores_fixed.
        unfold JS.remove_all in Heq.
        now rewrite (remove_all_fuel_no_token _ _ E) in Heq.
    + intros [E Hu]. unfold JS.remove_all.
      rewrite (remove_all_fuel_no_token _ _ E).
      now apply strip_underscores_fixed.
Qed.

(** ** File names ([saveData]) *)

Lemma star_k_Some p s : JS.star_k p s Some = Some (drop_while p s).
Proof.
  induction s as [|a t IH]; [reflexivity|]. simpl. rewrite IH.
  now destruct (p a).
Qed.

Lemma drop_while_length p s :
  (String.length (drop_while p s) <= String.length s)%nat.
Proof.
  induction s as [|a t IH]; simpl; [lia|]. destruct (p a); simpl; lia.
Qed.

Lemma drop_while_forall p q s :
  string_forall q s = true -> string_forall q (drop_while p s) = true.
Proof.
  induction s as [|a t IH]; simpl; [auto|].
  intros [Ha Ht]%andb_true_iff. destruct (p a); [auto|].
  simpl. now rewrite Ha, Ht.
Qed.

Lemma match_blanks s :
  JS.match_here blanks_re s
  = match s with
    | String a t =>
        if JS.is_space a then Some (drop_while JS.is_space t) else None
    | EmptyString => None
    end.
Proof.
  unfold JS.match_here, blanks_re. destruct s as [|a t]; [reflexivity|].
  simpl. destruct (JS.is_space a); [apply star_k_Some | reflexivity].
Qed.

Lemma match_cls p s :
  JS.match_here (JS.Cls p) s
  = match s with
    | String a t => if p a then Some t else None
    | EmptyString => None
    end.
Proof. reflexivity. Qed.

(** The first replacement leaves no forbidden character. *)
Lemma replace_forbidden_forall fuel : forall s,
  (String.length s < fuel)%nat ->
  string_forall (fun a => negb (is_forbidden a))
    (replace_all_fuel fuel (JS.Cls is_forbidden) "-" s) = true.
Proof.
  induction fuel as [|fuel IH]; intros s Hlen; [lia|].
  cbn [replace_all_fuel]. rewrite match_cls.
  destruct s as [|a t]; [reflexivity|]. simpl in Hlen.
  destruct (is_forbidden a) eqn:Ha.
  - assert ((String.length t <? String.length (String a t))%nat = true) as ->
      by (apply Nat.ltb_lt; simpl; lia).
    rewrite string_app_cons, string_app_nil_l. cbn [string_forall].
    rewrite IH by lia. reflexivity.
  - cbn [string_forall]. rewrite Ha, IH by lia. reflexivity.
Qed.

Lemma replace_forbidden_fixed fuel : forall s,
  (String.length s < fuel)%nat ->
  string_forall (fun a => negb (is_forbidden a)) s = true ->
  replace_all_fuel fuel (JS.Cls is_forbidden) "-" s = s.
Proof.
  induction fuel as [|fuel IH]; intros s Hlen Hs; [lia|].
  cbn [replace_all_fuel]. rewrite match_cls.
  destruct s as [|a t]; [reflexivity|]. simpl in Hlen, Hs.
  apply andb_true_iff in Hs as [Ha%negb_true_iff Ht].
  rewrite Ha, IH by (lia || assumption). reflexivity.
Qed.

Lemma replace_forbidden_length fuel : forall s,
  (String.length s < fuel)%nat ->
  String.length (replace_all_fuel fuel (JS.Cls is_forbidden) "-" s)
  = String.length s.
Proof.
  induction fuel as [|fuel IH]; intros s Hlen; [lia|].
  cbn [replace_all_fuel]. rewrite match_cls.
  destruct s as [|a t]; [reflexivity|]. simpl in Hlen.
  destruct (is_forbidden a).
  - assert ((String.length t <? String.length (String a t))%nat = true) as ->
      by (apply Nat.ltb_lt; simpl; lia).
    rewrite string_app_cons, string_app_nil_l. simpl. now rewrite IH by lia.
  - simpl. now rewrite IH by lia.
Qed.

(** The second replacement leaves no white space, and brings in no
    forbidden character. *)
Lemma replace_blanks_forall fuel : forall s,
  (String.length s < fuel)%nat ->
  string_forall (fun a => negb (is_forbidden a)) s = true ->
  string_forall clean_char (replace_all_fuel fuel blanks_re "_" s) = true.
Proof.
  induction fuel as [|fuel IH]; intros s Hlen Hs; [lia|].
  cbn [replace_all_fuel]. rewrite match_blanks.
  destruct s as [|a t]; [reflexivity|]. simpl in Hlen, Hs.
  apply andb_true_iff in Hs as [Ha Ht].
  pose proof (drop_while_length JS.is_space t) as Hdrop.
  destruct (JS.is_space a) eqn:Hspace.
  - assert ((String.length (drop_while JS.is_space t)
               <? String.length (String a t))%nat = true) as ->
      by (apply Nat.ltb_lt; simpl; lia).
    rewrite string_app_cons, string_app_nil_l. cbn [string_forall].
    rewrite IH; [reflexivity | lia | now apply drop_while_forall].
  - cbn [string_forall]. unfold clean_char at 1.
    rewrite Ha, Hspace, IH by (lia || assumption). reflexivity.
Qed.

Lemma replace_blanks_fixed fuel : forall s,
  (String.length s < fuel)%nat ->
  string_forall (fun a => negb (JS.is_space a)) s = true ->
  replace_all_fuel fuel blanks_re "_" s = s.
Proof.
  induction fuel as [|fuel IH]; intros s Hlen Hs; [lia|].
  cbn [replace_all_fuel]. rewrite match_blanks.
  destruct s as [|a t]; [reflexivity|]. simpl in Hlen, Hs.
  apply andb_true_iff in Hs as [Ha%negb_true_iff Ht].
  rewrite Ha, IH by (lia || assumption). reflexivity.
Qed.

Lemma replace_blanks_length fuel : forall s,
  (String.length s < fuel)%nat ->
  (String.length (replace_all_fuel fuel blanks_re "_" s) <= String.length s)%nat.
Proof.
  induction fuel as [|fuel IH]; intros s Hlen; [lia|].
  cbn [replace_all_fuel]. rewrite match_blanks.
  destruct s as [|a t]; [simpl; lia|]. simpl in Hlen.
  pose proof (drop_while_length JS.is_space t) as Hdrop.
  destruct (JS.is_space a).
  - assert ((String.length (drop_while JS.is_space t)
               <? String.length (String a t))%nat = true) as ->
      by (apply Nat.ltb_lt; simpl; lia).
    rewrite string_app_cons, string_app_nil_l. simpl.
    specialize (IH (drop_while JS.is_space t)). lia.
  - simpl. specialize (IH t). lia.
Qed.

Lemma clean_char_split s :
  string_forall clean_char s = true <->
  string_forall (fun a => negb (is_forbidden a)) s = true /\
  string_forall (fun a => negb (JS.is_space a)) s = true.
Proof.
  induction s as [|a t IH]; simpl; [tauto|]. unfold clean_char at 1.
  rewrite !andb_true_iff, IH. tauto.
Qed.

Lemma cleanName_fixed s :
  string_forall clean_char s = true -> cleanName s = s.
Proof.
  intros [Hf Hs]%clean_char_split. unfold cleanName, replace_all.
  rewrite replace_forbidden_fixed by (lia || assumption).
  now apply replace_blanks_fixed; [lia|].
Qed.

(** [cleanName] leaves none of the characters [/ \ : * ? < > |], no double
    quote and no white space in a name, never makes a name longer, leaves a name
    without such characters as it is, and so changes nothing when it is
    applied a second time: a name and its clean form are written to the
    same place. *)
Theorem cleanName_is_clean (str : string) :
  string_forall clean_char (cleanName str) = true /\
  (String.length (cleanName str) <= String.length str)%nat /\
  (string_forall clean_char str = true -> cleanName str = str) /\
  cleanName (cleanName str) = cleanName str.
Proof.
  assert (string_forall clean_char (cleanName str) = true) as Hclean.
  { unfold cleanName, replace_all. apply replace_blanks_forall; [lia|].
    apply replace_forbidden_forall. lia. }
  split; [exact Hclean|]. split; [|split].
  - unfold cleanName, replace_all.
    pose proof (replace_forbidden_length (S (String.length str)) str
                  ltac:(lia)) as H1.
    pose proof (replace_blanks_length
                  (S (String.length
                        (replace_all_fuel (S (String.length str))
                           (JS.Cls is_forbidden) "-" str)))
                  (replace_all_fuel (S (String.length str))
                     (JS.Cls is_forbidden) "-" str) ltac:(lia)) as H2.
    lia.
  - apply cleanName_fixed.
  - now apply cleanName_fixed.
Qed.

(** ** From the names of the site to the groups of the merge *)

Lemma string_forall_impl (p q : ascii -> bool) s :
  (forall a, p a = true -> q a = true) ->
  string_forall p s = true -> string_forall q s = true.
Proof.
  intros Hpq. induction s as [|a t IH]; simpl; [auto|].
  intros [Ha Ht]%andb_true_iff. now rewrite (Hpq a Ha), IH.
Qed.

Lemma string_forall_app p s t :
  string_forall p (s +:+ t) = string_forall p s && string_forall p t.
Proof.
  induction s as [|a s IH]; [reflexivity|].
  rewrite string_app_cons. simpl. now rewrite IH, andb_assoc.
Qed.

Lemma replace_blanks_app fuel : forall b rest,
  string_forall (fun a => negb (JS.is_space a)) b = true ->
  replace_all_fuel (String.length b + fuel) blanks_re "_" (b +:+ rest)
  = b +:+ replace_all_fuel fuel blanks_re "_" rest.
Proof.
  induction b as [|a b IH]; intros rest Hb; [reflexivity|].
  simpl in Hb. apply andb_true_iff in Hb as [Ha%negb_true_iff Hb].
  rewrite string_app_cons. cbn [String.length Nat.add replace_all_fuel].
  rewrite match_blanks, Ha, IH by exact Hb. reflexivity.
Qed.

Lemma year_re_no_match a t :
  JS.is_space a = false -> JS.is_char "(" a = false ->
  JS.match_here year_re (String a t) = None.
Proof.
  intros Hs Hp. unfold JS.match_here, year_re. simpl. now rewrite Hs, Hp.
Qed.

Lemma remove_year_app fuel : forall b rest,
  string_forall (fun a => negb (JS.is_space a) && negb (JS.is_char "(" a)) b
    = true ->
  JS.remove_all_fuel (String.length b + fuel) year_re (b +:+ rest)
  = b +:+ JS.remove_all_fuel fuel year_re rest.
Proof.
  induction b as [|a b IH]; intros rest Hb; [reflexivity|].
  simpl in Hb. apply andb_true_iff in Hb as [Ha Hb].
  apply andb_true_iff in Ha as [Hs%negb_true_iff Hp%negb_true_iff].
  rewrite string_app_cons. cbn [String.length Nat.add JS.remove_all_fuel].
  rewrite (year_re_no_match a _ Hs Hp), IH by exact Hb. reflexivity.
Qed.

Lemma all_underscores_snoc s :
  all_underscores (s +:+ "_") = all_underscores s.
Proof.
  induction s as [|a s IH]; [reflexivity|].
  rewrite string_app_cons. simpl. now rewrite IH.
Qed.

Lemma strip_underscores_snoc s :
  strip_underscores (s +:+ "_") = strip_underscores s.
Proof.
  induction s as [|a s IH]; [reflexivity|].
  rewrite string_app_cons. simpl. now rewrite all_underscores_snoc, IH.
Qed.

Lemma replace_blanks_space fuel rest :
  (String.length rest + 1 < fuel)%nat ->
  string_forall (fun a => negb (JS.is_space a)) rest = true ->
  replace_all_fuel fuel blanks_re "_" (String " " rest) = String "_" rest.
Proof.
  intros Hlen Hrest. destruct fuel as [|fuel]; [lia|].
  cbn [replace_all_fuel]. rewrite match_blanks.
  change (JS.is_space " ") with true. cbv iota.
  assert (drop_while JS.is_space rest = rest) as ->.
  { destruct rest as [|a t]; [reflexivity|]. simpl in *.
    apply andb_true_iff in Hrest as [Ha%negb_true_iff _]. now rewrite Ha. }
  assert ((String.length rest <? String.length (String " " rest))%nat = true)
    as -> by (apply Nat.ltb_lt; simpl; lia).
  rewrite string_app_cons, string_app_nil_l. f_equal.
  apply replace_blanks_fixed; [lia | exact Hrest].
Qed.

Lemma remove_year_token fuel d1 d2 d3 d4 :
  JS.is_digit d1 = true -> JS.is_digit d2 = true ->
  JS.is_digit d3 = true -> JS.is_digit d4 = true ->
  JS.remove_all_fuel (S fuel) year_re
    (String "(" (String d1 (String d2 (String d3 (String d4 ")")))))
  = EmptyString.
Proof.
  intros H1 H2 H3 H4. cbn [JS.remove_all_fuel].
  assert (JS.match_here year_re
            (String "(" (String d1 (String d2 (String d3 (String d4 ")")))))
          = Some EmptyString) as ->.
  { unfold JS.match_here, year_re. simpl.
    change (JS.is_space "(") with false. cbv iota.
    change (JS.is_char "(" "(") with true. cbv iota.
    rewrite H1, H2, H3, H4.
    change (JS.is_char ")" ")") with true. reflexivity. }
  cbn [String.length Nat.ltb Nat.leb]. now destruct fuel.
Qed.

(** The subject folders [saveData] writes for one subject, with and without
    a year behind its name, fall into one group of the merge: for a bare
    name [b] (none of the characters [cleanName] replaces, no opening
    parenthesis) and a 4-digit year, the folder of ["b (year)"] is
    ["b_(year)"], and its base name is that of the folder of [b]: [b]
    without its trailing underscores. *)
Theorem year_suffix_joins_the_bare_name (b : string) (d1 d2 d3 d4 : ascii) :
  string_forall bare_char b = true ->
  JS.is_digit d1 = true -> JS.is_digit d2 = true ->
  JS.is_digit d3 = true -> JS.is_digit d4 = true ->
  let year := String d1 (String d2 (String d3 (String d4 EmptyString))) in
  cleanName (b +:+ " (" +:+ year +:+ ")") = b +:+ "_(" +:+ year +:+ ")" /\
  getBaseSubjectName (cleanName (b +:+ " (" +:+ year +:+ ")"))
  = strip_underscores b /\
  getBaseSubjectName (cleanName b) = strip_underscores b.
Proof.
  intros Hb H1 H2 H3 H4 year.
  assert (string_forall clean_char b = true) as Hclean.
  { revert Hb. apply string_forall_impl. unfold bare_char.
    now intros a [? ?]%andb_true_iff. }
  assert (string_forall
            (fun a => negb (JS.is_space a) && negb (JS.is_char "(" a)) b
          = true) as Hyear.
  { revert Hb. apply string_forall_impl. unfold bare_char, clean_char.
    intros a [[_ ->]%andb_true_iff ->]%andb_true_iff. reflexivity. }
  assert (forall d, JS.is_digit d = true ->
            is_forbidden d = false /\ JS.is_space d = false) as Hdigit.
  { intros d Hd. unfold JS.is_digit, JS.in_range in Hd.
    apply andb_true_iff in Hd as [Hlo%N.leb_le Hhi%N.leb_le].
    unfold is_forbidden, JS.is_space, JS.in_range. simpl.
    repeat match goal with
    | |- context [(?x =? ?y)%N] =>
        destruct (N.eqb_spec x y); [lia|]
    | |- context [(?x <=? ?y)%N] =>
        destruct (N.leb_spec x y); try lia
    end; auto. }
  destruct (Hdigit d1 H1) as [F1 S1]. destruct (Hdigit d2 H2) as [F2 S2].
  destruct (Hdigit d3 H3) as [F3 S3]. destruct (Hdigit d4 H4) as [F4 S4].
  set (token := String "(" (String d1 (String d2 (String d3 (String d4 ")"))))).
  change (" (" +:+ year +:+ ")") with (String " " token).
  change ("_(" +:+ year +:+ ")") with (String "_" token).
  assert (string_forall (fun a => negb (JS.is_space a)) token = true)
    as Htoken by (subst token; simpl; now rewrite S1, S2, S3, S4).
  assert (cleanName (b +:+ String " " token) = b +:+ String "_" token)
    as Hname.
  { unfold cleanName, replace_all.
    rewrite replace_forbidden_fixed; [|lia|].
    2:{ apply clean_char_split in Hclean as [Hf _].
        rewrite string_forall_app, Hf. subst token. simpl.
        now rewrite F1, F2, F3, F4. }
    rewrite string_length_app, <- Nat.add_succ_r.
    rewrite replace_blanks_app
      by (apply clean_char_split in Hclean; tauto).
    f_equal. apply replace_blanks_space; [simpl; lia | exact Htoken]. }
  split; [exact Hname|]. split.
  - rewrite Hname. unfold getBaseSubjectName, JS.remove_all.
    rewrite remove_trailing_underscores.
    replace (b +:+ String "_" token) with ((b +:+ "_") +:+ token)
      by (now rewrite string_app_assoc).
    rewrite string_length_app.
    rewrite remove_year_app
      by (rewrite string_forall_app, Hyear; reflexivity).
    subst token. cbn [String.length].
    rewrite remove_year_token by assumption.
    rewrite string_app_nil_r. apply strip_underscores_snoc.
  - rewrite (cleanName_fixed b Hclean).
    unfold getBaseSubjectName, JS.remove_all.
    rewrite remove_trailing_underscores. f_equal.
    pose proof (remove_year_app 0 b EmptyString Hyear) as H.
    cbn [JS.remove_all_fuel] in H.
    now rewrite !string_app_nil_r, Nat.add_0_r in H.
Qed.

Lemma year_suffix_joins_the_bare_name_witness :
  cleanName "Mathematics (2018)" = "Mathematics_(2018)" /\
  getBaseSubjectName (cleanName "Mathematics (2018)") = "Mathematics" /\
  getBaseSubjectName (cleanName "Mathematics") = "Mathematics".
Proof.
  apply (year_suffix_joins_the_bare_name "Mathematics" "2" "0" "1" "8");
    reflexivity.
Defined.

(** ** Session labels *)

Lemma matches_lit_inv x : forall w rest, matches (JS.lit x) w rest -> w = x.
Proof.
  induction x as [|c x IH]; simpl; intros w rest H.
  - now inversion H.
  - inversion H as [|? ? w1 w2 ? H1 H2| | | | | | | |]; subst.
    apply IH in H2 as ->.
    inversion H1 as [? a ? Ha| | | | | | | | |]; subst.
    unfold JS.is_char in Ha. apply N.eqb_eq in Ha. unfold JS.code in Ha.
    apply (f_equal ascii_of_N) in Ha. rewrite !ascii_N_embedding in Ha.
    now subst.
Qed.

Lemma matches_lit x rest : matches (JS.lit x) x rest.
Proof.
  revert rest. induction x as [|c x IH]; intros rest; simpl; [constructor|].
  change (String c x) with (String c EmptyString +:+ x).
  constructor; [|apply IH]. constructor. unfold JS.is_char. apply N.eqb_refl.
Qed.

Lemma matches_star_iff p w rest :
  matches (JS.Star p) w rest <-> string_forall p w = true.
Proof.
  split.
  - intros H. remember (JS.Star p) as r eqn:Hr.
    induction H; try discriminate; injection Hr as ->; simpl; [reflexivity|].
    rewrite H. auto.
  - induction w as [|a w IH]; simpl; [constructor|].
    intros [Ha Hw]%andb_true_iff. constructor; auto.
Qed.

(** The labels [scrapeSeries] takes for exam sessions: one of the three
    months, white space, and four digits, with nothing before or behind. *)
Theorem valid_session_labels (session : string) :
  JS.test_anchored session_re session = true <->
  exists month blanks d1 d2 d3 d4,
    month ∈ ["January"; "June"; "October"] /\
    blanks <> EmptyString /\
    string_forall JS.is_space blanks = true /\
    JS.is_digit d1 = true /\ JS.is_digit d2 = true /\
    JS.is_digit d3 = true /\ JS.is_digit d4 = true /\
    session
    = month +:+ blanks
      +:+ String d1 (String d2 (String d3 (String d4 EmptyString))).
Proof.
  unfold JS.test_anchored. split.
  - destruct (JS.match_here session_re session) as [rest|] eqn:E;
      [|discriminate].
    intros _. apply match_here_sound in E as (w & -> & Hw).
    unfold session_re in Hw.
    inversion Hw as [|? ? month w1 ? Hmonth H1| | | | | | | |]; subst; clear Hw.
    inversion H1 as [|? ? b0 w2 ? Hb0 H2| | | | | | | |]; subst; clear H1.
    inversion H2 as [|? ? bs w3 ? Hbs H3| | | | | | | |]; subst; clear H2.
    inversion Hb0 as [? b ? Hb| | | | | | | | |]; subst; clear Hb0.
    apply matches_star_iff in Hbs.
    inversion H3 as [|? ? x1 w4 ? Hd1 H4| | | | | | | |]; subst; clear H3.
    inversion H4 as [|? ? x2 w5 ? Hd2 H5| | | | | | | |]; subst; clear H4.
    inversion H5 as [|? ? x3 w6 ? Hd3 H6| | | | | | | |]; subst; clear H5.
    inversion H6 as [|? ? x4 w7 ? Hd4 H7| | | | | | | |]; subst; clear H6.
    inversion Hd1 as [? d1 ? Hx1| | | | | | | | |]; subst; clear Hd1.
    inversion Hd2 as [? d2 ? Hx2| | | | | | | | |]; subst; clear Hd2.
    inversion Hd3 as [? d3 ? Hx3| | | | | | | | |]; subst; clear Hd3.
    inversion Hd4 as [? d4 ? Hx4| | | | | | | | |]; subst; clear Hd4.
    inversion H7; subst; clear H7.
    exists month, (String b bs), d1, d2, d3, d4.
    split; [|split; [discriminate|split; [simpl; now rewrite Hb, Hbs|]]].
    + inversion Hmonth as [| |? ? ? ? HJ|? ? ? ? Hrest| | | | | |]; subst.
      * apply (matches_lit_inv "January") in HJ as ->.
        apply list_elem_of_here.
      * inversion Hrest as [| |? ? ? ? HJ|? ? ? ? HO| | | | | |]; subst.
        -- apply (matches_lit_inv "June") in HJ as ->.
           apply list_elem_of_further, list_elem_of_here.
        -- apply (matches_lit_inv "October") in HO as ->.
           do 2 apply list_elem_of_further. apply list_elem_of_here.
    + repeat split; try assumption.
      rewrite !string_app_nil_r.
      now rewrite ?string_app_cons, ?string_app_nil_l.
  - intros (month & blanks & d1 & d2 & d3 & d4 & Hmonth & Hne & Hblanks &
            H1 & H2 & H3 & H4 & ->).
    destruct blanks as [|b bs]; [congruence|]. simpl in Hblanks.
    apply andb_true_iff in Hblanks as [Hb Hbs].
    assert (matches session_re
              (month +:+ String b bs
               +:+ String d1 (String d2 (String d3 (String d4 EmptyString))))
              EmptyString) as Hw.
    { unfold session_re.
      assert (matches
                (JS.Alt (JS.lit "January")
                   (JS.Alt (JS.lit "June") (JS.lit "October")))
                month
                (String b bs
                 +:+ String d1 (String d2 (String d3 (String d4 EmptyString)))))
        as Hm.
      { apply elem_of_cons in Hmonth as [->|Hmonth];
          [apply matches_alt_l, matches_lit|].
        apply matches_alt_r.
        apply elem_of_cons in Hmonth as [->|Hmonth];
          [apply matches_alt_l, matches_lit|].
        apply list_elem_of_singleton in Hmonth as ->.
        apply matches_alt_r, matches_lit. }
      apply matches_cat.
      - now rewrite string_app_nil_r.
      - change (String b bs +:+ ?t)
          with (String b EmptyString +:+ (bs +:+ t)).
        apply matches_cat; [now constructor|].
        apply matches_cat; [now apply matches_star_iff|].
        change (String d1 (String d2 (String d3 (String d4 EmptyString))))
          with (String d1 EmptyString +:+
                (String d2 EmptyString +:+
                 (String d3 EmptyString +:+
                  (String d4 EmptyString +:+ EmptyString)))).
        repeat (apply matches_cat; [now constructor|]). constructor. }
    rewrite <- (string_app_nil_r (month +:+ _)).
    destruct (match_here_complete _ _ _ Hw) as [rest ->]. reflexivity.
Qed.

(** ** The subject filter *)

Lemma starts_with_iff w s :
  JS.starts_with w s = true <-> exists post, s = w +:+ post.
Proof.
  revert s. induction w as [|c w IH]; intros s; simpl.
  - split; [eauto | reflexivity].
  - destruct s as [|a s].
    + split; [discriminate | intros [post H]; discriminate].
    + rewrite andb_true_iff, IH. split.
      * intros [->%Ascii.eqb_eq [post ->]]. now exists post.
      * intros [post H]. rewrite string_app_cons in H.
        injection H as -> ->. split; [apply Ascii.eqb_refl | eauto].
Qed.

(** [includes] is containment as a substring. *)
Lemma includes_iff w s :
  JS.includes w s = true <-> exists pre post, s = pre +:+ w +:+ post.
Proof.
  induction s as [|a s IH].
  - simpl. rewrite orb_false_r, starts_with_iff. split.
    + intros [post H]. now exists EmptyString, post.
    + intros (pre & post & H). destruct pre; [eauto|discriminate].
  - cbn [JS.includes]. rewrite orb_true_iff, starts_with_iff, IH. split.
    + intros [[post H] | (pre & post & ->)].
      * now exists EmptyString, post.
      * now exists (String a pre), post.
    + intros (pre & post & H). destruct pre as [|b pre].
      * left. now exists post.
      * right. rewrite string_app_cons in H. injection H as -> ->. eauto.
Qed.

Lemma lower_char_idempotent a : JS.lower_char (JS.lower_char a) = JS.lower_char a.
Proof. destruct a as [[] [] [] [] [] [] [] []]; reflexivity. Qed.

Lemma toLowerCase_idempotent s :
  JS.toLowerCase (JS.toLowerCase s) = JS.toLowerCase s.
Proof.
  induction s as [|a s IH]; [reflexivity|]. simpl.
  now rewrite lower_char_idempotent, IH.
Qed.

(** A subject is retained exactly when its name in lower case contains one
    of the terms of [FILTER_SUBJECTS] in lower case; the case of the name
    does not matter. *)
Theorem shouldProcessSubject_is_containment (subject : string) :
  (shouldProcessSubject subject = true <->
   exists filterTerm pre post,
     filterTerm ∈ FILTER_SUBJECTS /\
     JS.toLowerCase subject = pre +:+ JS.toLowerCase filterTerm +:+ post) /\
  shouldProcessSubject (JS.toLowerCase subject) = shouldProcessSubject subject.
Proof.
  split.
  - unfold shouldProcessSubject.
    change (length FILTER_SUBJECTS =? 0)%nat with false. cbv iota.
    rewrite existsb_exists. split.
    + intros (filterTerm & Hin & (pre & post & H)%includes_iff).
      exists filterTerm, pre, post. split; [now apply list_elem_of_In | exact H].
    + intros (filterTerm & pre & post & Hin & H).
      exists filterTerm. split; [now apply list_elem_of_In|].
      apply includes_iff. eauto.
  - unfold shouldProcessSubject. now rewrite toLowerCase_idempotent.
Qed.

(** ** The command line ([index.js]) *)

Lemma findIndex_first flag argv i :
  findIndex (String.eqb flag) argv = Some i <-> first_flag flag argv i.
Proof.
  revert i. induction argv as [|x argv IH]; intros i; simpl.
  - split; [discriminate | now intros [[=] _]].
  - destruct (String.eqb_spec flag x) as [<-|Hne].
    + split.
      * intros [= <-]. split; [reflexivity|]. intros j Hj. lia.
      * intros [Hi Hfirst]. destruct i as [|i]; [reflexivity|].
        exfalso. apply (Hfirst 0%nat); [lia | reflexivity].
    + destruct i as [|i].
      * split.
        -- destruct (findIndex (String.eqb flag) argv); discriminate.
        -- intros [[= ->] _]. congruence.
      * assert (first_flag flag (x :: argv) (S i) <-> first_flag flag argv i)
          as ->.
        { unfold first_flag. simpl. split; intros [Hi Hfirst]; (split; [exact Hi|]).
          - intros j Hj. apply (Hfirst (S j)). lia.
          - intros [|j] Hj; simpl; [congruence | apply Hfirst; lia]. }
        rewrite <- (IH i).
        destruct (findIndex (String.eqb flag) argv) as [k|]; simpl;
          [|split; discriminate].
        split; [now intros [= ->] | now intros [= ->]].
Qed.

(** Test mode is entered exactly when the first [--test] of the command
    line has three arguments behind it, which are then the session, the
    subject and the unit; a [--test] with fewer arguments behind it is
    ignored, without an error. *)
Theorem checkForTestMode_needs_three_arguments (argv : list string)
    (session subject unit : string) :
  checkForTestMode argv = Some (session, subject, unit) <->
  exists testIndex,
    first_flag "--test" argv testIndex /\
    argv !! (testIndex + 1)%nat = Some session /\
    argv !! (testIndex + 2)%nat = Some subject /\
    argv !! (testIndex + 3)%nat = Some unit.
Proof.
  unfold checkForTestMode. split.
  - destruct (findIndex (String.eqb "--test") argv) as [i|] eqn:Hi;
      [|discriminate].
    apply findIndex_first in Hi.
    destruct (i <? length argv - 3)%nat; [|discriminate].
    destruct (argv !! (i + 1)%nat) as [x1|] eqn:H1; [|discriminate].
    destruct (argv !! (i + 2)%nat) as [x2|] eqn:H2; [|discriminate].
    destruct (argv !! (i + 3)%nat) as [x3|] eqn:H3; [|discriminate].
    intros [= <- <- <-]. exists i. auto.
  - intros (i & Hi & H1 & H2 & H3).
    apply findIndex_first in Hi. rewrite Hi, H1, H2, H3.
    apply lookup_lt_Some in H3.
    destruct (Nat.ltb_spec i (length argv - 3)); [reflexivity | lia].
Qed.

Lemma rev_acc_snoc s a :
  JS.rev_acc (s +:+ String a EmptyString) EmptyString
  = String a (JS.rev_acc s EmptyString).
Proof.
  induction s as [|b s IH]; [reflexivity|].
  rewrite string_app_cons. cbn [JS.rev_acc].
  rewrite (rev_acc_app (s +:+ String a EmptyString)), IH.
  now rewrite (rev_acc_app s (String b EmptyString)).
Qed.

Lemma rev_acc_involutive s :
  JS.rev_acc (JS.rev_acc s EmptyString) EmptyString = s.
Proof.
  induction s as [|a s IH]; [reflexivity|].
  cbn [JS.rev_acc]. rewrite (rev_acc_app s (String a EmptyString)).
  rewrite rev_acc_snoc. now rewrite IH.
Qed.

Lemma rev_acc_forall p s :
  string_forall p (JS.rev_acc s EmptyString) = string_forall p s.
Proof.
  induction s as [|a s IH]; [reflexivity|].
  cbn [JS.rev_acc]. rewrite (rev_acc_app s (String a EmptyString)).
  rewrite string_forall_app, IH. simpl.
  rewrite andb_true_r. apply andb_comm.
Qed.

Lemma drop_while_suffix p s :
  exists dropped, s = dropped +:+ drop_while p s.
Proof.
  induction s as [|a s [dropped IH]]; [now exists EmptyString|]. simpl.
  destruct (p a); [|now exists EmptyString].
  exists (String a dropped). now rewrite string_app_cons, <- IH.
Qed.

Lemma drop_while_idempotent p s :
  drop_while p (drop_while p s) = drop_while p s.
Proof.
  induction s as [|a s IH]; [reflexivity|]. simpl.
  destruct (p a) eqn:E; [exact IH|]. simpl. now rewrite E.
Qed.

Lemma drop_while_prefix p s t :
  drop_while p (s +:+ t) = s +:+ t -> drop_while p s = s.
Proof.
  destruct s as [|a s]; [reflexivity|]. rewrite string_app_cons. simpl.
  destruct (p a); [|reflexivity].
  intros H. apply (f_equal String.length) in H.
  pose proof (drop_while_length p (s +:+ t)). simpl in H. lia.
Qed.

Lemma rev_acc_app_distr s t :
  JS.rev_acc (s +:+ t) EmptyString
  = JS.rev_acc t EmptyString +:+ JS.rev_acc s EmptyString.
Proof.
  induction s as [|a s IH]; [now rewrite string_app_nil_r|].
  rewrite string_app_cons. cbn [JS.rev_acc].
  rewrite (rev_acc_app (s +:+ t)), IH, (rev_acc_app s (String a EmptyString)).
  now rewrite string_app_assoc.
Qed.

Lemma trim_idempotent s : trim (trim s) = trim s.
Proof.
  unfold trim, trimStart.
  set (t := drop_while JS.is_space s).
  set (u := JS.rev_acc (drop_while JS.is_space (JS.rev_acc t EmptyString))
              EmptyString).
  assert (drop_while JS.is_space u = u) as ->.
  { destruct (drop_while_suffix JS.is_space (JS.rev_acc t EmptyString))
      as [dropped Hd].
    apply (f_equal (fun x => JS.rev_acc x EmptyString)) in Hd.
    rewrite rev_acc_involutive, rev_acc_app_distr in Hd. fold u in Hd.
    apply (drop_while_prefix _ _ (JS.rev_acc dropped EmptyString)).
    rewrite <- Hd. apply drop_while_idempotent. }
  subst u. now rewrite rev_acc_involutive, drop_while_idempotent.
Qed.

Lemma trim_forall p s :
  string_forall p s = true -> string_forall p (trim s) = true.
Proof.
  intros H. unfold trim, trimStart. rewrite rev_acc_forall.
  apply drop_while_forall. rewrite rev_acc_forall.
  now apply drop_while_forall.
Qed.

Lemma split_on_forall sep s :
  Forall (fun piece =>
            string_forall (fun a => negb (Ascii.eqb a sep)) piece = true)
    (split_on sep s).
Proof.
  induction s as [|a s IH]; simpl; [repeat constructor|].
  destruct (Ascii.eqb a sep) eqn:E; [now constructor|].
  destruct (split_on sep s) as [|first rest]; [repeat constructor; simpl|].
  - now rewrite E.
  - inversion IH; subst. constructor; [simpl; now rewrite E | assumption].
Qed.

(** When [parseSubjectFilter] returns keywords, there is at least one, and
    each is a piece of the argument behind the first [--subjects], between
    commas, trimmed: it is not empty, holds no comma and neither starts nor
    ends with white space.  A [--subjects] that is the last argument gives
    [null]. *)
Theorem parseSubjectFilter_keywords (argv : list string) :
  match parseSubjectFilter argv with
  | Some subjects =>
      subjects <> [] /\
      Forall
        (fun subject =>
           subject <> EmptyString /\
           trim subject = subject /\
           string_forall (fun a => negb (Ascii.eqb a ",")) subject = true)
        subjects /\
      exists subjectsIndex subjectsArg,
        first_flag "--subjects" argv subjectsIndex /\
        argv !! (subjectsIndex + 1)%nat = Some subjectsArg /\
        subjects
        = List.filter (fun s => (0 <? String.length s)%nat)
            (map trim (split_on "," subjectsArg))
  | None =>
      forall subjectsIndex,
        first_flag "--subjects" argv subjectsIndex ->
        match argv !! (subjectsIndex + 1)%nat with
        | Some subjectsArg =>
            Forall (fun piece => trim piece = EmptyString)
              (split_on "," subjectsArg)
        | None => True
        end
  end.
Proof.
  unfold parseSubjectFilter.
  destruct (findIndex (String.eqb "--subjects") argv) as [i|] eqn:Hi.
  2:{ intros j Hj. apply findIndex_first in Hj. congruence. }
  destruct (Nat.ltb_spec i (length argv - 1)) as [Hlt|Hge].
  2:{ intros j Hj. apply findIndex_first in Hj.
      assert (j = i) as -> by congruence.
      destruct (argv !! (i + 1)%nat) eqn:E; [|exact I].
      apply lookup_lt_Some in E. lia. }
  destruct (argv !! (i + 1)%nat) as [arg|] eqn:Harg.
  2:{ apply lookup_ge_None in Harg. lia. }
  cbv zeta.
  set (subjects := List.filter _ _).
  destruct (Nat.ltb_spec 0 (length subjects)) as [Hpos|Hzero].
  - split; [intros H; rewrite H in Hpos; simpl in Hpos; lia|]. split.
    + apply Forall_forall. intros subject Hin.
      apply list_elem_of_In, List.filter_In in Hin as [Hin Hlen].
      apply in_map_iff in Hin as (piece & <- & Hpiece).
      split; [|split].
      * intros H. rewrite H in Hlen. discriminate.
      * apply trim_idempotent.
      * apply trim_forall.
        pose proof (split_on_forall "," arg) as Hall.
        rewrite Forall_forall in Hall. apply Hall.
        now apply list_elem_of_In.
    + exists i, arg. apply findIndex_first in Hi. auto.
  - intros j Hj. apply findIndex_first in Hj.
    assert (j = i) as -> by congruence. rewrite Harg.
    apply Forall_forall. intros piece Hpiece.
    destruct (trim piece) as [|a t] eqn:E; [reflexivity|].
    exfalso. assert (String a t ∈ subjects) as Hin.
    { apply list_elem_of_In, List.filter_In. split; [|reflexivity].
      apply in_map_iff. exists piece. split; [exact E|].
      now apply list_elem_of_In. }
    destruct subjects; [now apply elem_of_nil in Hin | simpl in Hzero; lia].
Qed.

(** ** A ledger file that cannot be read *)






